(** * FloatAI dashboard: fetch resilience, derived analytics, chat session state

    A shallow embedding of the analytically meaningful part of the FloatAI
    front end (TypeScript) and the properties its specification states:

    - [DataVisualization]: [computeStats], [extractNumericValues] and the
      expert-mode [filteredData] pipeline;
    - [App]: [createDataSynopsis], the welcome load [fetchInitialData] with
      its retry loop and the persisted welcome cache;
    - [Api] / [ApiFrontend]: the two copies of the fetch client
      [floatAIAPI] with their sample fallbacks;
    - [ChatInterface]: [normalizeAssistantMessages], [sendPrompt] and
      [handleResetConversation];
    - [ChatSession], [AppControls], [AppWiring], [AppDeck], [AppPalette]:
      the conversation, the persona controls and the status line of the
      App as event runs;
    - [Fleet], [OceanMap], [Dashboard], [ApiUrl]: the two maps, the
      controls of the dashboard and the URLs of the client.

    Rows of a result are arbitrary JSON values, and reading a property of
    [null] throws as it does in the engine.

    JavaScript numbers are IEEE-754 binary64 values and are embedded as
    Rocq's primitive floats, so arithmetic on them rounds as it does in the
    engine.  Array lengths, loop counters and epoch times are integers and
    are embedded as [nat] or [Z]. *)

From Stdlib Require Import String Ascii ZArith Bool Lia.
From Stdlib Require Import Floats Uint63.
From Stdlib Require Import DecimalString DecimalNat.
From Stdlib Require Import List Permutation Sorted.
Import ListNotations.
Open Scope string_scope.
Open Scope list_scope.

Set Implicit Arguments.
Set Warnings "-inexact-float".

(* ------------------------------------------------------------------ *)
(** * JavaScript values, strings and completions *)

Module Js.

(** A JavaScript number. *)
Definition number := float.

(** JSON-like values: what a row cell or a parsed payload can hold. *)
#[warnings="-register-all"] Inductive value : Type :=
| Undefined
| Null
| Bool (b : bool)
| Num (x : number)
| Str (s : string)
| Arr (xs : list value)
| Obj (fields : list (string * value)).

(** A loosely typed record, [Record<string, any>]: its own enumerable
    properties in [Object.keys] order, each key once. *)
Definition record := list (string * value).

(** [row[key]]: the first own property under that name, [undefined] when
    there is none. *)
Fixpoint get (row : record) (key : string) : value :=
  match row with
  | [] => Undefined
  | (k, v) :: rest => if String.eqb k key then v else get rest key
  end.

(** [Object.keys(row)]. *)
Definition keys (row : record) : list string := map fst row.

(** [a ?? b]. *)
Definition nullish (a b : value) : value :=
  match a with
  | Undefined | Null => b
  | _ => a
  end.

(** [typeof v === "number" && !Number.isNaN(v)]. *)
Definition is_number_not_nan (v : value) : bool :=
  match v with
  | Num x => negb (PrimFloat.is_nan x)
  | _ => false
  end.

(** JavaScript truthiness, [Boolean(v)]. *)
Definition truthy (v : value) : bool :=
  match v with
  | Undefined | Null => false
  | Bool b => b
  | Num x => negb (PrimFloat.is_nan x || PrimFloat.is_zero x)
  | Str s => negb (String.eqb s EmptyString)
  | Arr _ | Obj _ => true
  end.

(** The length of an array as a number. *)
Definition of_nat (n : nat) : number :=
  PrimFloat.of_uint63 (Uint63.of_Z (Z.of_nat n)).

(** ** Strings *)

(** Strings are held as UTF-8 bytes.  The code points that
    [String.prototype.trim] removes (WhiteSpace and LineTerminator), each
    as its UTF-8 bytes: U+0009..U+000D, U+0020, U+00A0, U+1680,
    U+2000..U+200A, U+2028, U+2029, U+202F, U+205F, U+3000, U+FEFF. *)
Definition white_space : list (list nat) :=
  [[9]; [10]; [11]; [12]; [13]; [32]; [194; 160]; [225; 154; 128];
   [226; 128; 128]; [226; 128; 129]; [226; 128; 130]; [226; 128; 131];
   [226; 128; 132]; [226; 128; 133]; [226; 128; 134]; [226; 128; 135];
   [226; 128; 136]; [226; 128; 137]; [226; 128; 138]; [226; 128; 168];
   [226; 128; 169]; [226; 128; 175]; [226; 129; 159]; [227; 128; 128];
   [239; 187; 191]]%nat.

Fixpoint starts_with (codes : list nat) (b : list ascii) : bool :=
  match codes, b with
  | [], _ => true
  | _ :: _, [] => false
  | c :: codes', x :: b' =>
      (nat_of_ascii x =? c)%nat && starts_with codes' b'
  end.

(** The width in bytes of the white-space character [b] starts with, 0
    when it starts with none of [table]. *)
Fixpoint space_width (table : list (list nat)) (b : list ascii) : nat :=
  match table with
  | [] => 0
  | codes :: table' =>
      if starts_with codes b then length codes else space_width table' b
  end.

Fixpoint drop_spaces (table : list (list nat)) (fuel : nat) (b : list ascii)
  : list ascii :=
  match fuel with
  | O => b
  | S fuel' =>
      match space_width table b with
      | O => b
      | S w => drop_spaces table fuel' (skipn (S w) b)
      end
  end.

(** [s.trim()]: leading white space is dropped, then trailing white space,
    read backwards. *)
Definition trim (s : string) : string :=
  let b := list_ascii_of_string s in
  let front := drop_spaces white_space (length b) b in
  let back :=
    drop_spaces (map (@rev nat) white_space) (length front) (rev front) in
  string_of_list_ascii (rev back).

(** [s.length]: the number of UTF-16 code units of the text, counted on
    its UTF-8 bytes (a continuation byte adds none, the lead byte of a
    four-byte sequence adds two). *)
Definition utf16_length (s : string) : nat :=
  fold_left
    (fun n c =>
       let b := nat_of_ascii c in
       if ((128 <=? b) && (b <? 192))%nat then n
       else if (240 <=? b)%nat then (n + 2)%nat
       else S n)
    (list_ascii_of_string s) O.

(** A byte that continues a UTF-8 sequence. *)
Definition is_continuation (c : ascii) : bool :=
  let b := nat_of_ascii c in ((128 <=? b) && (b <? 192))%nat.

Fixpoint continuation_prefix (bytes : list ascii) : list ascii :=
  match bytes with
  | [] => []
  | c :: rest => if is_continuation c then c :: continuation_prefix rest else []
  end.

(** The characters of a text: each lead byte with the bytes that continue
    it. *)
Fixpoint characters (bytes : list ascii) : list (list ascii) :=
  match bytes with
  | [] => []
  | c :: rest =>
      if is_continuation c then characters rest
      else (c :: continuation_prefix rest) :: characters rest
  end.

(** The three-byte form of a code unit from U+0800 on. *)
Definition three_bytes (unit : N) : string :=
  String (ascii_of_N (224 + unit / 4096)%N)
    (String (ascii_of_N (128 + (unit / 64) mod 64)%N)
       (String (ascii_of_N (128 + unit mod 64)%N) EmptyString)).

(** The two surrogates of a character outside the Basic Multilingual
    Plane, read off its four-byte sequence. *)
Definition surrogates (character : list ascii) : list string :=
  let payload (index : nat) (modulus : N) : N :=
    (N_of_ascii (nth index character (ascii_of_nat 128)) mod modulus)%N in
  let code_point :=
    (payload 0%nat 8 * 262144 + payload 1%nat 64 * 4096
     + payload 2%nat 64 * 64 + payload 3%nat 64)%N in
  let offset := (code_point - 65536)%N in
  [three_bytes (55296 + offset / 1024)%N;
   three_bytes (56320 + offset mod 1024)%N].

(** The UTF-16 code units of a text, each as a text of its own: what
    [s[0]], [s[1]], ... read. *)
Definition code_units (s : string) : list string :=
  flat_map
    (fun character =>
       match character with
       | lead :: _ =>
           if (240 <=? nat_of_ascii lead)%nat then surrogates character
           else [string_of_list_ascii character]
       | [] => []
       end)
    (characters (list_ascii_of_string s)).

(** [s.toLowerCase()].  The ASCII capitals are lowered.  Two characters
    outside ASCII lower to ASCII letters and are lowered too: the Kelvin
    sign U+212A to [k] and the dotted capital I U+0130 to [i] followed by
    the combining dot U+0307.  Every other character outside ASCII lowers
    to a character outside ASCII in as many code units and is left as it
    is: the result agrees with the engine's in its length and in which
    ASCII texts it includes or equals. *)
Definition lower (c : ascii) : ascii :=
  let b := nat_of_ascii c in
  if ((65 <=? b) && (b <=? 90))%nat then ascii_of_nat (b + 32) else c.

Definition is_byte (c : ascii) (code : nat) : bool :=
  (nat_of_ascii c =? code)%nat.

Fixpoint lower_bytes (bytes : list ascii) : list ascii :=
  match bytes with
  | [] => []
  | c1 :: rest1 =>
      match rest1 with
      | c2 :: rest2 =>
          if is_byte c1 196 && is_byte c2 176
          then ascii_of_nat 105 :: ascii_of_nat 204 :: ascii_of_nat 135
                 :: lower_bytes rest2
          else
            match rest2 with
            | c3 :: rest3 =>
                if is_byte c1 226 && is_byte c2 132 && is_byte c3 170
                then ascii_of_nat 107 :: lower_bytes rest3
                else lower c1 :: lower_bytes rest1
            | [] => lower c1 :: lower_bytes rest1
            end
      | [] => [lower c1]
      end
  end.

Definition toLowerCase (s : string) : string :=
  string_of_list_ascii (lower_bytes (list_ascii_of_string s)).

(** [hay.includes(needle)]. *)
Fixpoint includes (needle hay : string) : bool :=
  String.prefix needle hay
  || match hay with
     | EmptyString => false
     | String _ rest => includes needle rest
     end.

(** A regular expression that is an alternation of literal texts matches
    when the subject includes one of them. *)
Definition test_any (alternatives : list string) (subject : string) : bool :=
  existsb (fun needle => includes needle subject) alternatives.

(** [xs.join(sep)]. *)
Fixpoint join (sep : string) (xs : list string) : string :=
  match xs with
  | [] => EmptyString
  | [x] => x
  | x :: rest => (x ++ sep ++ join sep rest)%string
  end.

(** Decimal rendering of a length or counter, as a template literal
    renders an integer number. *)
Definition string_of_nat (n : nat) : string :=
  NilEmpty.string_of_uint (Nat.to_uint n).

Definition string_of_Z (z : Z) : string :=
  match z with
  | Z0 => "0"%string
  | Zpos p => string_of_nat (Pos.to_nat p)
  | Zneg p => ("-" ++ string_of_nat (Pos.to_nat p))%string
  end.

(** [String(v)].  The rendering of a number ([Number::toString]) is a
    parameter; an object renders as its default tag. *)
Section ToString.
Variable Number_toString : number -> string.

Fixpoint to_string (v : value) : string :=
  match v with
  | Undefined => "undefined"
  | Null => "null"
  | Bool true => "true"
  | Bool false => "false"
  | Num x => Number_toString x
  | Str s => s
  | Arr xs =>
      join ","
        (map (fun x =>
                match x with
                | Undefined | Null => EmptyString
                | _ => to_string x
                end) xs)
  | Obj _ => "[object Object]"
  end.
End ToString.

(** ** Completions: a call returns normally or throws *)

Inductive error : Type :=
| TypeError (msg : string)
| HttpError (status : Z)
| SyntaxError
| RangeError
| QuotaExceeded
| SecurityError.

Inductive completion (A : Type) : Type :=
| Normal (a : A)
| Throw (e : error).
Arguments Normal {A} a.
Arguments Throw {A} e.

Definition bind {A B} (c : completion A) (k : A -> completion B)
  : completion B :=
  match c with
  | Normal a => k a
  | Throw e => Throw e
  end.

(** [try { body } catch (error) { handler(error) }]. *)
Definition try_catch {A} (body : completion A) (handler : error -> completion A)
  : completion A :=
  match body with
  | Normal a => Normal a
  | Throw e => handler e
  end.

(** ** Dates

    A [Date] holds a time value: milliseconds since the epoch, valid within
    8.64e15 of it.  [toISOString] throws a [RangeError] on an invalid date
    and otherwise renders the UTC calendar date and time. *)

Definition max_time_value : Z := 8640000000000000.

Definition ms_per_day : Z := 86400000.

(** Days since the epoch to (year, month, day) in the proleptic Gregorian
    calendar. *)
Definition civil_from_days (days : Z) : Z * Z * Z :=
  let z := (days + 719468)%Z in
  let era := (z / 146097)%Z in
  let doe := (z - era * 146097)%Z in
  let yoe := ((doe - doe / 1460 + doe / 36524 - doe / 146096) / 365)%Z in
  let doy := (doe - (365 * yoe + yoe / 4 - yoe / 100))%Z in
  let mp := ((5 * doy + 2) / 153)%Z in
  let d := (doy - (153 * mp + 2) / 5 + 1)%Z in
  let m := (if mp <? 10 then mp + 3 else mp - 9)%Z in
  let y := (yoe + era * 400 + (if m <=? 2 then 1 else 0))%Z in
  (y, m, d).

Fixpoint zeros (n : nat) : string :=
  match n with
  | O => EmptyString
  | S n' => String "0" (zeros n')
  end.

(** A non-negative integer in decimal, padded with zeros to [width]. *)
Definition pad (width : nat) (n : Z) : string :=
  let digits := string_of_Z n in
  (zeros (width - String.length digits) ++ digits)%string.

Definition iso_year (y : Z) : string :=
  if ((0 <=? y) && (y <=? 9999))%Z then pad 4 y
  else ((if (y <? 0)%Z then "-" else "+") ++ pad 6 (Z.abs y))%string.

(** The ISO rendering of a valid time value. *)
Definition iso_string (t : Z) : string :=
  let day := (t / ms_per_day)%Z in
  let rest := (t mod ms_per_day)%Z in
  let '(y, m, d) := civil_from_days day in
  let hours := (rest / 3600000)%Z in
  let minutes := (rest / 60000 mod 60)%Z in
  let seconds := (rest / 1000 mod 60)%Z in
  let millis := (rest mod 1000)%Z in
  (iso_year y ++ "-" ++ pad 2 m ++ "-" ++ pad 2 d
   ++ "T" ++ pad 2 hours ++ ":" ++ pad 2 minutes
   ++ ":" ++ pad 2 seconds ++ "." ++ pad 3 millis ++ "Z")%string.

(** [new Date(t).toISOString()] for an integer [t]. *)
Definition toISOString (t : Z) : completion string :=
  if (Z.abs t >? max_time_value)%Z then Throw RangeError
  else Normal (iso_string t).

(** [Array.from({ length }, (_, index) => f(index))]: the callback runs for
    index 0, 1, ... in turn and the first throw ends the construction. *)
Fixpoint array_from_at (A : Type) (start count : nat)
  (f : nat -> completion A) : completion (list A) :=
  match count with
  | O => Normal []
  | S count' =>
      bind (f start) (fun x =>
      bind (array_from_at (S start) count' f) (fun rest =>
      Normal (x :: rest)))
  end.

Definition array_from (A : Type) (length : nat) (f : nat -> completion A)
  : completion (list A) :=
  array_from_at 0 length f.

(** ** Array objects in a store

    Arrays are mutable objects with identity.  A store holds the arrays
    allocated so far; a reference is the allocation index. *)
Section Store.
Variable A : Type.

Definition store := list (list A).
Definition ref := nat.

Definition read (h : store) (r : ref) : list A := nth r h [].

Definition alloc (h : store) (xs : list A) : store * ref :=
  (h ++ [xs], length h).

Fixpoint write (h : store) (r : ref) (xs : list A) : store :=
  match h, r with
  | [], _ => []
  | _ :: rest, O => xs :: rest
  | a :: rest, S r' => a :: write rest r' xs
  end.

Lemma read_alloc_old (h : store) (xs : list A) (r : ref) :
  r < length h -> read (fst (alloc h xs)) r = read h r.
Proof. intros Hr. unfold read, alloc. simpl. now rewrite app_nth1. Qed.

Lemma read_alloc_new (h : store) (xs : list A) :
  read (fst (alloc h xs)) (snd (alloc h xs)) = xs.
Proof.
  unfold read, alloc. simpl. rewrite app_nth2 by lia.
  now rewrite Nat.sub_diag.
Qed.

Lemma read_write_same (h : store) (r : ref) (xs : list A) :
  r < length h -> read (write h r xs) r = xs.
Proof.
  revert r. induction h as [|a h IH]; intros [|r] Hr; simpl in *;
    try lia; auto.
  apply IH. lia.
Qed.

Lemma read_write_other (h : store) (r r' : ref) (xs : list A) :
  r <> r' -> read (write h r xs) r' = read h r'.
Proof.
  unfold read. revert r r'.
  induction h as [|a h IH]; intros [|r] [|r'] Hne;
    simpl; auto; try congruence.
Qed.

End Store.

End Js.

(* ------------------------------------------------------------------ *)
(** * Order facts about binary64 numbers *)

Module Num64.
Import Js.
Local Open Scope float_scope.

Lemma SFcompare_antisym (x y : spec_float) :
  SFcompare y x = option_map CompOpp (SFcompare x y).
Proof.
  destruct x as [sx|sx| |sx mx ex], y as [sy|sy| |sy my ey]; simpl;
    try reflexivity;
    try (destruct sx; reflexivity);
    try (destruct sy; reflexivity);
    try (destruct sx, sy; reflexivity).
  destruct sx, sy; simpl; try reflexivity.
  - rewrite (Z.compare_antisym ex ey).
    destruct (ex ?= ey)%Z; simpl; try reflexivity.
    rewrite (Pos.compare_cont_antisym mx my Eq). simpl.
    reflexivity.
  - rewrite (Z.compare_antisym ex ey).
    destruct (ex ?= ey)%Z; simpl; try reflexivity.
    rewrite (Pos.compare_cont_antisym mx my Eq). simpl.
    reflexivity.
Qed.

Lemma not_nan_compare (a b : number) :
  PrimFloat.is_nan a = false -> PrimFloat.is_nan b = false ->
  exists c, SFcompare (Prim2SF a) (Prim2SF b) = Some c.
Proof.
  unfold PrimFloat.is_nan. rewrite !FloatAxioms.eqb_spec. unfold SFeqb.
  destruct (Prim2SF a) as [sa|sa| |sa ma ea], (Prim2SF b) as [sb|sb| |sb mb eb];
    simpl; intros Ha Hb; try discriminate; eauto.
Qed.

(** On numbers other than NaN the order is total. *)
Lemma ltb_false_leb (a b : number) :
  PrimFloat.is_nan a = false -> PrimFloat.is_nan b = false ->
  (b <? a) = false -> (a <=? b) = true.
Proof.
  intros Ha Hb. rewrite FloatAxioms.ltb_spec, FloatAxioms.leb_spec. unfold SFltb, SFleb.
  rewrite (SFcompare_antisym (Prim2SF a) (Prim2SF b)).
  destruct (not_nan_compare a b Ha Hb) as [c ->]. simpl.
  destruct c; simpl; auto; discriminate.
Qed.

Lemma ltb_leb (a b : number) : (a <? b) = true -> (a <=? b) = true.
Proof.
  rewrite FloatAxioms.ltb_spec, FloatAxioms.leb_spec. unfold SFltb, SFleb.
  destruct (SFcompare _ _) as [[]|]; auto; discriminate.
Qed.

Lemma ltb_irrefl (a : number) : (a <? a) = false.
Proof.
  rewrite FloatAxioms.ltb_spec. unfold SFltb.
  pose proof (SFcompare_antisym (Prim2SF a) (Prim2SF a)) as H.
  destruct (SFcompare (Prim2SF a) (Prim2SF a)) as [[]|]; auto.
  discriminate.
Qed.

Lemma leb_refl (a : number) : PrimFloat.is_nan a = false -> (a <=? a) = true.
Proof. intros H. apply ltb_false_leb; auto. apply ltb_irrefl. Qed.

Lemma leb_not_ltb (a b : number) : (a <=? b) = true -> (b <? a) = false.
Proof.
  rewrite FloatAxioms.leb_spec, FloatAxioms.ltb_spec. unfold SFleb, SFltb.
  rewrite (SFcompare_antisym (Prim2SF a) (Prim2SF b)).
  destruct (SFcompare (Prim2SF a) (Prim2SF b)) as [[]|]; simpl; auto;
    discriminate.
Qed.

Lemma SFleb_trans (x y z : spec_float) :
  SFleb x y = true -> SFleb y z = true -> SFleb x z = true.
Proof.
  unfold SFleb.
  destruct x as [sx|sx| |sx mx ex], y as [sy|sy| |sy my ey],
    z as [sz|sz| |sz mz ez]; simpl;
    try discriminate; try reflexivity;
    try (destruct sx; simpl; try discriminate; try reflexivity);
    try (destruct sy; simpl; try discriminate; try reflexivity);
    try (destruct sz; simpl; try discriminate; try reflexivity);
    auto.
  all: change (Pos.compare_cont Eq mx my) with (Pos.compare mx my);
    change (Pos.compare_cont Eq my mz) with (Pos.compare my mz);
    change (Pos.compare_cont Eq mx mz) with (Pos.compare mx mz);
    destruct (Z.compare_spec ex ey), (Z.compare_spec ey ez),
      (Z.compare_spec ex ez); try lia; simpl; try discriminate; auto;
    destruct (Pos.compare_spec mx my), (Pos.compare_spec my mz),
      (Pos.compare_spec mx mz); try lia; simpl; try discriminate; auto.
Qed.

Lemma leb_trans (a b c : number) :
  (a <=? b) = true -> (b <=? c) = true -> (a <=? c) = true.
Proof. rewrite !FloatAxioms.leb_spec. apply SFleb_trans. Qed.



(** ** The sign of a difference

    [a - b] is the exact difference rounded to nearest.  Rounding never
    turns a difference other than zero into zero, because the two aligned
    mantissas differ by at least one unit at an exponent not below
    [emin]; so the sign of [a - b] is the sign of the exact difference. *)

Local Open Scope Z_scope.

(** ** Digits *)

Lemma digits2_pos_bounds (m : positive) :
  2 ^ (Zpos (digits2_pos m) - 1) <= Zpos m < 2 ^ Zpos (digits2_pos m).
Proof.
  induction m as [m IH|m IH|]; cbn [digits2_pos].
  - rewrite Pos2Z.inj_succ.
    replace (Z.succ (Zpos (digits2_pos m)) - 1)
      with (Z.succ (Zpos (digits2_pos m) - 1)) by lia.
    rewrite !Z.pow_succ_r by lia. lia.
  - rewrite Pos2Z.inj_succ.
    replace (Z.succ (Zpos (digits2_pos m)) - 1)
      with (Z.succ (Zpos (digits2_pos m) - 1)) by lia.
    rewrite !Z.pow_succ_r by lia. lia.
  - simpl. lia.
Qed.

(** ** Shifting right keeps a long enough mantissa positive *)

Lemma shr_1_m (mrs : shr_record) :
  0 <= shr_m mrs -> shr_m (shr_1 mrs) = shr_m mrs / 2.
Proof.
  destruct mrs as [m r s]. cbn [shr_m]. intros Hm.
  destruct m as [|[p|p|]|p]; cbn [shr_1 shr_m]; try lia; try reflexivity.
  - rewrite Pos2Z.inj_xI. apply Z.div_unique with 1%Z; lia.
  - change (Zpos p~0) with (2 * Zpos p). apply Z.div_unique with 0%Z; lia.
Qed.

Lemma iter_shr_1_m (p : positive) (mrs : shr_record) :
  0 <= shr_m mrs ->
  shr_m (iter_pos shr_1 p mrs) = shr_m mrs / 2 ^ Zpos p.
Proof.
  revert mrs. induction p as [p IH|p IH|]; intros mrs Hm; cbn [iter_pos].
  - assert (H1 : 0 <= shr_m (shr_1 mrs)).
    { rewrite shr_1_m by assumption. apply Z.div_pos; lia. }
    assert (H2 : 0 <= shr_m (iter_pos shr_1 p (shr_1 mrs))).
    { rewrite IH by assumption. apply Z.div_pos; lia. }
    rewrite IH, IH, shr_1_m by assumption.
    assert (Hpow : 2 ^ Zpos p~1 = 2 * 2 ^ Zpos p * 2 ^ Zpos p).
    { rewrite Pos2Z.inj_xI.
      replace (2 * Zpos p + 1) with (1 + Zpos p + Zpos p) by lia.
      rewrite !Z.pow_add_r by lia. reflexivity. }
    assert (0 < 2 ^ Zpos p) by (apply Z.pow_pos_nonneg; lia).
    rewrite Hpow, !Z.div_div by lia. f_equal; ring.
  - assert (H2 : 0 <= shr_m (iter_pos shr_1 p mrs)).
    { rewrite IH by assumption. apply Z.div_pos; lia. }
    rewrite IH, IH by assumption.
    assert (Hpow : 2 ^ Zpos p~0 = 2 ^ Zpos p * 2 ^ Zpos p).
    { change (Zpos p~0) with (2 * Zpos p).
      rewrite <- (Z.add_diag (Zpos p)), Z.pow_add_r by lia.
      reflexivity. }
    assert (0 < 2 ^ Zpos p) by (apply Z.pow_pos_nonneg; lia).
    rewrite Hpow, !Z.div_div by lia. f_equal; ring.
  - rewrite shr_1_m by assumption. reflexivity.
Qed.

Lemma shr_record_of_loc_m (m : Z) (l : location) :
  shr_m (shr_record_of_loc m l) = m.
Proof. destruct l as [|[]]; reflexivity. Qed.

(** [shr_fexp] on a positive mantissa with an exponent not below [emin]. *)
Lemma shr_fexp_positive (m e : Z) (l : location) :
  0 < m -> emin <= e ->
  0 < shr_m (fst (shr_fexp prec emax m e l))
  /\ emin <= snd (shr_fexp prec emax m e l).
Proof.
  intros Hm He. unfold shr_fexp, shr.
  destruct m as [|p|p]; try lia. cbn [Zdigits2].
  pose proof (digits2_pos_bounds p) as [Hlow _].
  set (d := Zpos (digits2_pos p)) in *.
  unfold fexp. change (emin) with (-1074) in *.
  change prec with 53.
  destruct (Z.max (d + e - 53) (-1074) - e) as [|n|n] eqn:En;
    cbn [fst snd]; rewrite ?shr_record_of_loc_m; try lia.
  rewrite iter_shr_1_m by (rewrite shr_record_of_loc_m; lia).
  rewrite shr_record_of_loc_m.
  assert (Hn : Zpos n = d - 53) by lia.
  split; [|lia].
  apply Z.div_str_pos. split; [apply Z.pow_pos_nonneg; lia|].
  eapply Z.le_trans; [|exact Hlow].
  apply Z.pow_le_mono_r; lia.
Qed.

Lemma round_nearest_even_positive (m : Z) (l : location) :
  0 < m -> 0 < round_nearest_even m l.
Proof.
  intros Hm. destruct l as [|[]]; cbn [round_nearest_even]; try lia.
  destruct (Z.even m); lia.
Qed.

(** Rounding a positive mantissa at an exponent not below [emin] never
    gives zero: the result is finite or infinite, with the given sign. *)
Lemma binary_round_aux_sign (s : bool) (m e : Z) (l : location) :
  0 < m -> emin <= e ->
  (exists m' e', binary_round_aux prec emax s m e l = S754_finite s m' e')
  \/ binary_round_aux prec emax s m e l = S754_infinity s.
Proof.
  intros Hm He. unfold binary_round_aux.
  destruct (shr_fexp_positive l Hm He) as [H1 H1e].
  destruct (shr_fexp prec emax m e l) as [mrs' e'].
  cbn [fst snd] in H1, H1e.
  pose proof (round_nearest_even_positive (loc_of_shr_record mrs') H1) as H2.
  destruct (shr_fexp_positive loc_Exact H2 H1e) as [H3 _].
  destruct (shr_fexp prec emax _ e' loc_Exact) as [mrs'' e''].
  cbn [fst] in H3.
  destruct (shr_m mrs'') as [|q|q]; try lia.
  destruct (e'' <=? emax - prec); eauto.
Qed.

Lemma binary_round_sign (s : bool) (m : positive) (e : Z) :
  emin <= e ->
  (exists m' e', binary_round prec emax s m e = S754_finite s m' e')
  \/ binary_round prec emax s m e = S754_infinity s.
Proof.
  intros He. unfold binary_round.
  assert (H : emin
              <= snd (shl_align m e (fexp prec emax (Zpos (digits2_pos m) + e)))).
  { unfold shl_align, fexp.
    destruct (Z.max (Zpos (digits2_pos m) + e - prec) (emin) - e)
      eqn:E; cbn [snd]; lia. }
  destruct (shl_align m e _) as [mz ez]. cbn [snd] in H.
  apply binary_round_aux_sign; auto. lia.
Qed.

(** ** Aligned mantissas *)

Lemma shl_align_value (m : positive) (e ez : Z) :
  ez <= e -> Zpos (fst (shl_align m e ez)) = Zpos m * 2 ^ (e - ez).
Proof.
  intros H. unfold shl_align.
  destruct (ez - e) as [|d|d] eqn:E; cbn [fst]; try lia.
  - replace (e - ez) with 0 by lia. simpl. lia.
  - change (Pos.iter xO m d) with (shift_pos d m).
    rewrite shift_pos_correct.
    change (Zpower_pos 2 d) with (2 ^ Zpos d).
    replace (e - ez) with (Zpos d) by lia. lia.
Qed.

(** A valid mantissa at [e] has at most [prec] digits, and exactly [prec]
    of them above [emin]. *)
Lemma bounded_digits (m : positive) (e : Z) :
  bounded prec emax m e = true ->
  emin <= e
  /\ Zpos m < 2 ^ 53
  /\ (emin < e -> 2 ^ 52 <= Zpos m).
Proof.
  unfold bounded, canonical_mantissa, fexp. intros H.
  apply andb_prop in H. destruct H as [H _]. apply Z.eqb_eq in H.
  pose proof (digits2_pos_bounds m) as [Hlow Hhigh].
  set (d := Zpos (digits2_pos m)) in *.
  change (emin) with (-1074) in *. change prec with 53 in *.
  split; [lia|]. split.
  - eapply Z.lt_le_trans; [exact Hhigh|]. apply Z.pow_le_mono_r; lia.
  - intros He. assert (d = 53) by lia.
    replace 52 with (d - 1) by lia. exact Hlow.
Qed.

Lemma aligned_lt (ma mb : positive) (ea eb : Z) :
  bounded prec emax ma ea = true -> bounded prec emax mb eb = true ->
  eb < ea ->
  Zpos (fst (shl_align mb eb (Z.min ea eb)))
  < Zpos (fst (shl_align ma ea (Z.min ea eb))).
Proof.
  intros Ha Hb Hlt.
  destruct (bounded_digits _ _ Ha) as (Hae & _ & Ham).
  destruct (bounded_digits _ _ Hb) as (Hbe & Hbm & _).
  rewrite !shl_align_value by lia.
  replace (Z.min ea eb) with eb by lia.
  replace (eb - eb) with 0 by lia. rewrite Z.pow_0_r, Z.mul_1_r.
  specialize (Ham ltac:(lia)).
  assert (H2 : 2 ^ 1 <= 2 ^ (ea - eb)) by (apply Z.pow_le_mono_r; lia).
  change (2 ^ 1) with 2 in H2.
  change (2 ^ 53) with (2 ^ 52 * 2) in Hbm. nia.
Qed.

Lemma aligned_eq (ma mb : positive) (e : Z) :
  Zpos (fst (shl_align ma e (Z.min e e))) = Zpos ma
  /\ Zpos (fst (shl_align mb e (Z.min e e))) = Zpos mb.
Proof.
  rewrite !shl_align_value by lia.
  replace (e - Z.min e e) with 0 by lia. simpl. lia.
Qed.

Lemma SFsub_sign (x y : spec_float) :
  valid_binary x = true -> valid_binary y = true ->
  x <> S754_nan -> y <> S754_nan ->
  SFltb (S754_zero false) (SFsub prec emax x y) = SFltb y x.
Proof.
  intros Hx Hy Hnx Hny.
  destruct x as [sx|sx| |sx mx ex], y as [sy|sy| |sy my ey];
    try congruence;
    try (destruct sx, sy; reflexivity);
    try (destruct sx; reflexivity);
    try (destruct sy; reflexivity).
  cbn [valid_binary] in Hx, Hy.
  cbn [SFsub]. cbv zeta.
  destruct (bounded_digits _ _ Hx) as (Hxe & _).
  destruct (bounded_digits _ _ Hy) as (Hye & _).
  assert (Hez : (emin <= Z.min ex ey)%Z) by lia.
  set (Mx := Zpos (fst (shl_align mx ex (Z.min ex ey)))).
  set (My := Zpos (fst (shl_align my ey (Z.min ex ey)))).
  assert (Hsign : forall D : Z,
            SFltb (S754_zero false)
              (binary_normalize prec emax D (Z.min ex ey) false)
            = (0 <? D)%Z).
  { intros [|p|p]; cbn [binary_normalize]; auto.
    - destruct (binary_round_sign false p Hez) as [(m' & e' & ->)| ->];
        reflexivity.
    - destruct (binary_round_sign true p Hez) as [(m' & e' & ->)| ->];
        reflexivity. }
  rewrite Hsign.
  assert (Horder :
            match (ey ?= ex)%Z with
            | Lt => (My < Mx)%Z
            | Gt => (Mx < My)%Z
            | Eq => Mx = Zpos mx /\ My = Zpos my
            end).
  { destruct (Z.compare_spec ey ex) as [E|E|E].
    - subst ey. apply aligned_eq.
    - now apply aligned_lt.
    - subst Mx My. rewrite (Z.min_comm ex ey). now apply aligned_lt. }
  unfold SFltb. cbn [SFcompare].
  assert (Hpos : (0 < Mx)%Z /\ (0 < My)%Z) by (subst Mx My; lia).
  destruct sx, sy; cbn [cond_Zopp].
  - (* both negative *)
    destruct (ey ?= ex)%Z.
    + destruct Horder as [-> ->].
      change (Pos.compare_cont Eq my mx) with (my ?= mx)%positive.
      destruct (Pos.compare_spec my mx) as [E|E|E]; cbn [CompOpp];
        apply Z.ltb_ge || apply Z.ltb_lt; lia.
    + apply Z.ltb_ge. lia.
    + apply Z.ltb_lt. lia.
  - apply Z.ltb_ge. lia.
  - apply Z.ltb_lt. lia.
  - destruct (ey ?= ex)%Z.
    + destruct Horder as [-> ->].
      change (Pos.compare_cont Eq my mx) with (my ?= mx)%positive.
      destruct (Pos.compare_spec my mx) as [E|E|E];
        apply Z.ltb_ge || apply Z.ltb_lt; lia.
    + apply Z.ltb_lt. lia.
    + apply Z.ltb_ge. lia.
Qed.

Local Close Scope Z_scope.

Lemma is_nan_spec (a : number) :
  PrimFloat.is_nan a = false -> Prim2SF a <> S754_nan.
Proof.
  unfold PrimFloat.is_nan. rewrite FloatAxioms.eqb_spec. unfold SFeqb.
  intros H E. rewrite E in H. discriminate.
Qed.

(** On numbers other than NaN the sign of [a - b] tells their order:
    [a - b > 0] exactly when [b < a]. *)
Lemma sub_positive (a b : number) :
  PrimFloat.is_nan a = false -> PrimFloat.is_nan b = false ->
  (0 <? a - b) = (b <? a).
Proof.
  intros Ha Hb.
  rewrite !FloatAxioms.ltb_spec, FloatAxioms.sub_spec.
  change (Prim2SF 0) with (S754_zero false).
  apply SFsub_sign; auto using FloatAxioms.Prim2SF_valid, is_nan_spec.
Qed.

End Num64.


(* ------------------------------------------------------------------ *)
(** * DataVisualization: statistics, column extraction, expert filters *)

Module DataVisualization.
Import Js.
Local Open Scope float_scope.

(** ** [Array.prototype.sort] with a comparator

    The engine's sort is stable, and it rearranges the elements whatever
    the comparator answers.  Where the comparator is a consistent ordering
    of the elements, as [(a, b) => a - b] is on numbers other than NaN,
    the sorted array is determined, and the stable insertion sort [sort]
    below computes it; a comparator result that is not positive (negative,
    zero or NaN) leaves the earlier element first.  On an array with a NaN
    the order is implementation-defined, so the engine's sort is a
    parameter [Array_sort] of [computeStats], known there only to
    rearrange. *)

Definition comparator (a b : number) : number := a - b.

Fixpoint insert (cmp : number -> number -> number) (x : number)
  (l : list number) : list number :=
  match l with
  | [] => [x]
  | h :: t => if 0 <? cmp h x then x :: h :: t else h :: insert cmp x t
  end.

Definition sort (cmp : number -> number -> number) (l : list number)
  : list number :=
  fold_left (fun acc x => insert cmp x acc) l [].

(** [xs[i]] read as a number: an index past the end yields [undefined],
    which arithmetic turns into NaN. *)
Definition at_index (xs : list number) (i : nat) : number := nth i xs nan.

(** [Math.pow(v, 2)], the correctly rounded square. *)
Definition pow2 (v : number) : number := v * v.

Record Stats : Type := mkStats {
  mean : number;
  median : number;
  min : number;
  max : number;
  stddev : number;
  count : nat
}.

(** [values.reduce((acc, val) => acc + val, 0)]. *)
Definition sum (values : list number) : number :=
  fold_left (fun acc val => acc + val) values 0.

(** The body of [computeStats] after the emptiness test, reading the input
    array [values] and the sorted array [sorted]. *)
Definition stats_of (values sorted : list number) : Stats :=
  let mean := sum values / of_nat (length values) in
  let median :=
    if Nat.even (length sorted)
    then (at_index sorted (length sorted / 2 - 1)
          + at_index sorted (length sorted / 2)) / 2
    else at_index sorted ((length sorted - 1) / 2) in
  let min := at_index sorted 0 in
  let max := at_index sorted (length sorted - 1) in
  let variance :=
    fold_left (fun acc val => acc + pow2 (val - mean)) values 0
    / of_nat (length values) in
  let stddev := PrimFloat.sqrt variance in
  mkStats mean median min max stddev (length values).

(** [computeStats(values)] on arrays in a store: [[...values]] allocates a
    copy, [.sort] sorts that copy in place, and the reductions read
    [values] afterwards. *)
Definition computeStats
  (Array_sort : (number -> number -> number) -> list number -> list number)
  (h : store number) (values : ref) : store number * option Stats :=
  match read h values with
  | [] => (h, None)
  | _ :: _ =>
      let (h1, sorted) := alloc h (read h values) in
      let h2 := write h1 sorted (Array_sort comparator (read h1 sorted)) in
      (h2, Some (stats_of (read h2 values) (read h2 sorted)))
  end.

(** [computeStats] called on an array literal. *)
Definition computeStats_of
  (Array_sort : (number -> number -> number) -> list number -> list number)
  (values : list number) : option Stats :=
  snd (computeStats Array_sort [values] 0%nat).

(** ** [extractNumericValues] *)

(** [.filter((value) => value !== null)] on a list of numbers-or-null. *)
Fixpoint filter_not_null (xs : list (option number)) : list number :=
  match xs with
  | [] => []
  | Some x :: rest => x :: filter_not_null rest
  | None :: rest => filter_not_null rest
  end.

Definition extractNumericValues (rows : list record) (key : string)
  : list number :=
  filter_not_null
    (map (fun row =>
            match get row key with
            | Num x => if negb (PrimFloat.is_nan x) then Some x else None
            | _ => None
            end) rows).

(** The column as the specification words it: the finite numeric values,
    in row order. *)
Definition finite_column (rows : list record) (key : string) : list number :=
  flat_map (fun row =>
              match get row key with
              | Num x => if PrimFloat.is_finite x then [x] else []
              | _ => []
              end) rows.

(** The column the code keeps: every number other than NaN, in row order. *)
Definition not_nan_column (rows : list record) (key : string) : list number :=
  flat_map (fun row =>
              match get row key with
              | Num x => if PrimFloat.is_nan x then [] else [x]
              | _ => []
              end) rows.

(** ** Facts about the sort *)

Definition le (a b : number) : Prop := (a <=? b) = true.

(** No element is NaN. *)
Definition no_nan (values : list number) : bool :=
  forallb (fun v => negb (PrimFloat.is_nan v)) values.

Lemma no_nan_Forall (values : list number) :
  no_nan values = true <->
  Forall (fun v => PrimFloat.is_nan v = false) values.
Proof.
  unfold no_nan. rewrite forallb_forall, Forall_forall.
  split; intros H v Hin; specialize (H v Hin);
    destruct (PrimFloat.is_nan v); auto; discriminate.
Qed.

Lemma insert_perm cmp x l : Permutation (insert cmp x l) (x :: l).
Proof.
  induction l as [|h t IH]; simpl.
  - apply Permutation_refl.
  - destruct (0 <? cmp h x).
    + apply Permutation_refl.
    + eapply Permutation_trans; [apply perm_skip, IH | apply perm_swap].
Qed.

Lemma fold_insert_perm cmp l acc :
  Permutation (fold_left (fun acc x => insert cmp x acc) l acc) (acc ++ l).
Proof.
  revert acc. induction l as [|x l IH]; intros acc; simpl.
  - rewrite app_nil_r. apply Permutation_refl.
  - eapply Permutation_trans; [apply IH|].
    eapply Permutation_trans;
      [apply Permutation_app_tail, insert_perm|].
    simpl. apply Permutation_middle.
Qed.

Lemma sort_perm cmp l : Permutation (sort cmp l) l.
Proof. unfold sort. apply (fold_insert_perm cmp l []). Qed.

Lemma sort_length cmp l : length (sort cmp l) = length l.
Proof. apply Permutation_length, sort_perm. Qed.

(** On numbers other than NaN the comparator orders as [<] does. *)
Lemma comparator_positive (a b : number) :
  PrimFloat.is_nan a = false -> PrimFloat.is_nan b = false ->
  (0 <? comparator a b) = (b <? a).
Proof. apply Num64.sub_positive. Qed.

Lemma insert_hd x h t :
  le h x -> HdRel le h t -> HdRel le h (insert comparator x t).
Proof.
  intros Hhx Hh. destruct t as [|k t]; simpl.
  - now constructor.
  - destruct (0 <? comparator k x); constructor; auto.
    now inversion Hh.
Qed.

Lemma insert_sorted x l :
  PrimFloat.is_nan x = false ->
  Forall (fun v => PrimFloat.is_nan v = false) l ->
  Sorted le l -> Sorted le (insert comparator x l).
Proof.
  intros Hx Hl Hs. induction l as [|h t IH]; simpl.
  - repeat constructor.
  - inversion Hl as [|? ? Hh Ht]; subst.
    inversion Hs as [|? ? Hst Hhd]; subst.
    rewrite (comparator_positive h x Hh Hx).
    destruct (x <? h) eqn:E.
    + constructor; auto. constructor. now apply Num64.ltb_leb.
    + constructor; auto. apply insert_hd; auto.
      now apply Num64.ltb_false_leb.
Qed.

Lemma fold_insert_sorted l acc :
  Forall (fun v => PrimFloat.is_nan v = false) l ->
  Forall (fun v => PrimFloat.is_nan v = false) acc ->
  Sorted le acc ->
  Sorted le (fold_left (fun acc x => insert comparator x acc) l acc).
Proof.
  revert acc. induction l as [|x l IH]; intros acc Hl Hacc Hs; simpl; auto.
  inversion Hl; subst. apply IH; auto.
  - eapply Permutation_Forall.
    + apply Permutation_sym, insert_perm.
    + now constructor.
  - now apply insert_sorted.
Qed.

(** Sorting numbers other than NaN with [(a, b) => a - b] leaves them in
    ascending order. *)
Lemma sort_sorted (values : list number) :
  no_nan values = true -> Sorted le (sort comparator values).
Proof.
  intros Hn. apply no_nan_Forall in Hn.
  apply fold_insert_sorted; auto; constructor.
Qed.

Lemma le_transitive : Relations_1.Transitive le.
Proof. intros a b c. apply Num64.leb_trans. Qed.

Lemma sort_strongly_sorted (values : list number) :
  no_nan values = true -> StronglySorted le (sort comparator values).
Proof.
  intros Hn. apply Sorted_StronglySorted;
    [apply le_transitive | now apply sort_sorted].
Qed.

Lemma StronglySorted_app (l1 l2 : list number) :
  StronglySorted le (l1 ++ l2) ->
  StronglySorted le l2
  /\ Forall (fun a => Forall (le a) l2) l1.
Proof.
  induction l1 as [|x l1 IH]; simpl; intros H.
  - split; auto.
  - inversion H as [|? ? Hs Hall]; subst.
    destruct (IH Hs) as [H2 H1]. split; auto.
    constructor; auto.
    apply Forall_app in Hall. tauto.
Qed.

(** An array splits around any of its positions. *)
Lemma split_at (l : list number) (i : nat) :
  i < length l ->
  l = firstn i l ++ at_index l i :: skipn (S i) l.
Proof.
  revert i. induction l as [|x l IH]; intros i Hi; simpl in Hi; [lia|].
  destruct i as [|i]; [reflexivity|].
  cbn [firstn skipn app]. unfold at_index. cbn [nth].
  f_equal. apply IH. lia.
Qed.

(** ** [computeStats] leaves every array it was given untouched *)

Section SortedCopy.
Variable Array_sort :
  (number -> number -> number) -> list number -> list number.
Hypothesis Array_sort_rearranges :
  forall values, Permutation (Array_sort comparator values) values.
Hypothesis Array_sort_numbers :
  forall values, no_nan values = true ->
    Array_sort comparator values = sort comparator values.

Lemma computeStats_unfold (h : store number) (values : ref) :
  values < length h ->
  computeStats Array_sort h values =
    match read h values with
    | [] => (h, None)
    | _ :: _ =>
        (write (h ++ [read h values]) (length h)
           (Array_sort comparator (read h values)),
         Some (stats_of (read h values)
                 (Array_sort comparator (read h values))))
    end.
Proof.
  intros Hv. unfold computeStats.
  destruct (read h values) as [|v vs] eqn:E; auto.
  unfold alloc.
  assert (Hnew : read (h ++ [v :: vs]) (length h) = v :: vs).
  { apply (read_alloc_new h (v :: vs)). }
  rewrite Hnew.
  rewrite read_write_same by (rewrite length_app; simpl; lia).
  rewrite read_write_other by lia.
  assert (Hold : read (h ++ [v :: vs]) values = read h values).
  { now apply (read_alloc_old h (v :: vs)). }
  now rewrite Hold, E.
Qed.

Lemma computeStats_preserves (h : store number) (values r : ref) :
  values < length h -> r < length h ->
  read (fst (computeStats Array_sort h values)) r = read h r.
Proof.
  intros Hv Hr. rewrite computeStats_unfold by assumption.
  destruct (read h values) as [|v vs] eqn:E; simpl; auto.
  rewrite read_write_other by lia.
  now apply (read_alloc_old h (v :: vs)).
Qed.

Lemma computeStats_nonempty (h : store number) (values : ref) :
  values < length h -> read h values <> [] ->
  snd (computeStats Array_sort h values) =
    Some (stats_of (read h values) (Array_sort comparator (read h values))).
Proof.
  intros Hv Hne. rewrite computeStats_unfold by assumption.
  destruct (read h values); [congruence | reflexivity].
Qed.

Lemma nth_error_at_index (xs : list number) (i : nat) :
  i < length xs -> nth_error xs i = Some (at_index xs i).
Proof. intros Hi. unfold at_index. now apply nth_error_nth'. Qed.

Lemma Array_sort_length (values : list number) :
  length (Array_sort comparator values) = length values.
Proof. apply Permutation_length, Array_sort_rearranges. Qed.

(** The least and the greatest element of an ascending array. *)
Lemma sorted_ends (sorted : list number) :
  sorted <> [] ->
  Forall (fun v => PrimFloat.is_nan v = false) sorted ->
  StronglySorted le sorted ->
  forall v, In v sorted ->
    le (at_index sorted 0) v /\ le v (at_index sorted (length sorted - 1)).
Proof.
  intros Hne Hn Hs v Hin. split.
  - destruct sorted as [|x rest]; [congruence|].
    unfold at_index. cbn [nth].
    inversion Hs as [|? ? _ Hall]; subst.
    inversion Hn as [|? ? Hx _]; subst.
    destruct Hin as [<-|Hin]; [now apply Num64.leb_refl|].
    rewrite Forall_forall in Hall. now apply Hall.
  - assert (Hlast : (length sorted - 1 < length sorted)%nat).
    { destruct sorted; [congruence | simpl; lia]. }
    pose proof (split_at sorted Hlast) as Hsplit.
    set (greatest := at_index sorted (length sorted - 1)) in *.
    replace (S (length sorted - 1)) with (length sorted) in Hsplit by lia.
    rewrite skipn_all in Hsplit.
    rewrite Hsplit in Hin, Hs.
    destruct (StronglySorted_app _ _ Hs) as [_ Hbelow].
    apply in_app_or in Hin. destruct Hin as [Hin|[<-|[]]].
    + rewrite Forall_forall in Hbelow. specialize (Hbelow v Hin).
      now inversion Hbelow.
    + apply Num64.leb_refl. rewrite Forall_forall in Hn. apply Hn.
      unfold at_index. now apply nth_In.
Qed.

(** The middle of an ascending array: as many elements before it as after
    it, none before it greater and none after it smaller. *)
Definition middle_of (sorted : list number) (median : number) : Prop :=
  exists lower upper,
    length lower = length upper
    /\ if Nat.even (length sorted)
       then exists a b,
              sorted = lower ++ [a; b] ++ upper
              /\ median = (a + b) / 2
              /\ le a b
              /\ Forall (fun v => le v a) lower
              /\ Forall (le b) upper
       else sorted = lower ++ [median] ++ upper
            /\ Forall (fun v => le v median) lower
            /\ Forall (le median) upper.

Lemma even_half (n : nat) :
  Nat.even n = true -> (0 < n)%nat ->
  (n = 2 * (n / 2) /\ 0 < n / 2)%nat.
Proof.
  intros He Hn. apply Nat.even_spec in He. destruct He as [k ->].
  rewrite (Nat.mul_comm 2 k), Nat.div_mul by lia. lia.
Qed.

Lemma odd_half (n : nat) :
  Nat.even n = false -> (n = 2 * ((n - 1) / 2) + 1)%nat.
Proof.
  intros Ho.
  assert (H : Nat.odd n = true) by (unfold Nat.odd; now rewrite Ho).
  apply Nat.odd_spec in H. destruct H as [k ->].
  replace (2 * k + 1 - 1)%nat with (k * 2)%nat by lia.
  rewrite Nat.div_mul by lia. lia.
Qed.

Lemma sorted_middle (sorted : list number) :
  sorted <> [] -> StronglySorted le sorted ->
  middle_of sorted
    (if Nat.even (length sorted)
     then (at_index sorted (length sorted / 2 - 1)
           + at_index sorted (length sorted / 2)) / 2
     else at_index sorted ((length sorted - 1) / 2)).
Proof.
  intros Hne Hs. set (n := length sorted).
  assert (Hn : (0 < n)%nat).
  { subst n. destruct sorted; [congruence | simpl; lia]. }
  unfold middle_of. fold n.
  destruct (Nat.even n) eqn:He.
  - destruct (@even_half n He Hn) as [Hk Hk0].
    set (k := (n / 2)%nat) in *.
    assert (H1 : (k - 1 < length sorted)%nat) by (fold n; lia).
    pose proof (split_at sorted H1) as Hsplit.
    replace (S (k - 1)) with k in Hsplit by lia.
    assert (H2 : (0 < length (skipn k sorted))%nat)
      by (rewrite length_skipn; fold n; lia).
    pose proof (split_at (skipn k sorted) H2) as Hrest.
    cbn [firstn app] in Hrest.
    assert (Hb : at_index (skipn k sorted) 0 = at_index sorted k).
    { unfold at_index. rewrite nth_skipn. f_equal. lia. }
    rewrite Hb, skipn_skipn in Hrest. rewrite Hrest in Hsplit.
    exists (firstn (k - 1) sorted), (skipn (1 + k) sorted).
    split.
    { rewrite length_firstn, length_skipn. fold n. lia. }
    exists (at_index sorted (k - 1)), (at_index sorted k).
    split; [exact Hsplit|]. split; [reflexivity|].
    rewrite Hsplit in Hs.
    destruct (StronglySorted_app _ _ Hs) as [Htail Hbelow].
    inversion Htail as [|? ? Htail' Ha]; subst.
    inversion Htail' as [|? ? _ Hbs]; subst.
    inversion Ha as [|? ? Hab _]; subst.
    repeat split; auto.
    eapply Forall_impl; [|exact Hbelow].
    intros v Hv. now inversion Hv.
  - pose proof (@odd_half n He) as Hk.
    set (k := ((n - 1) / 2)%nat) in *.
    assert (H1 : (k < length sorted)%nat) by (fold n; lia).
    pose proof (split_at sorted H1) as Hsplit.
    exists (firstn k sorted), (skipn (S k) sorted).
    split.
    { rewrite length_firstn, length_skipn. fold n. lia. }
    split; [exact Hsplit|].
    rewrite Hsplit in Hs.
    destruct (StronglySorted_app _ _ Hs) as [Htail Hbelow].
    inversion Htail as [|? ? _ Ha]; subst.
    split; auto.
    eapply Forall_impl; [|exact Hbelow].
    intros v Hv. now inversion Hv.
Qed.

(** C5. [computeStats] returns null on an empty array and never writes to
    an array it was given.  On a non-empty array of length N it returns the
    count N, the mean (sum over N) and the square root of the summed
    squared deviations over N (population standard deviation); the
    minimum, the maximum and the median are read off a sorted copy, a
    rearrangement of the input: its first element, its last element, and
    its middle element for odd N or the average of its two middle
    elements for even N.  When no element is NaN the copy is in ascending
    order, so the minimum is an element no other is below, the maximum an
    element no other is above, and the median has as many elements before
    it as after it, none before it greater and none after it smaller.
    [computeStats([5])] is
    [{mean:5, median:5, min:5, max:5, stddev:0, count:1}], and
    [computeStats([1,2,3,4])] has mean 2.5, median 2.5 and standard
    deviation 1.118033988749895. *)
Theorem computeStats_spec (h : store number) (values : ref) :
  values < length h ->
  let vs := read h values in
  let sorted := Array_sort comparator vs in
  let n := length vs in
  (forall r, r < length h ->
     read (fst (computeStats Array_sort h values)) r = read h r)
  /\ (vs = [] -> snd (computeStats Array_sort h values) = None)
  /\ (vs <> [] ->
      exists s, snd (computeStats Array_sort h values) = Some s
        /\ count s = n
        /\ mean s = sum vs / of_nat n
        /\ stddev s =
             PrimFloat.sqrt
               (fold_left (fun acc v => acc + (v - mean s) * (v - mean s)) vs 0
                / of_nat n)
        /\ Permutation sorted vs
        /\ nth_error sorted 0 = Some (min s)
        /\ nth_error sorted (n - 1) = Some (max s)
        /\ (Nat.even n = true ->
            exists a b, nth_error sorted (n / 2 - 1) = Some a
              /\ nth_error sorted (n / 2) = Some b
              /\ median s = (a + b) / 2)
        /\ (Nat.even n = false ->
            nth_error sorted ((n - 1) / 2) = Some (median s))
        /\ (no_nan vs = true ->
            Sorted le sorted
            /\ In (min s) vs
            /\ In (max s) vs
            /\ (forall v, In v vs -> le (min s) v /\ le v (max s))
            /\ middle_of sorted (median s)))
  /\ computeStats_of Array_sort [5] = Some (mkStats 5 5 5 5 0 1)
  /\ (exists s, computeStats_of Array_sort [1; 2; 3; 4] = Some s
        /\ mean s = 2.5 /\ median s = 2.5 /\ min s = 1 /\ max s = 4
        /\ count s = 4%nat
        /\ stddev s = 0x1.1e3779b97f4a8p+0
        /\ (1.118 <? stddev s) && (stddev s <? 1.1181) = true).
Proof.
  intros Hv vs sorted n.
  split; [intros r Hr; now apply computeStats_preserves|].
  split.
  { intros E. rewrite computeStats_unfold by assumption.
    fold vs. now rewrite E. }
  split.
  { intros Hne.
    assert (Hlen : length sorted = n) by apply Array_sort_length.
    assert (Hn : (0 < n)%nat).
    { unfold n. destruct vs; [congruence | simpl; lia]. }
    assert (Hperm : Permutation sorted vs) by apply Array_sort_rearranges.
    exists (stats_of vs sorted).
    split; [now apply computeStats_nonempty|].
    unfold stats_of. cbn [count mean median min max stddev].
    rewrite !Hlen. fold n.
    split; [reflexivity|]. split; [reflexivity|]. split; [reflexivity|].
    split; [exact Hperm|].
    split; [apply nth_error_at_index; lia|].
    split; [apply nth_error_at_index; lia|].
    split.
    { intros He. rewrite He.
      assert (Hlt : (n / 2 < n)%nat) by (apply Nat.div_lt; lia).
      exists (at_index sorted (n / 2 - 1)), (at_index sorted (n / 2)).
      repeat split; apply nth_error_at_index; lia. }
    split.
    { intros Ho. rewrite Ho. apply nth_error_at_index.
      assert (((n - 1) / 2 <= n - 1)%nat)
        by (apply Nat.Div0.div_le_upper_bound; lia).
      lia. }
    intros Hnan.
    assert (Hsorted : StronglySorted le sorted).
    { unfold sorted. rewrite Array_sort_numbers by assumption.
      now apply sort_strongly_sorted. }
    assert (Hnonempty : sorted <> []).
    { intros E. rewrite E in Hlen. simpl in Hlen. lia. }
    assert (Hnumbers : Forall (fun v => PrimFloat.is_nan v = false) sorted).
    { eapply Permutation_Forall; [apply Permutation_sym, Hperm|].
      now apply no_nan_Forall. }
    assert (Hfirst : In (at_index sorted 0) sorted).
    { unfold at_index. apply nth_In. lia. }
    assert (Hlast : In (at_index sorted (n - 1)) sorted).
    { unfold at_index. apply nth_In. lia. }
    split; [now apply StronglySorted_Sorted|].
    split; [eapply Permutation_in; eauto|].
    split; [eapply Permutation_in; eauto|].
    split.
    { intros v Hin. rewrite <- Hlen.
      apply sorted_ends; auto.
      eapply Permutation_in; [apply Permutation_sym, Hperm | exact Hin]. }
    pose proof (sorted_middle Hnonempty Hsorted) as Hmid.
    rewrite Hlen in Hmid. exact Hmid. }
  unfold computeStats_of, computeStats, alloc. cbn [read nth length app].
  split.
  { rewrite Array_sort_numbers by reflexivity. vm_compute. reflexivity. }
  rewrite Array_sort_numbers by reflexivity.
  eexists. split; [vm_compute; reflexivity|].
  repeat split; vm_compute; reflexivity.
Qed.

End SortedCopy.

Lemma computeStats_spec_witness :
  (0 < length [[4; 1; 3; 2]])%nat
  /\ read (fst (computeStats sort [[4; 1; 3; 2]] 0%nat)) 0%nat = [4; 1; 3; 2]
  /\ (exists s, snd (computeStats sort [[4; 1; 3; 2]] 0%nat) = Some s
        /\ min s = 1 /\ max s = 4 /\ median s = 2.5).
Proof.
  assert (H : (0 < length [[4; 1; 3; 2]])%nat) by (simpl; lia).
  destruct (@computeStats_spec sort (fun values => sort_perm comparator values)
              (fun values _ => eq_refl) [[4; 1; 3; 2]] 0%nat H)
    as (Hkeep & _ & _ & _).
  split; [exact H|]. split; [apply (Hkeep 0%nat H)|].
  eexists. split; [reflexivity|]. repeat split.
Defined.

(** ** [extractNumericValues] keeps every number but NaN *)

Lemma extractNumericValues_not_nan_column rows key :
  extractNumericValues rows key = not_nan_column rows key.
Proof.
  unfold extractNumericValues, not_nan_column.
  induction rows as [|row rows IH]; simpl; auto.
  destruct (get row key) as [| | |x| | |]; simpl; auto.
  destruct (PrimFloat.is_nan x); simpl; now rewrite IH.
Qed.

Lemma not_nan_column_in rows key x :
  In x (not_nan_column rows key) <->
  exists row, In row rows /\ get row key = Num x /\ PrimFloat.is_nan x = false.
Proof.
  unfold not_nan_column. rewrite in_flat_map. split.
  - intros (row & Hin & Hx). exists row. split; auto.
    destruct (get row key) as [| | |y| | |]; simpl in Hx; try tauto.
    destruct (PrimFloat.is_nan y) eqn:E; simpl in Hx; try tauto.
    destruct Hx as [<-|[]]. auto.
  - intros (row & Hin & Hg & Hn). exists row. split; auto.
    rewrite Hg, Hn. now left.
Qed.

Lemma not_nan_column_length rows key :
  (length (not_nan_column rows key) <= length rows)%nat.
Proof.
  unfold not_nan_column. induction rows as [|row rows IH]; simpl; auto.
  rewrite length_app.
  destruct (get row key) as [| | |y| | |]; simpl; try lia.
  destruct (PrimFloat.is_nan y); simpl; lia.
Qed.

(** The claim as the specification words it fails on an infinite cell:
    [Infinity] is a number and is not NaN, so it is kept, yet it is not
    finite. *)
Lemma extractNumericValues_keeps_infinity :
  extractNumericValues [[("temperature", Num infinity)]] "temperature"
    = [infinity]
  /\ finite_column [[("temperature", Num infinity)]] "temperature" = []
  /\ extractNumericValues [[("temperature", Num infinity)]] "temperature"
     <> finite_column [[("temperature", Num infinity)]] "temperature".
Proof. repeat split. vm_compute. discriminate. Qed.

(** C8 (amended). For every row sequence and column key,
    [extractNumericValues] returns exactly the values of that column that
    are numbers other than NaN, in row order (infinite values are kept);
    cells that are missing, not numbers or NaN are dropped and the call
    always returns.  When no cell of the column is infinite the result is
    exactly the finite numeric values of the column. *)
Theorem extractNumericValues_spec (rows : list record) (key : string) :
  extractNumericValues rows key = not_nan_column rows key
  /\ (forall x, In x (extractNumericValues rows key) <->
        exists row, In row rows /\ get row key = Num x
                    /\ PrimFloat.is_nan x = false)
  /\ (length (extractNumericValues rows key) <= length rows)%nat
  /\ ((forall row x, In row rows -> get row key = Num x ->
         PrimFloat.is_infinity x = false) ->
      extractNumericValues rows key = finite_column rows key).
Proof.
  rewrite extractNumericValues_not_nan_column.
  split; [reflexivity|].
  split; [apply not_nan_column_in|].
  split; [apply not_nan_column_length|].
  intros Hfin. unfold not_nan_column, finite_column.
  induction rows as [|row rows IH]; simpl; auto.
  rewrite IH by (intros r x Hin; apply Hfin; now right).
  f_equal.
  destruct (get row key) as [| | |x| | |] eqn:E; auto.
  unfold PrimFloat.is_finite.
  rewrite (Hfin row x (or_introl eq_refl) E).
  now destruct (PrimFloat.is_nan x).
Qed.

Lemma extractNumericValues_spec_witness :
  extractNumericValues
    [[("temperature", Num 2.5)]; [("temperature", Num nan)];
     [("salinity", Num 35)]; [("temperature", Str "warm")];
     [("temperature", Num 4)]] "temperature"
  = finite_column
    [[("temperature", Num 2.5)]; [("temperature", Num nan)];
     [("salinity", Num 35)]; [("temperature", Str "warm")];
     [("temperature", Num 4)]] "temperature".
Proof.
  apply extractNumericValues_spec.
  intros row x Hin Hx. simpl in Hin.
  repeat (destruct Hin as [<-|Hin]; [vm_compute in Hx; inversion Hx;
                                     try subst x; reflexivity|]).
  destruct Hin.
Defined.

(** ** The expert-mode filter pipeline [filteredData] *)

Inductive PersonaMode : Type := guided | expert.

Inductive FocusMetric : Type :=
  temperature | salinity | pressure | oxygen | density.

(** [depthRange?: [number | null, number | null]]. *)
Record ExpertFilters : Type := mkFilters {
  focusMetric : FocusMetric;
  floatId : option string;
  depthRange : option (option number * option number)
}.

(** ** The writers of the filters

    The filters are a state of [App], created as
    [{ focusMetric: "temperature" }] and rewritten only by the updates
    below. *)


(** [handleFloatChange(value)], as the update of the filters. *)
Definition handleFloatChange (value : string) (prev : ExpertFilters)
  : ExpertFilters :=
  mkFilters (focusMetric prev)
    (if String.eqb value "all" then None else Some value)
    (depthRange prev).

(** [handleDepthChange(value)], as the update of the filters;
    [depthBounds] is the pair [(min, max)] or null. *)
Definition handleDepthChange (depthBounds : option (number * number))
  (value : list number) (prev : ExpertFilters) : ExpertFilters :=
  match depthBounds, value with
  | Some _, [lower; upper] =>
      mkFilters (focusMetric prev) (floatId prev)
        (Some (Some lower, Some upper))
  | _, _ => prev
  end.

(** The click handler of the Reset button of the depth window,
    [updateFilters({ depthRange: [depthBounds.min, depthBounds.max] })]. *)
Definition resetDepth (depthBounds : number * number) (prev : ExpertFilters)
  : ExpertFilters :=
  mkFilters (focusMetric prev) (floatId prev)
    (Some (Some (fst depthBounds), Some (snd depthBounds))).

(** [updateFilters({ focusMetric: value })] of the metric selector, and the
    [focus-...] commands of the palette. *)
Definition setFocusMetric (value : FocusMetric) (prev : ExpertFilters)
  : ExpertFilters :=
  mkFilters value (floatId prev) (depthRange prev).







Section Filters.
Variable Number_toString : number -> string.

(** The row test of the depth filter. *)
Definition in_depth_range (minDepth maxDepth : option number) (row : record)
  : bool :=
  match get row "pressure" with
  | Num depth =>
      if PrimFloat.is_nan depth then false
      else if match minDepth with
              | Some lo => depth <? lo
              | None => false
              end then false
      else if match maxDepth with
              | Some hi => hi <? depth
              | None => false
              end then false
      else true
  | _ => false
  end.

(** The row test of the entity filter, [String(row.float_id) === id]. *)
Definition is_float (id : string) (row : record) : bool :=
  String.eqb (to_string Number_toString (get row "float_id")) id.

(** [filteredData], on arrays of rows in a store.  [[...data]] and every
    [.filter] allocate a new array; outside expert mode the input array
    itself is returned. *)
Definition filteredData (h : store record) (mode : PersonaMode) (data : ref)
  (filters : ExpertFilters) : store record * ref :=
  match mode with
  | guided => (h, data)
  | expert =>
      let (h1, next) := alloc h (read h data) in
      let (h2, next) :=
        match floatId filters with
        | Some id =>
            if truthy (Str id)
            then alloc h1 (filter (is_float id) (read h1 next))
            else (h1, next)
        | None => (h1, next)
        end in
      match depthRange filters with
      | Some (Some minDepth, maxDepth) =>
          alloc h2 (filter (in_depth_range (Some minDepth) maxDepth)
                      (read h2 next))
      | _ => (h2, next)
      end
  end.

(** The rows [filteredData] yields. *)
Definition filtered_rows (h : store record) (mode : PersonaMode) (data : ref)
  (filters : ExpertFilters) : list record :=
  let (h', out) := filteredData h mode data filters in read h' out.


(** What the code computes on the rows, read off the store. *)
Definition code_pipeline (rows : list record) (filters : ExpertFilters)
  : list record :=
  let by_id :=
    match floatId filters with
    | Some id => if truthy (Str id) then filter (is_float id) rows else rows
    | None => rows
    end in
  match depthRange filters with
  | Some (Some lo, hi) => filter (in_depth_range (Some lo) hi) by_id
  | _ => by_id
  end.

Lemma read_app_last (A : Type) (h : store A) (xs : list A) :
  read (h ++ [xs]) (length h) = xs.
Proof. apply (read_alloc_new h xs). Qed.


Lemma filtered_rows_expert h data filters :
  filtered_rows h expert data filters = code_pipeline (read h data) filters.
Proof.
  unfold filtered_rows, filteredData, code_pipeline, alloc.
  destruct filters as [focus [id|] range]; cbn [floatId depthRange];
    [destruct (truthy (Str id))|];
    destruct range as [[[lo|] hi]|]; cbv beta iota zeta;
    rewrite ?read_app_last; reflexivity.
Qed.

Lemma filtered_rows_guided h data filters :
  filtered_rows h guided data filters = read h data.
Proof. reflexivity. Qed.


(** The two filters compose by conjunction. *)
Lemma filter_filter (A : Type) (p q : A -> bool) (l : list A) :
  filter q (filter p l) = filter (fun x => p x && q x) l.
Proof.
  induction l as [|x l IH]; simpl; auto.
  destruct (p x); simpl; [destruct (q x)|]; now rewrite IH.
Qed.


(** With both filters set, the rows kept are those that pass the entity
    test and the range test. *)
Lemma filteredData_conjunction h data focus id lo hi :
  truthy (Str id) = true ->
  filtered_rows h expert data (mkFilters focus (Some id) (Some (Some lo, hi)))
  = filter (fun row => is_float id row && in_depth_range (Some lo) hi row)
      (read h data).
Proof.
  intros Ht. rewrite filtered_rows_expert. unfold code_pipeline.
  cbn [floatId depthRange]. rewrite Ht. apply filter_filter.
Qed.

(** Swapped bounds throw nothing: rows at 50 and 500 dbar against the
    range [[400, 100]] leave an empty array. *)
Lemma filteredData_swapped_bounds :
  filtered_rows [[[("pressure", Num 50)]; [("pressure", Num 500)]]] expert
    0%nat (mkFilters pressure None (Some (Some 400, Some 100)))
  = [].
Proof. reflexivity. Qed.


(** A range with a null lower bound, which no update writes, would skip
    the depth filter altogether, upper bound included. *)
Lemma filteredData_null_lower_bound (h : store record) (data : ref)
  (focus : FocusMetric) (id : option string) (hi : option number) :
  filtered_rows h expert data (mkFilters focus id (Some (None, hi)))
  = filtered_rows h expert data (mkFilters focus id None).
Proof. rewrite !filtered_rows_expert. reflexivity. Qed.






End Filters.


End DataVisualization.


(* ------------------------------------------------------------------ *)
(** * services/api.ts: the fetch client and its shared contracts *)

Module Api.
Import Js.
Local Open Scope float_scope.

(** ** Shared API contracts *)

Module BackendAssistantMessage.
Record t : Type := mk {
  role : string;
  content : value;
  type : option string;
  title : option string;
  metadata : value
}.
End BackendAssistantMessage.

(** [result_data: Record<string, any>[] | string | null].  The body of a
    response is parsed and cast, never checked, so the elements of an array
    result are whatever values the JSON text holds. *)
Inductive ResultData : Type :=
| Rows (rows : list value)
| Text (text : string)
| NoData.

Module AIResponse.
Record t : Type := mk {
  sql_query : option string;
  result_data : ResultData;
  messages : option (list (option BackendAssistantMessage.t));
  metadata : value;
  error : option string
}.
End AIResponse.

Module ArgoFloat.
Record t : Type := mk {
  id : string;
  lat : number;
  lon : number;
  last_contact : string;
  temperature : option number;
  salinity : option number;
  trajectory : option (list (number * number));
  status : string
}.
End ArgoFloat.

Module ArgoProfile.
Record t : Type := mk {
  depth : list number;
  values : list number;
  quality_flags : list value;
  metadata : option record
}.
End ArgoProfile.

Module TimeSeriesPoint.
Record t : Type := mk {
  timestamp : string;
  temperature : option number;
  salinity : option number;
  oxygen : option number;
  pressure : option number
}.
End TimeSeriesPoint.

Module TimeSeriesResponse.
Record t : Type := mk {
  data : list TimeSeriesPoint.t;
  sqlQuery : option string
}.
End TimeSeriesResponse.

Module DataQualityReport.
Record t : Type := mk {
  metric : string;
  value : number;
  unit : option string;
  flag : option string;
  description : option string
}.
End DataQualityReport.

Module TrajectoryPoint.
Record t : Type := mk {
  lat : number;
  lon : number;
  timestamp : string;
  temperature : option number;
  salinity : option number;
  pressure : option number
}.
End TrajectoryPoint.

Module DatabaseStats.
Record t : Type := mk {
  total_floats : number;
  last_updated : option string;
  dataset : option string
}.
End DatabaseStats.

Inductive DataSource : Type := live | sample.

Module ArgoFloatsResult.
Record t : Type := mk {
  data : list ArgoFloat.t;
  source : DataSource
}.
End ArgoFloatsResult.

(** ** The network

    What one [fetch] call comes to: the request fails in transport, or a
    response arrives with a status and a body that parses as JSON or does
    not.  The parsed body is taken at the type the caller casts it to. *)
Inductive FetchOutcome (T : Type) : Type :=
| NetworkFailure
| HttpResponse (status : Z) (json : option T).
Arguments NetworkFailure {T}.
Arguments HttpResponse {T} status json.

(** [response.ok]. *)
Definition ok (status : Z) : bool := ((200 <=? status) && (status <=? 299))%Z.

(** [fetchJson<T>(path, init)], given what the request comes to. *)
Definition fetchJson (T : Type) (reply : FetchOutcome T) : completion T :=
  match reply with
  | NetworkFailure => Throw (TypeError "Failed to fetch")
  | HttpResponse status json =>
      if ok status
      then match json with
           | Some body => Normal body
           | None => Throw SyntaxError
           end
      else Throw (HttpError status)
  end.

(** A failing fetch: a network error, a status outside 2xx, or a body that
    does not parse. *)
Definition failing (T : Type) (reply : FetchOutcome T) : bool :=
  match reply with
  | NetworkFailure => true
  | HttpResponse status json =>
      negb (ok status) || match json with Some _ => false | None => true end
  end.

(** ** Sample data *)

Definition SAMPLE_FLOATS : list ArgoFloat.t := [
  ArgoFloat.mk "5905612" (-33.500) 151.300 "2025-11-20T12:00:00Z"
    (Some 15.4) (Some 35.1)
    (Some [(-33.50, 151.30); (-33.45, 151.32); (-33.40, 151.35)]) "active";
  ArgoFloat.mk "5905613" (-12.100) 145.200 "2025-11-15T09:00:00Z"
    (Some 12.9) (Some 34.7)
    (Some [(-12.10, 145.20); (-12.06, 145.28); (-12.00, 145.35)]) "active";
  ArgoFloat.mk "5905614" 2.500 (-150.800) "2025-10-05T18:00:00Z"
    (Some 10.2) (Some 34.9)
    (Some [(2.50, -150.80); (2.55, -150.70); (2.60, -150.60)]) "delayed";
  ArgoFloat.mk "3901774" 46.500 (-17.800) "2025-11-10T04:00:00Z"
    (Some 9.1) (Some 35.4)
    (Some [(46.45, -17.90); (46.50, -17.80); (46.60, -17.65)]) "active";
  ArgoFloat.mk "2902273" 14.200 (-38.600) "2025-11-18T07:00:00Z"
    (Some 20.3) (Some 36.1)
    (Some [(14.10, -38.70); (14.20, -38.60); (14.25, -38.55)]) "active";
  ArgoFloat.mk "3901621" (-47.800) 12.400 "2025-09-29T10:00:00Z"
    (Some 6.4) (Some 34.6)
    (Some [(-47.90, 12.30); (-47.82, 12.38); (-47.75, 12.50)]) "inactive"
].

(** The units label of the sample profile, byte for byte as the source
    file spells it: U+00C2, U+00B0 and the letter C. *)
Definition SAMPLE_UNITS : string :=
  String (ascii_of_nat 195) (String (ascii_of_nat 130)
    (String (ascii_of_nat 194) (String (ascii_of_nat 176) "C"))).

Definition SAMPLE_PROFILE : ArgoProfile.t :=
  ArgoProfile.mk
    [0; 200; 500; 1000]
    [20.2; 15.1; 8.3; 4.2]
    [Num 1; Num 1; Num 1; Num 2]
    (Some [("variable", Str "temperature"); ("units", Str SAMPLE_UNITS)]).

Definition SAMPLE_QUALITY : list DataQualityReport.t := [
  DataQualityReport.mk "temperature_qc" 1 (Some "qc") (Some "A")
    (Some "All temperature readings passed Argo delayed-mode quality checks.");
  DataQualityReport.mk "salinity_qc" 1 (Some "qc") (Some "A")
    (Some "Salinity aligns with climatology within acceptable tolerances.");
  DataQualityReport.mk "profile_completeness" 0.94 (Some "ratio") None
    (Some "94% of expected depth levels reported for the latest cycle.")
].

(** ** The client [floatAIAPI]

    Each method takes what its one network request comes to.  The host
    supplies [Math.sin] and the local-time calendar used by
    [Date.prototype.setDate]. *)
Section Client.
Variable Math_sin : number -> number.

(** [d.setDate(d.getDate() + days)] on a date with time value [t]: the time
    value of the local calendar day [days] later. *)
Variable setDate_plus : Z -> Z -> Z.

(** [new Date("2024-01-01T00:00:00Z")]. *)
Definition SAMPLE_BASE_DATE : Z := 1704067200000.

(** One point of the sample series.  Its date lies in the first weeks of
    2024, a valid date, so its ISO rendering is a string. *)
Definition sample_time_series_point (index : nat) : TimeSeriesPoint.t :=
  TimeSeriesPoint.mk
    (iso_string (setDate_plus SAMPLE_BASE_DATE (Z.of_nat index * 7)))
    (Some (18 - of_nat index * 0.3))
    (Some (35 + Math_sin (of_nat index / 2) * 0.2))
    None
    (Some (1013 + of_nat index * 2)).

(** [SAMPLE_TIME_SERIES], built once when the module loads. *)
Definition SAMPLE_TIME_SERIES : TimeSeriesResponse.t :=
  TimeSeriesResponse.mk (map sample_time_series_point (seq 0 12))
    (Some "SELECT * FROM argo_profiles WHERE float_id = 'float_2903953' ORDER BY profile_date DESC LIMIT 12;").

Definition getDatabaseStats (reply : FetchOutcome DatabaseStats.t)
  : completion DatabaseStats.t :=
  try_catch (fetchJson reply)
    (fun _ =>
       Normal (DatabaseStats.mk (of_nat (length SAMPLE_FLOATS)) None
                 (Some "Sample dataset"))).

Definition getArgoFloats (reply : FetchOutcome (list ArgoFloat.t))
  : completion ArgoFloatsResult.t :=
  try_catch
    (bind (fetchJson reply) (fun data =>
       Normal (ArgoFloatsResult.mk data live)))
    (fun _ => Normal (ArgoFloatsResult.mk SAMPLE_FLOATS sample)).

Definition getFloatProfile (reply : FetchOutcome ArgoProfile.t)
  : completion ArgoProfile.t :=
  try_catch (fetchJson reply) (fun _ => Normal SAMPLE_PROFILE).

Definition getTimeSeriesData (reply : FetchOutcome TimeSeriesResponse.t)
  : completion TimeSeriesResponse.t :=
  try_catch (fetchJson reply) (fun _ => Normal SAMPLE_TIME_SERIES).

Definition getDataQuality (reply : FetchOutcome (list DataQualityReport.t))
  : completion (list DataQualityReport.t) :=
  try_catch (fetchJson reply) (fun _ => Normal SAMPLE_QUALITY).

(** One point of the synthetic trajectory, [now] being [Date.now()]. *)
Definition synthetic_point (now limit : Z) (index : nat)
  : completion TrajectoryPoint.t :=
  bind (toISOString (now - (limit - Z.of_nat index) * 86400000))
    (fun stamp =>
       Normal (TrajectoryPoint.mk
                 (40.7 + of_nat index * 0.02)
                 (-74 + of_nat index * 0.015)
                 stamp
                 (Some (18.5 - of_nat index * 0.1))
                 (Some (35.2 - of_nat index * 0.02))
                 (Some (1000 + of_nat index * 5)))).

(** [getFloatTrajectory(floatId, limit = 50)]; [limit] is an integer count
    and [now] the clock reading taken in the catch block. *)
Definition getFloatTrajectory (reply : FetchOutcome (list TrajectoryPoint.t))
  (now limit : Z) : completion (list TrajectoryPoint.t) :=
  try_catch (fetchJson reply)
    (fun _ =>
       array_from (Z.to_nat (Z.min limit 10)) (synthetic_point now limit)).

(** [askAI(question)]: every failure is turned into an error payload. *)
Definition askAI (reply : FetchOutcome AIResponse.t) : AIResponse.t :=
  match fetchJson reply with
  | Normal payload => payload
  | Throw _ =>
      AIResponse.mk (Some "Error connecting to backend.") NoData None
        Undefined
        (Some "Could not connect to the AI server. Is it running?")
  end.

End Client.

End Api.


(* ------------------------------------------------------------------ *)
(** * frontend/src/services/api.ts: the second copy of the client

    This copy shares its contracts, [fetchJson], the sample profile, time
    series and quality report, and the profile, time-series, quality and
    trajectory methods with [Api] word for word.  It differs in the sample
    fleet and in the catalog method, which returns the bare array. *)

Module ApiFrontend.
Import Js Api.
Local Open Scope float_scope.

Definition SAMPLE_FLOATS : list ArgoFloat.t := [
  ArgoFloat.mk "float_2903953" 40.7128 (-74.006) "2024-01-15T00:00:00Z"
    (Some 18.5) (Some 35.2) (Some [(40.7, -74.0); (40.8, -73.9)]) "active";
  ArgoFloat.mk "float_4903838" 35.6762 139.6503 "2024-01-14T00:00:00Z"
    (Some 22.1) (Some 34.8) (Some [(35.6, 139.7); (35.7, 139.8)]) "active";
  ArgoFloat.mk "float_7901125" (-33.9249) 18.4241 "2024-01-13T00:00:00Z"
    (Some 16.3) (Some 35.0) (Some [(-33.9, 18.4); (-33.8, 18.5)]) "delayed"
].

Definition SAMPLE_PROFILE : ArgoProfile.t := Api.SAMPLE_PROFILE.

Definition getDatabaseStats (reply : FetchOutcome DatabaseStats.t)
  : completion DatabaseStats.t :=
  try_catch (fetchJson reply)
    (fun _ =>
       Normal (DatabaseStats.mk (of_nat (length SAMPLE_FLOATS)) None
                 (Some "Sample dataset"))).

Definition getArgoFloats (reply : FetchOutcome (list ArgoFloat.t))
  : completion (list ArgoFloat.t) :=
  try_catch (fetchJson reply) (fun _ => Normal SAMPLE_FLOATS).

Definition getFloatProfile (reply : FetchOutcome ArgoProfile.t)
  : completion ArgoProfile.t :=
  try_catch (fetchJson reply) (fun _ => Normal SAMPLE_PROFILE).

End ApiFrontend.


(* ------------------------------------------------------------------ *)
(** * The fetch client under failure *)

Module FetchClient.
Import Js Api.
Local Open Scope float_scope.

Lemma failing_throws (T : Type) (reply : FetchOutcome T) :
  failing reply = true <-> exists e, fetchJson reply = Throw e.
Proof.
  destruct reply as [|status [body|]]; simpl.
  - split; eauto.
  - destruct (ok status); simpl; split; eauto; try discriminate.
    intros [e He]. discriminate.
  - destruct (ok status); simpl; split; eauto.
Qed.

Lemma try_catch_failing (T : Type) (reply : FetchOutcome T)
  (handler : error -> completion T) (fallback : completion T) :
  failing reply = true -> (forall e, handler e = fallback) ->
  try_catch (fetchJson reply) handler = fallback.
Proof.
  intros Hf Hh. apply failing_throws in Hf. destruct Hf as [e ->].
  apply Hh.
Qed.

Lemma array_from_at_total (A : Type) (f : nat -> completion A) (g : nat -> A)
  (count start : nat) :
  (forall i, (start <= i < start + count)%nat -> f i = Normal (g i)) ->
  array_from_at start count f = Normal (map g (seq start count)).
Proof.
  revert start. induction count as [|count IH]; intros start Hf; simpl; auto.
  rewrite Hf by lia. simpl.
  rewrite IH by (intros i Hi; apply Hf; lia). reflexivity.
Qed.

(** The point the synthetic trajectory holds at [index]. *)
Definition expected_point (now limit : Z) (index : nat) : TrajectoryPoint.t :=
  TrajectoryPoint.mk
    (40.7 + of_nat index * 0.02)
    (-74 + of_nat index * 0.015)
    (iso_string (now - (limit - Z.of_nat index) * 86400000))
    (Some (18.5 - of_nat index * 0.1))
    (Some (35.2 - of_nat index * 0.02))
    (Some (1000 + of_nat index * 5)).

Lemma synthetic_point_valid (now limit : Z) (index : nat) :
  (0 <= now <= max_time_value)%Z -> (0 <= limit <= 100000000)%Z ->
  (Z.of_nat index <= limit)%Z ->
  synthetic_point now limit index = Normal (expected_point now limit index).
Proof.
  intros Hnow Hlimit Hindex. unfold synthetic_point, toISOString.
  assert (Hin : (Z.abs (now - (limit - Z.of_nat index) * 86400000)
                 >? max_time_value)%Z = false).
  { unfold max_time_value in *. rewrite Z.gtb_ltb. apply Z.ltb_ge. lia. }
  rewrite Hin. reflexivity.
Qed.

Lemma getFloatTrajectory_fallback (reply : FetchOutcome (list TrajectoryPoint.t))
  (now limit : Z) :
  failing reply = true ->
  (0 <= now <= max_time_value)%Z -> (0 <= limit <= 100000000)%Z ->
  getFloatTrajectory reply now limit =
    Normal (map (expected_point now limit)
              (seq 0 (Z.to_nat (Z.min limit 10)))).
Proof.
  intros Hf Hnow Hlimit. unfold getFloatTrajectory.
  apply try_catch_failing; auto. intros _. unfold array_from.
  apply array_from_at_total. intros i Hi.
  apply synthetic_point_valid; auto. lia.
Qed.

(** The claim as the specification words it fails for the trajectory
    method: its fallback is synthesized from the clock and from [limit].
    Two failing calls a day apart return different values, so no fixed
    value is the fallback. *)
Lemma getFloatTrajectory_fallback_varies :
  getFloatTrajectory NetworkFailure 1700000000000 1
    = Normal [TrajectoryPoint.mk 40.7 (-74) "2023-11-13T22:13:20.000Z"
                (Some 18.5) (Some 35.2) (Some 1000)]
  /\ getFloatTrajectory NetworkFailure 1700086400000 1
    = Normal [TrajectoryPoint.mk 40.7 (-74) "2023-11-14T22:13:20.000Z"
                (Some 18.5) (Some 35.2) (Some 1000)]
  /\ ~ (exists fallback : list TrajectoryPoint.t,
          forall reply now limit, failing reply = true ->
            getFloatTrajectory reply now limit = Normal fallback).
Proof.
  split; [vm_compute; reflexivity|]. split; [vm_compute; reflexivity|].
  intros [fallback H].
  pose proof (H NetworkFailure 1700000000000%Z 1%Z eq_refl) as H1.
  pose proof (H NetworkFailure 1700086400000%Z 1%Z eq_refl) as H2.
  rewrite <- H2 in H1. vm_compute in H1. discriminate.
Qed.

(** An out-of-range day count makes the fallback itself throw. *)
Lemma getFloatTrajectory_fallback_range_error :
  getFloatTrajectory NetworkFailure 1700000000000 1000000000
    = Throw RangeError.
Proof. vm_compute. reflexivity. Qed.

(** C1 (amended). When its fetch fails (network error, status outside 2xx,
    or a body that does not parse), each of the catalog, stats, profile,
    time-series and quality methods returns normally with its fixed sample
    value, in both copies of the client.  The trajectory method returns a
    synthetic path instead: [min(limit, 10)] points whose coordinates and
    readings are fixed functions of the index and whose timestamps are
    counted back from the clock, one day per step, starting [limit] days
    ago; it returns normally for a clock reading within the valid date
    range and a day count of at most 10^8. *)
Theorem floatAIAPI_fallbacks
  (Math_sin : number -> number) (setDate_plus : Z -> Z -> Z) :
  (forall reply, failing reply = true ->
     getDatabaseStats reply
       = Normal (DatabaseStats.mk 6 None (Some "Sample dataset"))
     /\ ApiFrontend.getDatabaseStats reply
       = Normal (DatabaseStats.mk 3 None (Some "Sample dataset")))
  /\ (forall reply, failing reply = true ->
     getArgoFloats reply = Normal (ArgoFloatsResult.mk SAMPLE_FLOATS sample)
     /\ ApiFrontend.getArgoFloats reply = Normal ApiFrontend.SAMPLE_FLOATS)
  /\ (forall reply, failing reply = true ->
     getFloatProfile reply = Normal SAMPLE_PROFILE
     /\ ApiFrontend.getFloatProfile reply = Normal SAMPLE_PROFILE)
  /\ (forall reply, failing reply = true ->
     getTimeSeriesData Math_sin setDate_plus reply
       = Normal (SAMPLE_TIME_SERIES Math_sin setDate_plus))
  /\ (forall reply, failing reply = true ->
     getDataQuality reply = Normal SAMPLE_QUALITY)
  /\ (forall reply now limit, failing reply = true ->
     (0 <= now <= max_time_value)%Z -> (0 <= limit <= 100000000)%Z ->
     getFloatTrajectory reply now limit
       = Normal (map (expected_point now limit)
                   (seq 0 (Z.to_nat (Z.min limit 10))))).
Proof.
  repeat split; intros;
    try (apply try_catch_failing; auto; intros; reflexivity).
  - unfold getArgoFloats. apply failing_throws in H. destruct H as [e He].
    now rewrite He.
  - now apply getFloatTrajectory_fallback.
Qed.

Lemma floatAIAPI_fallbacks_witness :
  getFloatProfile (HttpResponse 503 None) = Normal SAMPLE_PROFILE
  /\ getFloatTrajectory NetworkFailure 1700000000000 60
     = Normal (map (expected_point 1700000000000 60) (seq 0 10)).
Proof.
  destruct (floatAIAPI_fallbacks (fun x => x) (fun t days => (t + days)%Z))
    as (_ & _ & Hprofile & _ & _ & Htrajectory).
  split.
  - apply (Hprofile (HttpResponse 503 None)). reflexivity.
  - apply (Htrajectory NetworkFailure 1700000000000%Z 60%Z).
    + reflexivity.
    + unfold max_time_value. lia.
    + lia.
Defined.

(** The copy under frontend/ falls back to a three-entry fleet that does
    not hold entity "5905612". *)
Lemma frontend_catalog_fallback_has_three_entries :
  ApiFrontend.getArgoFloats NetworkFailure = Normal ApiFrontend.SAMPLE_FLOATS
  /\ length ApiFrontend.SAMPLE_FLOATS = 3%nat
  /\ map ArgoFloat.id ApiFrontend.SAMPLE_FLOATS
     = ["float_2903953"; "float_4903838"; "float_7901125"]
  /\ ~ In "5905612" (map ArgoFloat.id ApiFrontend.SAMPLE_FLOATS).
Proof.
  repeat split. simpl. intros [H|[H|[H|[]]]]; discriminate.
Qed.

(** C9 (amended). When the catalog fetch fails, the client that wraps its
    result returns [{data, source: "sample"}] with the fixed six-entry
    sample fleet, which holds entity "5905612" at lat -33.5, lon 151.3 with
    status "active"; the copy under frontend/ returns its own fixed
    three-entry fleet (float_2903953, float_4903838, float_7901125).  In
    both copies a failing profile fetch resolves to the sample profile with
    depth [0,200,500,1000] and values [20.2,15.1,8.3,4.2]. *)
Theorem sample_fleet_and_profile_on_failure :
  (forall reply, failing reply = true ->
     getArgoFloats reply = Normal (ArgoFloatsResult.mk SAMPLE_FLOATS sample))
  /\ length SAMPLE_FLOATS = 6%nat
  /\ (exists entry, In entry SAMPLE_FLOATS
        /\ ArgoFloat.id entry = "5905612"
        /\ ArgoFloat.lat entry = -33.5
        /\ ArgoFloat.lon entry = 151.3
        /\ ArgoFloat.status entry = "active")
  /\ (forall reply, failing reply = true ->
     ApiFrontend.getArgoFloats reply = Normal ApiFrontend.SAMPLE_FLOATS)
  /\ map ArgoFloat.id ApiFrontend.SAMPLE_FLOATS
     = ["float_2903953"; "float_4903838"; "float_7901125"]
  /\ (forall reply, failing reply = true ->
     exists profile,
       getFloatProfile reply = Normal profile
       /\ ApiFrontend.getFloatProfile reply = Normal profile
       /\ ArgoProfile.depth profile = [0; 200; 500; 1000]
       /\ ArgoProfile.values profile = [20.2; 15.1; 8.3; 4.2]).
Proof.
  split.
  { intros reply H. unfold getArgoFloats.
    apply failing_throws in H. destruct H as [e He]. now rewrite He. }
  split; [reflexivity|].
  split.
  { eexists. split; [left; reflexivity|]. repeat split. }
  split.
  { intros reply H. apply try_catch_failing; auto. }
  split; [reflexivity|].
  intros reply H. exists SAMPLE_PROFILE.
  repeat split; apply try_catch_failing; auto.
Qed.

Lemma sample_fleet_and_profile_on_failure_witness :
  getArgoFloats (HttpResponse 500 None)
    = Normal (ArgoFloatsResult.mk SAMPLE_FLOATS sample)
  /\ ApiFrontend.getArgoFloats NetworkFailure
    = Normal ApiFrontend.SAMPLE_FLOATS.
Proof.
  destruct sample_fleet_and_profile_on_failure
    as (Hcatalog & _ & _ & Hfrontend & _).
  split.
  - apply (Hcatalog (HttpResponse 500 None)). reflexivity.
  - apply (Hfrontend NetworkFailure). reflexivity.
Defined.

End FetchClient.


(* ------------------------------------------------------------------ *)
(** * App: the data synopsis and the welcome load *)

Module App.
Import Js Api.

(** [AppData].  Its rows are typed [Record<string, any>[]], but they come
    unchecked from a response body or from the stored snapshot: an element
    may be any JSON value. *)
Record AppData : Type := mkAppData {
  data : list value;
  sqlQuery : string
}.

Record DateWindow : Type := mkDateWindow {
  start : option string;
  end_ : option string
}.

Record DataSynopsis : Type := mkDataSynopsis {
  signature : string;
  headline : string;
  highlights : list string;
  columns : list string;
  sampleFloat : option string;
  dateWindow : DateWindow
}.

Inductive BackendStatus : Type := operational | degraded | offline.

(** [BACKEND_STATUS_MAP[status].description]. *)
Definition status_description (status : BackendStatus) : string :=
  match status with
  | operational => "All systems nominal."
  | degraded => "Serving cached insights while the backend stabilizes."
  | offline =>
      (* the dash of the source text is given as its UTF-8 bytes *)
      "Backend unreachable "
      ++ String (ascii_of_nat 226) (String (ascii_of_nat 128)
           (String (ascii_of_nat 148) " verify the Python API server."))
  end%string.

Definition WELCOME_CACHE_KEY : string := "floatai::welcome-cache::v1".

(** The right arrow and the ellipsis of the highlight texts, as UTF-8. *)
Definition ARROW : string :=
  String (ascii_of_nat 226) (String (ascii_of_nat 134)
    (String (ascii_of_nat 146) EmptyString)).

Definition ELLIPSIS : string :=
  String (ascii_of_nat 226) (String (ascii_of_nat 128)
    (String (ascii_of_nat 166) EmptyString)).

(** [new Set(xs)] then [Array.from]: the distinct elements in first-seen
    order. *)
Definition dedupe (xs : list string) : list string :=
  fold_left
    (fun seen x => if existsb (String.eqb x) seen then seen else seen ++ [x])
    xs [].

(** [.filter((value): value is string => Boolean(value))] on a list of
    strings-or-null: null and the empty string are dropped. *)
Fixpoint filter_truthy (xs : list (option string)) : list string :=
  match xs with
  | [] => []
  | Some s :: rest =>
      if String.eqb s EmptyString then filter_truthy rest
      else s :: filter_truthy rest
  | None :: rest => filter_truthy rest
  end.

Section Synopsis.
(** Host functions: [Number::toString], [new Date(value)] as a time value
    ([None] for an invalid date), [Number.prototype.toLocaleString] and
    [Date.prototype.toLocaleDateString] with the options of the source. *)
Variable Number_toString : number -> string.
Variable Date_new : value -> option Z.
Variable toLocaleString : nat -> string.
Variable toLocaleDateString : Z -> string.

(** The float identifier of a row, normalized. *)
Definition normalize_float_id (row : record) : option string :=
  let raw :=
    nullish (nullish (get row "float_id") (get row "float")) (get row "id") in
  match raw with
  | Undefined | Null => None
  | Str s =>
      let trimmed := trim s in
      if (String.length trimmed =? 0)%nat then None else Some trimmed
  | _ => Some (to_string Number_toString raw)
  end.

Definition floatIds_of (data : list record) : list string :=
  dedupe (filter_truthy (map normalize_float_id data)).

Definition dateCandidates : list string :=
  ["profile_date"; "observation_date"; "date"; "time"].

Definition parseDate (v : value) : option Z :=
  if negb (truthy v) then None else Date_new v.

(** One step of the date scan: the bounds after looking at [row[key]]. *)
Definition scan_cell (bounds : option Z * option Z) (cell : value)
  : option Z * option Z :=
  if truthy cell then
    match parseDate cell with
    | None => bounds
    | Some parsed =>
        let earliest :=
          match fst bounds with
          | None => Some parsed
          | Some e => if (parsed <? e)%Z then Some parsed else Some e
          end in
        let latest :=
          match snd bounds with
          | None => Some parsed
          | Some l => if (parsed >? l)%Z then Some parsed else Some l
          end in
        (earliest, latest)
    end
  else bounds.

Definition date_bounds (data : list record) : option Z * option Z :=
  fold_left
    (fun bounds row =>
       fold_left (fun bounds key => scan_cell bounds (get row key))
         dateCandidates bounds)
    data (None, None).

Definition numericColumns_of (columns : list string) (data : list record)
  : list string :=
  filter (fun column =>
            existsb (fun row => is_number_not_nan (get row column)) data)
    columns.

(** The signature template,
    [`${data.length}-${columns.join("|")}-${floatIds.length}`]. *)
Definition signature_of (rows : nat) (columns : list string) (ids : nat)
  : string :=
  (string_of_nat rows ++ "-" ++ join "|" columns ++ "-" ++ string_of_nat ids)
  %string.

(** The body of [createDataSynopsis] once [columns] is read off the first
    row. *)
Definition synopsis_from (columns : list string) (data : list record)
  : DataSynopsis :=
  let floatIds := floatIds_of data in
  let '(earliest, latest) := date_bounds data in
  let headline :=
    (toLocaleString (length data) ++ " records across "
     ++ (if (length floatIds =? 0)%nat then "several"
         else string_of_nat (length floatIds))
     ++ " floats")%string in
  let sample_line :=
    if (length floatIds =? 0)%nat then []
    else [("Sample float: " ++ join ", " (firstn 1 floatIds))%string] in
  let format (date : option Z) : string :=
    match date with
    | Some d =>
        let text := toLocaleDateString d in
        if String.eqb text EmptyString then "n/a" else text
    | None => "n/a"
    end in
  let window_line :=
    match earliest, latest with
    | None, None => []
    | _, _ =>
        [("Date window: " ++ format earliest ++ " " ++ ARROW ++ " "
          ++ format latest)%string]
    end in
  let numericColumns := numericColumns_of columns data in
  let numeric_line :=
    if (length numericColumns =? 0)%nat then []
    else [("Numeric fields detected: "
           ++ join ", " (firstn 3 numericColumns)
           ++ (if (3 <? length numericColumns)%nat then ELLIPSIS
               else EmptyString))%string] in
  mkDataSynopsis
    (signature_of (length data) columns (length floatIds))
    headline
    (sample_line ++ window_line ++ numeric_line)
    columns
    (hd_error floatIds)
    (mkDateWindow (option_map iso_string earliest)
       (option_map iso_string latest)).

(** [createDataSynopsis] on rows that are objects. *)
Definition createDataSynopsis (data : list record) : option DataSynopsis :=
  match data with
  | [] => None
  | first :: _ => Some (synopsis_from (keys first) data)
  end.

(** ** Rows as they arrive

    [Object.keys(row)] and [row[key]] throw a [TypeError] when the row is
    null or undefined.  On every other value they read its properties: the
    fields of an object, the elements of an array and the code units of a
    text under their indices, with [length] readable besides; a number or
    a boolean has none. *)

Definition indexed (xs : list value) : record :=
  combine (map string_of_nat (seq 0 (length xs))) xs.

(** The own enumerable properties of a row, in [Object.keys] order. *)
Definition own_properties (row : value) : completion record :=
  match row with
  | Undefined | Null =>
      Throw (TypeError "Cannot convert undefined or null to object")
  | Bool _ | Num _ => Normal []
  | Str s => Normal (indexed (map Str (code_units s)))
  | Arr xs => Normal (indexed xs)
  | Obj fields => Normal fields
  end.

(** [Object.keys(row)]. *)
Definition Object_keys (row : value) : completion (list string) :=
  bind (own_properties row) (fun properties => Normal (keys properties)).

(** The properties [row[key]] reads; the first read of a null or undefined
    row throws. *)
Definition readable (row : value) : completion record :=
  match row with
  | Undefined | Null =>
      Throw (TypeError "Cannot read properties of undefined or null")
  | Bool _ | Num _ => Normal []
  | Str s =>
      Normal (indexed (map Str (code_units s))
              ++ [("length", Num (of_nat (utf16_length s)))])
  | Arr xs => Normal (indexed xs ++ [("length", Num (of_nat (length xs)))])
  | Obj fields => Normal fields
  end.

(** [data.map((row) => ... row.float_id ...)]: the rows are read in turn
    and the first null or undefined one throws. *)
Fixpoint readable_rows (data : list value) : completion (list record) :=
  match data with
  | [] => Normal []
  | row :: rest =>
      bind (readable row) (fun properties =>
      bind (readable_rows rest) (fun others =>
      Normal (properties :: others)))
  end.

(** [createDataSynopsis(data)] on rows as they arrive. *)
Definition createDataSynopsis_any (data : list value)
  : completion (option DataSynopsis) :=
  match data with
  | [] => Normal None
  | first :: _ =>
      bind (Object_keys first) (fun columns =>
      bind (readable_rows data) (fun rows =>
      Normal (Some (synopsis_from columns rows))))
  end.

(** The signature of a result set, null when it is empty. *)
Definition signature_of_data (data : list record) : option string :=
  option_map signature (createDataSynopsis data).

(** ** The distinct-entity count does not depend on row order *)

Lemma existsb_eqb_In (x : string) (seen : list string) :
  existsb (String.eqb x) seen = true <-> In x seen.
Proof.
  rewrite existsb_exists. split.
  - intros (y & Hy & E). apply String.eqb_eq in E. now subst.
  - intros H. exists x. split; auto. apply String.eqb_refl.
Qed.

Definition dedupe_step (seen : list string) (x : string) : list string :=
  if existsb (String.eqb x) seen then seen else seen ++ [x].

Lemma dedupe_fold_In (xs seen : list string) (x : string) :
  In x (fold_left dedupe_step xs seen) <-> In x seen \/ In x xs.
Proof.
  revert seen. induction xs as [|y xs IH]; intros seen; simpl.
  - tauto.
  - rewrite IH. unfold dedupe_step.
    destruct (existsb (String.eqb y) seen) eqn:E.
    + apply existsb_eqb_In in E. split; [tauto|].
      intros [H|[<-|H]]; auto.
    + rewrite in_app_iff. simpl. tauto.
Qed.

Lemma dedupe_fold_NoDup (xs seen : list string) :
  NoDup seen -> NoDup (fold_left dedupe_step xs seen).
Proof.
  revert seen. induction xs as [|y xs IH]; intros seen Hs; simpl; auto.
  apply IH. unfold dedupe_step.
  destruct (existsb (String.eqb y) seen) eqn:E; auto.
  apply NoDup_app; auto.
  - repeat constructor. simpl. tauto.
  - intros x Hx [<-|[]].
    apply existsb_eqb_In in Hx. congruence.
Qed.

Lemma dedupe_In (xs : list string) (x : string) :
  In x (dedupe xs) <-> In x xs.
Proof.
  unfold dedupe. change (In x (fold_left dedupe_step xs []) <-> In x xs).
  rewrite dedupe_fold_In. simpl. tauto.
Qed.

Lemma dedupe_NoDup (xs : list string) : NoDup (dedupe xs).
Proof. apply (dedupe_fold_NoDup xs). constructor. Qed.

Lemma dedupe_length_perm (xs ys : list string) :
  Permutation xs ys -> length (dedupe xs) = length (dedupe ys).
Proof.
  intros Hp. apply Permutation_length.
  apply NoDup_Permutation; try apply dedupe_NoDup.
  intros x. rewrite !dedupe_In.
  split; apply Permutation_in; auto. now apply Permutation_sym.
Qed.

Lemma filter_truthy_perm (xs ys : list (option string)) :
  Permutation xs ys -> Permutation (filter_truthy xs) (filter_truthy ys).
Proof.
  induction 1 as [|x xs ys _ IH|x y xs|xs ys zs _ IH1 _ IH2]; simpl.
  - constructor.
  - destruct x as [s|]; auto. destruct (String.eqb s EmptyString); auto.
  - destruct x as [s|], y as [t|]; simpl;
      try destruct (String.eqb s EmptyString);
      try destruct (String.eqb t EmptyString);
      try apply Permutation_refl. apply perm_swap.
  - eapply Permutation_trans; eauto.
Qed.

Lemma floatIds_count_perm (data data' : list record) :
  Permutation data data' ->
  length (floatIds_of data) = length (floatIds_of data').
Proof.
  intros Hp. unfold floatIds_of.
  apply dedupe_length_perm, filter_truthy_perm, Permutation_map, Hp.
Qed.

Lemma signature_of_data_unfold (data : list record) :
  signature_of_data data =
    match data with
    | [] => None
    | first :: _ =>
        Some (signature_of (length data) (keys first)
                (length (floatIds_of data)))
    end.
Proof.
  unfold signature_of_data, createDataSynopsis, synopsis_from.
  destruct data as [|first rest]; auto.
  destruct (date_bounds (first :: rest)). reflexivity.
Qed.

(** ** When the synopsis of arriving rows is computed *)

Definition is_nullish (row : value) : bool :=
  match row with
  | Undefined | Null => true
  | _ => false
  end.

Lemma readable_rows_objects (data : list record) :
  readable_rows (map Obj data) = Normal data.
Proof.
  induction data as [|row rest IH]; simpl; auto. now rewrite IH.
Qed.

(** On rows that are objects the two readings of [createDataSynopsis]
    agree. *)
Lemma createDataSynopsis_any_objects (data : list record) :
  createDataSynopsis_any (map Obj data) = Normal (createDataSynopsis data).
Proof.
  destruct data as [|first rest]; auto.
  unfold createDataSynopsis_any.
  rewrite readable_rows_objects. reflexivity.
Qed.

Lemma readable_rows_normal (data : list value) :
  (exists rows, readable_rows data = Normal rows)
  <-> existsb is_nullish data = false.
Proof.
  induction data as [|row rest IH]; simpl.
  - split; eauto.
  - destruct (readable_rows rest) as [rows|e].
    + assert (H : existsb is_nullish rest = false) by (apply IH; eauto).
      rewrite H, orb_false_r.
      destruct row; simpl; split; eauto; try discriminate;
        intros [? ?]; discriminate.
    + assert (H : existsb is_nullish rest <> false).
      { intros H. apply IH in H. destruct H. discriminate. }
      apply not_false_is_true in H. rewrite H, orb_true_r.
      split; [|discriminate].
      destruct row; simpl; intros [? ?]; discriminate.
Qed.

(** The synopsis is computed exactly when no row is null or undefined;
    otherwise the call throws. *)
Lemma createDataSynopsis_any_normal (data : list value) :
  (exists synopsis, createDataSynopsis_any data = Normal synopsis)
  <-> existsb is_nullish data = false.
Proof.
  rewrite <- readable_rows_normal.
  destruct data as [|first rest]; [simpl; split; eauto|].
  unfold createDataSynopsis_any.
  destruct (readable_rows (first :: rest)) as [rows|e] eqn:E.
  - assert (Hf : is_nullish first = false).
    { assert (H : existsb is_nullish (first :: rest) = false)
        by (apply readable_rows_normal; eauto).
      simpl in H. now apply orb_false_elim in H. }
    destruct first; try discriminate; simpl; split; eauto.
  - split; [|intros [? ?]; discriminate].
    destruct first; simpl; intros [? ?]; discriminate.
Qed.

Lemma createDataSynopsis_any_throws (data : list value) :
  (exists e, createDataSynopsis_any data = Throw e)
  <-> existsb is_nullish data = true.
Proof.
  pose proof (createDataSynopsis_any_normal data) as H.
  destruct (createDataSynopsis_any data) as [synopsis|e].
  - assert (E : existsb is_nullish data = false) by (apply H; eauto).
    rewrite E. split; [intros [? ?]|]; discriminate.
  - destruct (existsb is_nullish data); [split; eauto|].
    destruct (proj2 H eq_refl). discriminate.
Qed.

End Synopsis.

(** ** The welcome load [fetchInitialData] *)

(** The browser's store under [WELCOME_CACHE_KEY]: there is no [window];
    [window.localStorage] is undefined; reading it throws; or it holds a
    cell, empty or with a string, whose writes succeed or exceed the
    quota. *)
Inductive Storage : Type :=
| NoWindow
| NoLocalStorage
| AccessDenied
| Cell (content : option string) (writable : bool).

(** What the welcome load does towards the outside, in order. *)
Inductive Event : Type :=
| Attempt (attempt : nat)
| Sleep (ms : Z).

Record State : Type := mkState {
  appData : AppData;
  dataSynopsis : option DataSynopsis;
  isLoading : bool;
  backendStatus : BackendStatus;
  backendStatusDetail : string;
  localStorage : Storage;
  log : list Event
}.

Definition setAppData (payload : AppData) (st : State) : State :=
  mkState payload (dataSynopsis st) (isLoading st) (backendStatus st)
    (backendStatusDetail st) (localStorage st) (log st).

Definition setDataSynopsis (synopsis : option DataSynopsis) (st : State)
  : State :=
  mkState (appData st) synopsis (isLoading st) (backendStatus st)
    (backendStatusDetail st) (localStorage st) (log st).

Definition setIsLoading (loading : bool) (st : State) : State :=
  mkState (appData st) (dataSynopsis st) loading (backendStatus st)
    (backendStatusDetail st) (localStorage st) (log st).

Definition emit (e : Event) (st : State) : State :=
  mkState (appData st) (dataSynopsis st) (isLoading st) (backendStatus st)
    (backendStatusDetail st) (localStorage st) (log st ++ [e]).

(** [updateBackendStatus(status, detail)]. *)
Definition updateBackendStatus (status : BackendStatus) (detail : option string)
  (st : State) : State :=
  let baseline := status_description status in
  let shown :=
    match detail with
    | Some d =>
        if String.eqb d EmptyString then baseline
        else if String.eqb (trim d) EmptyString then baseline else d
    | None => baseline
    end in
  mkState (appData st) (dataSynopsis st) (isLoading st) status shown
    (localStorage st) (log st).

Section Welcome.
Variable Number_toString : number -> string.
Variable Date_new : value -> option Z.
Variable toLocaleString : nat -> string.
Variable toLocaleDateString : Z -> string.
(** [JSON.stringify] on a payload and [JSON.parse] on a stored string. *)
Variable JSON_stringify : AppData -> string.
Variable JSON_parse : string -> completion value.

Definition synopsis_of : list value -> completion (option DataSynopsis) :=
  createDataSynopsis_any Number_toString Date_new toLocaleString
    toLocaleDateString.

(** [persistWelcomeData(payload)] on the store. *)
Definition persist (payload : AppData) (storage : Storage) : Storage :=
  match storage with
  | Cell _ true => Cell (Some (JSON_stringify payload)) true
  | _ => storage
  end.

Definition persistWelcomeData (payload : AppData) (st : State) : State :=
  mkState (appData st) (dataSynopsis st) (isLoading st) (backendStatus st)
    (backendStatusDetail st) (persist payload (localStorage st)) (log st).

(** [v.key] on a truthy parsed value. *)
Definition property (v : value) (key : string) : value :=
  match v with
  | Obj fields => get fields key
  | _ => Undefined
  end.

(** [loadCachedWelcomeData()]: the elements of [parsed.data] are returned
    as they are. *)
Definition loadCachedWelcomeData (storage : Storage) : option AppData :=
  match storage with
  | Cell (Some raw) _ =>
      if String.eqb raw EmptyString then None
      else
        match JSON_parse raw with
        | Normal parsed =>
            if truthy parsed then
              match property parsed "data", property parsed "sqlQuery" with
              | Arr rows, Str sql => Some (mkAppData rows sql)
              | _, _ => None
              end
            else None
        | Throw _ => None
        end
  | _ => None
  end.

(** A string-or-null that is falsy: null or empty. *)
Definition falsy (s : option string) : bool :=
  match s with
  | None => true
  | Some text => String.eqb text EmptyString
  end.

(** The test that opens the success branch,
    [response && !response.error && Array.isArray(response.result_data)
     && response.sql_query], with the payload it builds. *)
Definition welcome_payload (response : AIResponse.t) : option AppData :=
  if falsy (AIResponse.error response) then
    match AIResponse.result_data response with
    | Rows rows =>
        if falsy (AIResponse.sql_query response) then None
        else
          match AIResponse.sql_query response with
          | Some sql => Some (mkAppData rows sql)
          | None => None
          end
    | _ => None
    end
  else None.

Definition maxAttempts : nat := 3.

(** [400 * (attempt + 1) * (attempt + 1)], [attempt] counted from 0. *)
Definition backoff (attempt : nat) : Z :=
  400 * (Z.of_nat attempt + 1) * (Z.of_nat attempt + 1).

(** The success branch of an attempt.  [setAppData] has run when
    [createDataSynopsis] is called; if that call throws, the rest of the
    branch is skipped and [success] stays false. *)
Definition accept (payload : AppData) (st : State) : State * completion bool :=
  let st1 := setAppData payload st in
  match synopsis_of (data payload) with
  | Normal synopsis =>
      (updateBackendStatus operational (Some "Live telemetry synced.")
         (persistWelcomeData payload (setDataSynopsis synopsis st1)),
       Normal true)
  | Throw e => (st1, Throw e)
  end.

(** The [try] block of an attempt on the response [askAI] resolved to; it
    yields the [success] flag. *)
Definition attempt_body (response : AIResponse.t) (st : State)
  : State * completion bool :=
  match welcome_payload response with
  | Some payload => accept payload st
  | None => (st, Normal false)
  end.

(** [try { ... } catch (error) { console.warn(...) }]: a throw is logged and
    the loop goes on with [success] unchanged. *)
Definition attempt_once (response : AIResponse.t) (st : State)
  : State * bool :=
  let (st1, outcome) := attempt_body response st in
  match outcome with
  | Normal success => (st1, success)
  | Throw _ => (st1, false)
  end.

(** The [for] loop, [remaining] iterations from [attempt] on; the network
    tells what the request of each attempt comes to.  It returns the state
    and the [success] flag. *)
Fixpoint attempt_loop (network : nat -> FetchOutcome AIResponse.t)
  (remaining attempt : nat) (st : State) : State * bool :=
  match remaining with
  | O => (st, false)
  | S remaining' =>
      let (st1, success) :=
        attempt_once (askAI (network attempt)) (emit (Attempt attempt) st) in
      if success then (st1, true)
      else
        let st2 :=
          if (attempt <? maxAttempts - 1)%nat
          then emit (Sleep (backoff attempt)) st1
          else st1 in
        attempt_loop network remaining' (S attempt) st2
  end.

(** The opening of [fetchInitialData], up to the first request. *)
Definition welcome_start (st : State) : State :=
  setIsLoading true
    (updateBackendStatus operational
       (Some "Requesting welcome telemetry...") st).

(** The fallback branch, [if (!success) { ... }].  It is outside any [try]:
    a throw of [createDataSynopsis] on the cached rows ends the call
    there, after [setAppData(cached)]. *)
Definition welcome_fallback (st : State) : State * completion unit :=
  match loadCachedWelcomeData (localStorage st) with
  | Some cached =>
      let st1 := setAppData cached st in
      match synopsis_of (data cached) with
      | Normal synopsis =>
          (updateBackendStatus degraded
             (Some "Loaded cached telemetry while the backend recovers.")
             (setDataSynopsis synopsis st1),
           Normal tt)
      | Throw e => (st1, Throw e)
      end
  | None =>
      (updateBackendStatus offline
         (Some "Initial telemetry failed. Backend unreachable.")
         (setDataSynopsis None (setAppData (mkAppData [] "") st)),
       Normal tt)
  end.

(** [fetchInitialData()]: the state it leaves and how the call ends. *)
Definition fetchInitialData (network : nat -> FetchOutcome AIResponse.t)
  (st : State) : State * completion unit :=
  let (st1, success) := attempt_loop network maxAttempts 0 (welcome_start st) in
  if success then (setIsLoading false st1, Normal tt)
  else
    let (st2, outcome) := welcome_fallback st1 in
    match outcome with
    | Normal _ => (setIsLoading false st2, Normal tt)
    | Throw e => (st2, Throw e)
    end.

(** The number of requests a log records. *)
Definition attempts_made (events : list Event) : nat :=
  length (filter (fun e => match e with Attempt _ => true | _ => false end)
            events).

(** A structurally valid response as the specification words it: no error
    field, an array result, a non-null SQL text. *)
Definition structurally_valid (response : AIResponse.t) : bool :=
  match AIResponse.error response, AIResponse.result_data response,
        AIResponse.sql_query response with
  | None, Rows _, Some _ => true
  | _, _, _ => false
  end.

(** The state of a freshly mounted [App], over a given store. *)
Definition initial_state (storage : Storage) : State :=
  mkState (mkAppData [] "") None true operational
    (status_description operational) storage [].




(** ** Facts about the welcome load *)




Lemma attempts_made_app (xs ys : list Event) :
  attempts_made (xs ++ ys) = (attempts_made xs + attempts_made ys)%nat.
Proof. unfold attempts_made. now rewrite filter_app, length_app. Qed.


(** What an attempt leaves of the state: on an accepted response the shown
    payload; otherwise everything but [appData] as it was. *)
Definition untouched (before after : State) : Prop :=
  dataSynopsis after = dataSynopsis before
  /\ isLoading after = isLoading before
  /\ backendStatus after = backendStatus before
  /\ backendStatusDetail after = backendStatusDetail before
  /\ localStorage after = localStorage before
  /\ log after = log before.

Lemma untouched_refl (st : State) : untouched st st.
Proof. repeat split. Qed.







End Welcome.



(** A response that passes the test of the loop and holds a null row. *)
Definition response_with_null_row : AIResponse.t :=
  AIResponse.mk (Some "SELECT float_id FROM argo_profiles LIMIT 100;")
    (Rows [Null]) None Undefined None.

(** So does a structurally valid response whose array holds a null row:
    the synopsis throws inside the [try], nothing is persisted, and the
    load retries twice and ends offline. *)
Lemma null_row_is_retried :
  structurally_valid response_with_null_row = true
  /\ fetchInitialData (fun _ => EmptyString) (fun _ => None)
       string_of_nat (fun _ => EmptyString) (fun _ => "{}")
       (fun _ => Throw SyntaxError)
       (fun _ => HttpResponse 200 (Some response_with_null_row))
       (initial_state (Cell None true))
     = (mkState (mkAppData [] "") None false offline
          "Initial telemetry failed. Backend unreachable." (Cell None true)
          [Attempt 0; Sleep 400; Attempt 1; Sleep 1600; Attempt 2],
        Normal tt).
Proof. split; reflexivity. Qed.







(** The claim as the specification words it fails when rows differ in
    their keys: the column list is read off the first row, so putting
    another row first changes the signature of the same rows. *)
Lemma signature_depends_on_first_row :
  Permutation
    [[("float_id", Str "1"); ("temperature", Num 12.5%float)]; [("float_id", Str "2")]]
    [[("float_id", Str "2")]; [("float_id", Str "1"); ("temperature", Num 12.5%float)]]
  /\ signature_of_data (fun _ => EmptyString) (fun _ => None)
       string_of_nat (fun _ => EmptyString)
       [[("float_id", Str "1"); ("temperature", Num 12.5%float)];
        [("float_id", Str "2")]]
     = Some "2-float_id|temperature-2"
  /\ signature_of_data (fun _ => EmptyString) (fun _ => None)
       string_of_nat (fun _ => EmptyString)
       [[("float_id", Str "2")];
        [("float_id", Str "1"); ("temperature", Num 12.5%float)]]
     = Some "2-float_id-2".
Proof.
  split; [apply perm_swap|]. split; vm_compute; reflexivity.
Qed.

(** C7 (amended). The signature of a non-empty result set is determined by
    its row count, the column list of its first row and its count of
    distinct entities, so equal inputs yield equal signatures; and two
    orderings of the same rows yield the same signature provided their
    first rows have the same column list (as when every row has the same
    columns). *)
Theorem signature_spec
  (Number_toString : number -> string) (Date_new : value -> option Z)
  (toLocaleString : nat -> string) (toLocaleDateString : Z -> string)
  (data data' : list record) :
  let sig :=
    signature_of_data Number_toString Date_new toLocaleString
      toLocaleDateString in
  sig data =
    match data with
    | [] => None
    | first :: _ =>
        Some (signature_of (length data) (keys first)
                (length (floatIds_of Number_toString data)))
    end
  /\ (Permutation data data' ->
      option_map keys (hd_error data) = option_map keys (hd_error data') ->
      sig data = sig data').
Proof.
  intros sig. unfold sig. split; [apply signature_of_data_unfold|].
  intros Hp Hk. rewrite !signature_of_data_unfold.
  pose proof (Permutation_length Hp) as Hlen.
  pose proof (floatIds_count_perm Number_toString Hp) as Hids.
  destruct data as [|r rest], data' as [|r' rest'];
    simpl in *; try discriminate; auto.
  inversion Hk as [Hkeys]. now rewrite Hkeys, Hids, Hlen.
Qed.

Lemma signature_spec_witness :
  signature_of_data (fun _ => EmptyString) (fun _ => None)
    string_of_nat (fun _ => EmptyString)
    [[("float_id", Str "7"); ("pressure", Num 10%float)];
     [("float_id", Str "9"); ("pressure", Num 20%float)];
     [("float_id", Str "7"); ("pressure", Num 30%float)]]
  = signature_of_data (fun _ => EmptyString) (fun _ => None)
    string_of_nat (fun _ => EmptyString)
    [[("float_id", Str "9"); ("pressure", Num 20%float)];
     [("float_id", Str "7"); ("pressure", Num 30%float)];
     [("float_id", Str "7"); ("pressure", Num 10%float)]].
Proof.
  apply signature_spec.
  - eapply perm_trans; [apply perm_swap|]. apply perm_skip, perm_swap.
  - reflexivity.
Defined.

End App.


(* ------------------------------------------------------------------ *)
(** * ChatInterface: message normalization and the chat session *)

Module ChatInterface.
Import Js Api.
Local Open Scope string_scope.

Inductive Sender : Type := user | assistant.

Record Message : Type := mkMessage {
  id : string;
  content : string;
  sender : Sender;
  timestamp : Z;
  type : option string;
  title : option string;
  metadata : option record
}.

Inductive BackendStatus : Type := operational | degraded | offline.

(** The em dash, as UTF-8, and the line feed. *)
Definition EM_DASH : string :=
  String (ascii_of_nat 226) (String (ascii_of_nat 128)
    (String (ascii_of_nat 148) EmptyString)).

Definition NEWLINE : string := String (ascii_of_nat 10) EmptyString.

(** [buildWelcomeMessage()], [now] being [Date.now()]. *)
Definition buildWelcomeMessage (now : Z) : Message :=
  mkMessage ("welcome-" ++ string_of_Z now)
    ("Welcome to FloatAI " ++ EM_DASH ++ " your ARGO mission copilot."
     ++ NEWLINE
     ++ "Ask a question to surface floats, profiles, or trends when you're ready.")
    assistant now None None None.

(** ** Complexity scoring *)

Definition advancedKeywords : list string :=
  ["join"; "window"; "rank"; "dense_rank"; "correl"; "regression"; "cluster";
   "anomal"; "fourier"; "decomposition"; "kalman"; "wavelet"; "predict"].

Definition analyticKeywords : list string :=
  ["avg"; "sum"; "count"; "variance"; "stddev"; "percentile"; "median";
   "quantile"; "lag"; "lead"; "partition"; "group by"; "order by"].

Definition conditionalPatterns : list string :=
  [">="; "<="; "!="; " like "; " between "; " in ("; "case when"].

Definition geospatialPatterns : list string :=
  ["polygon"; "bbox"; "buffer"; "distance"; "geography"; "geospatial";
   "haversine"].

(** [(normalized.match(/[()]/g) || []).length]. *)
Definition count_parens (s : string) : nat :=
  length (filter (fun c => Ascii.eqb c "("%char || Ascii.eqb c ")"%char)
            (list_ascii_of_string s)).

Definition evaluateComplexity (query : string) : Z :=
  let normalized := toLowerCase query in
  ((if test_any advancedKeywords normalized then 4 else 0)
   + (if test_any analyticKeywords normalized then 2 else 0)
   + (if test_any conditionalPatterns normalized then 1 else 0)
   + (if test_any geospatialPatterns normalized then 2 else 0)
   + (if (140 <? utf16_length normalized)%nat then 2 else 0)
   + (if (4 <? count_parens normalized)%nat then 1 else 0))%Z.

(** The [delta] of [classifyComplexity(score)]. *)
Definition classifyComplexity (score : Z) : Z :=
  (if 6 <=? score then 3
   else if 4 <=? score then 2
   else if 2 <=? score then 1
   else if 1 <=? score then 1
   else -1)%Z.

(** ** [normalizeAssistantMessages] *)

Definition extractMessageContent (v : value) : string :=
  match v with
  | Str s => s
  | Obj fields =>
      match get fields "text" with
      | Str text => text
      | _ => EmptyString
      end
  | _ => EmptyString
  end.

(** The metadata of a payload or entry when it is a plain object, the
    empty object otherwise. *)
Definition plain_object (v : value) : record :=
  match v with
  | Obj fields => fields
  | _ => []
  end.

(** The array index a property name denotes: a decimal numeral without a
    leading zero, below 2^32 - 1.  An object lists such names first, in
    ascending order, and the other names after them in the order of their
    creation. *)
Definition array_index (key : string) : option N :=
  let digits := list_ascii_of_string key in
  let is_digit (c : ascii) : bool :=
    ((48 <=? nat_of_ascii c) && (nat_of_ascii c <=? 57))%nat in
  let n :=
    fold_left (fun acc c => (10 * acc + (N_of_ascii c - 48))%N) digits 0%N in
  match digits with
  | [] => None
  | first :: rest =>
      if forallb is_digit digits
         && implb (Nat.eqb (nat_of_ascii first) 48) (Nat.eqb (length rest) 0)
         && (length digits <=? 10)%nat
         && (n <? 4294967295)%N
      then Some n
      else None
  end.

Definition has_key (target : record) (key : string) : bool :=
  existsb (fun kv => String.eqb (fst kv) key) target.

(** A new property under the index [n]: before the first name that is no
    index or a greater one. *)
Fixpoint insert_index (target : record) (n : N) (key : string) (v : value)
  : record :=
  match target with
  | [] => [(key, v)]
  | (k, old) :: rest =>
      match array_index k with
      | Some m =>
          if (m <? n)%N then (k, old) :: insert_index rest n key v
          else (key, v) :: target
      | None => (key, v) :: target
      end
  end.

Fixpoint update (target : record) (key : string) (v : value) : record :=
  match target with
  | [] => []
  | (k, old) :: rest =>
      if String.eqb k key then (k, v) :: rest
      else (k, old) :: update rest key v
  end.

(** [target[key] = v]: an existing property keeps its place. *)
Definition assign (target : record) (key : string) (v : value) : record :=
  if has_key target key then update target key v
  else
    match array_index key with
    | Some n => insert_index target n key v
    | None => (target ++ [(key, v)])%list
    end.

(** [{ ...base, ...extra }]: the properties of [base], then those of
    [extra], are assigned to a new object. *)
Definition spread (base extra : record) : record :=
  fold_left (fun acc kv => assign acc (fst kv) (snd kv))
    (base ++ extra)%list [].

(** [.filter((entry) => entry && entry.role === 'assistant')]: null
    entries and entries of another role are dropped. *)
Fixpoint assistant_entries (entries : list (option BackendAssistantMessage.t))
  : list BackendAssistantMessage.t :=
  match entries with
  | [] => []
  | Some entry :: rest =>
      if String.eqb (BackendAssistantMessage.role entry) "assistant"
      then entry :: assistant_entries rest
      else assistant_entries rest
  | None :: rest => assistant_entries rest
  end.

(** [.map((entry, index) => ...)], [index] counted from [start]. *)
Fixpoint map_entries (timestampSeed : Z) (baseMetadata : record)
  (fallbackText : string) (start : nat)
  (entries : list BackendAssistantMessage.t) : list Message :=
  match entries with
  | [] => []
  | entry :: rest =>
      let derivedContentRaw :=
        extractMessageContent (BackendAssistantMessage.content entry) in
      let derivedContent :=
        if String.eqb (trim derivedContentRaw) EmptyString then fallbackText
        else trim derivedContentRaw in
      let entryMetadata :=
        plain_object (BackendAssistantMessage.metadata entry) in
      mkMessage
        ("assistant-" ++ string_of_Z timestampSeed ++ "-"
         ++ string_of_nat start)
        derivedContent assistant
        (timestampSeed + Z.of_nat start)
        (BackendAssistantMessage.type entry)
        (BackendAssistantMessage.title entry)
        (Some (spread baseMetadata entryMetadata))
      :: map_entries timestampSeed baseMetadata fallbackText (S start) rest
  end.

(** A string-or-null that is truthy: a non-empty string. *)
Definition truthy_text (s : option string) : bool :=
  match s with
  | Some text => negb (String.eqb text EmptyString)
  | None => false
  end.

(** The text of the single synthesized message. *)
Definition fallbackContent_of (payload : AIResponse.t) (fallbackText : string)
  : string :=
  if negb (String.eqb (trim fallbackText) EmptyString) then trim fallbackText
  else
    let from_error :=
      match AIResponse.error payload with
      | Some e =>
          if String.eqb e EmptyString
          then "I'm still processing that" ++ EM_DASH ++ "please try again."
          else "An error occurred: " ++ e
      | None => "I'm still processing that" ++ EM_DASH ++ "please try again."
      end in
    match AIResponse.result_data payload with
    | Text text =>
        if negb (String.eqb (trim text) EmptyString) then trim text
        else from_error
    | _ => from_error
    end.

(** [normalizeAssistantMessages(payload, fallbackText)], [timestampSeed]
    being [Date.now()]. *)
Definition normalizeAssistantMessages (payload : AIResponse.t)
  (fallbackText : string) (timestampSeed : Z) : list Message :=
  let baseMetadata := plain_object (AIResponse.metadata payload) in
  let rawMessages :=
    match AIResponse.messages payload with
    | Some entries => entries
    | None => []
    end in
  if (0 <? length rawMessages)%nat then
    map_entries timestampSeed baseMetadata fallbackText 0
      (assistant_entries rawMessages)
  else
    [mkMessage ("assistant-" ++ string_of_Z timestampSeed)
       (fallbackContent_of payload fallbackText)
       assistant timestampSeed
       (Some (if truthy_text (AIResponse.error payload) then "error"
              else "text"))
       None (Some baseMetadata)].

(** ** The chat session: [sendPrompt] and [handleResetConversation] *)

(** Calls made on the parent through the component's props; the component
    is followed up to these calls, each of which is taken to return. *)
Inductive ParentCall : Type :=
| DataReceived (data : list value) (sqlQuery : string)
| ComplexitySignal (delta : Z) (query : string)
| BackendStatusChange (status : BackendStatus) (detail : string).

(** The component's state and refs, with the calls made on the parent so
    far.  [sessionIdRef] starts at 0 and is only ever incremented. *)
Record ChatState : Type := mkChat {
  messages : list Message;
  input : string;
  isLoading : bool;
  showNewMessagesBadge : bool;
  isAtBottom : bool;
  sessionIdRef : nat;
  messageCountRef : nat;
  summarySignatureRef : option string;
  calls : list ParentCall
}.

(** A request in flight: the session counter captured when it was issued
    and the question sent. *)
Record Pending : Type := mkPending {
  currentSessionId : nat;
  question : string
}.

(** How the awaited [askAI] call settles. *)
Inductive Outcome : Type :=
| Resolved (response : AIResponse.t)
| Rejected.

Definition appendMessages (new : list Message) (st : ChatState) : ChatState :=
  mkChat (messages st ++ new) (input st) (isLoading st)
    (showNewMessagesBadge st) (isAtBottom st) (sessionIdRef st)
    (messageCountRef st) (summarySignatureRef st) (calls st).

Definition setInput (text : string) (st : ChatState) : ChatState :=
  mkChat (messages st) text (isLoading st)
    (showNewMessagesBadge st) (isAtBottom st) (sessionIdRef st)
    (messageCountRef st) (summarySignatureRef st) (calls st).

Definition setIsLoading (loading : bool) (st : ChatState) : ChatState :=
  mkChat (messages st) (input st) loading
    (showNewMessagesBadge st) (isAtBottom st) (sessionIdRef st)
    (messageCountRef st) (summarySignatureRef st) (calls st).

Definition call (c : ParentCall) (st : ChatState) : ChatState :=
  mkChat (messages st) (input st) (isLoading st)
    (showNewMessagesBadge st) (isAtBottom st) (sessionIdRef st)
    (messageCountRef st) (summarySignatureRef st) (calls st ++ [c]).

(** [sendPrompt(prompt, options)] up to its [await]: the state after the
    synchronous part and the request left in flight, if any. *)
Definition sendPrompt (prompt : string) (preserveInput : bool) (now : Z)
  (st : ChatState) : ChatState * option Pending :=
  let trimmed := trim prompt in
  if String.eqb trimmed EmptyString || isLoading st then (st, None)
  else
    let userMessage :=
      mkMessage (string_of_Z now) trimmed user now (Some "text") None None in
    let st1 := appendMessages [userMessage] st in
    let st2 := if preserveInput then st1 else setInput EmptyString st1 in
    let delta := classifyComplexity (evaluateComplexity trimmed) in
    let st3 := call (ComplexitySignal delta trimmed) st2 in
    (setIsLoading true st3, Some (mkPending (sessionIdRef st) trimmed)).

(** [value || fallback] on a string-or-null. *)
Definition or_else (s : option string) (fallback : string) : string :=
  match s with
  | Some text => if String.eqb text EmptyString then fallback else text
  | None => fallback
  end.

(** The branch of [sendPrompt] taken on the response: the fallback text
    and the calls on the parent. *)
Definition interpret (response : AIResponse.t) (st : ChatState)
  : string * ChatState :=
  if truthy_text (AIResponse.error response) then
    let e := or_else (AIResponse.error response) EmptyString in
    ("An error occurred: " ++ e,
     call (BackendStatusChange degraded e)
       (call (DataReceived []
                (or_else (AIResponse.sql_query response)
                   "Error executing query.")) st))
  else
    match AIResponse.result_data response with
    | Rows data =>
        if (0 <? length data)%nat then
          ("I pulled " ++ string_of_nat (length data)
           ++ " records and synced them with the main viewscreen.",
           call (BackendStatusChange operational
                   ("Synced " ++ string_of_nat (length data) ++ " records."))
             (call (DataReceived data
                      (or_else (AIResponse.sql_query response) EmptyString))
                st))
        else
          ("The query ran successfully but returned no rows. Adjust your parameters and try again.",
           call (BackendStatusChange degraded "Query returned no rows.")
             (call (DataReceived []
                      (or_else (AIResponse.sql_query response) EmptyString))
                st))
    | Text text =>
        if negb (String.eqb (trim text) EmptyString) then
          (trim text,
           call (BackendStatusChange operational
                   "Assistant responded with narrative guidance.") st)
        else
          ("I'm not sure how to answer that.",
           call (BackendStatusChange degraded
                   "Assistant could not determine an answer.") st)
    | NoData =>
        ("I'm not sure how to answer that.",
         call (BackendStatusChange degraded
                 "Assistant could not determine an answer.") st)
    end.

(** The rest of [sendPrompt], run when the awaited call settles at time
    [now]: the try body after the [await], the catch block and the finally
    block. *)
Definition settle (pending : Pending) (outcome : Outcome) (now : Z)
  (st : ChatState) : ChatState :=
  if negb (sessionIdRef st =? currentSessionId pending)%nat then st
  else
    match outcome with
    | Resolved response =>
        let (fallbackContent, st1) := interpret response st in
        let assistantMessages :=
          normalizeAssistantMessages response fallbackContent now in
        setIsLoading false (appendMessages assistantMessages st1)
    | Rejected =>
        let errorMessage :=
          mkMessage (string_of_Z now ++ "-error")
            "Failed to connect to the AI server. Please make sure it is running."
            assistant now (Some "error") None None in
        setIsLoading false
          (call (BackendStatusChange offline "Unable to reach the backend.")
             (appendMessages [errorMessage] st))
    end.

(** [handleResetConversation()]. *)
Definition handleResetConversation (now : Z) (st : ChatState) : ChatState :=
  mkChat [buildWelcomeMessage now] EmptyString false false true
    (S (sessionIdRef st)) 1 None
    (calls st ++ [DataReceived [] EmptyString;
                  BackendStatusChange operational "Chat console reset."]).

(** What can happen to the component between two moments. *)
Inductive ChatEvent : Type :=
| Send (prompt : string) (preserveInput : bool) (now : Z)
| Reset (now : Z)
| Settle (pending : Pending) (outcome : Outcome) (now : Z).

Definition step (st : ChatState) (ev : ChatEvent) : ChatState :=
  match ev with
  | Send prompt preserveInput now => fst (sendPrompt prompt preserveInput now st)
  | Reset now => handleResetConversation now st
  | Settle pending outcome now => settle pending outcome now st
  end.

Definition run (events : list ChatEvent) (st : ChatState) : ChatState :=
  fold_left step events st.

(** The state of a freshly mounted chat, [now] being the clock reading of
    the welcome message. *)
Definition initial_chat (now : Z) : ChatState :=
  mkChat [buildWelcomeMessage now] EmptyString false false true 0 0 None [].

(** ** Facts about normalization *)


Lemma interpret_messages (response : AIResponse.t) (st : ChatState) :
  messages (snd (interpret response st)) = messages st.
Proof.
  unfold interpret.
  destruct (truthy_text (AIResponse.error response)); [reflexivity|].
  destruct (AIResponse.result_data response) as [data|text|].
  - destruct (0 <? length data)%nat; reflexivity.
  - destruct (negb (String.eqb (trim text) EmptyString)); reflexivity.
  - reflexivity.
Qed.



(** ** Stale responses *)

Lemma sendPrompt_session (prompt : string) (preserveInput : bool) (now : Z)
  (st : ChatState) :
  sessionIdRef (fst (sendPrompt prompt preserveInput now st)) = sessionIdRef st.
Proof.
  unfold sendPrompt.
  destruct (String.eqb (trim prompt) EmptyString || isLoading st);
    [reflexivity|].
  destruct preserveInput; reflexivity.
Qed.

Lemma sendPrompt_captures (prompt : string) (preserveInput : bool) (now : Z)
  (st st1 : ChatState) (pending : Pending) :
  sendPrompt prompt preserveInput now st = (st1, Some pending) ->
  currentSessionId pending = sessionIdRef st
  /\ sessionIdRef st1 = sessionIdRef st.
Proof.
  intros H. pose proof (sendPrompt_session prompt preserveInput now st) as Hs.
  rewrite H in Hs. simpl in Hs. split; auto.
  unfold sendPrompt in H.
  destruct (String.eqb (trim prompt) EmptyString || isLoading st);
    [discriminate|].
  inversion H. reflexivity.
Qed.

Lemma settle_session (pending : Pending) (outcome : Outcome) (now : Z)
  (st : ChatState) :
  sessionIdRef (settle pending outcome now st) = sessionIdRef st.
Proof.
  unfold settle.
  destruct (negb (sessionIdRef st =? currentSessionId pending)%nat);
    [reflexivity|].
  destruct outcome as [response|]; [|reflexivity].
  assert (Hi : sessionIdRef (snd (interpret response st)) = sessionIdRef st).
  { unfold interpret.
    destruct (truthy_text (AIResponse.error response)); [reflexivity|].
    destruct (AIResponse.result_data response) as [data|text|].
    - destruct (0 <? length data)%nat; reflexivity.
    - destruct (negb (String.eqb (trim text) EmptyString)); reflexivity.
    - reflexivity. }
  destruct (interpret response st) as [fallbackContent st1]. exact Hi.
Qed.

(** The session counter never decreases. *)
Lemma step_session (st : ChatState) (ev : ChatEvent) :
  (sessionIdRef st <= sessionIdRef (step st ev))%nat.
Proof.
  destruct ev as [prompt preserveInput now|now|pending outcome now]; simpl.
  - now rewrite sendPrompt_session.
  - lia.
  - now rewrite settle_session.
Qed.

Lemma run_session (events : list ChatEvent) (st : ChatState) :
  (sessionIdRef st <= sessionIdRef (run events st))%nat.
Proof.
  revert st. induction events as [|ev events IH]; intros st; simpl; auto.
  eapply Nat.le_trans; [apply step_session | apply IH].
Qed.

(** A reset anywhere in between leaves the counter above its old value. *)
Lemma run_with_reset (before after : list ChatEvent) (now : Z)
  (st : ChatState) :
  (sessionIdRef st < sessionIdRef (run (before ++ Reset now :: after) st))%nat.
Proof.
  unfold run. rewrite fold_left_app. simpl.
  pose proof (run_session before st) as H1.
  pose proof (run_session after
                (handleResetConversation now (fold_left step before st))) as H2.
  unfold run in *. simpl in H2. lia.
Qed.

(** A response that settles under another session counter changes
    nothing. *)
Lemma settle_stale (pending : Pending) (outcome : Outcome) (now : Z)
  (st : ChatState) :
  sessionIdRef st <> currentSessionId pending ->
  settle pending outcome now st = st.
Proof.
  intros Hne. unfold settle.
  apply Nat.eqb_neq in Hne. now rewrite Hne.
Qed.

(** C4. A request captures the session counter when it is issued.  If the
    conversation is reset before the request settles, whatever else happens
    in between, then when it settles, resolved or rejected, the state is
    left exactly as it was: no message is appended, no call is made on the
    parent (no data update, no status change), and the loading flag keeps
    its value. *)
Theorem stale_response_is_discarded
  (prompt : string) (preserveInput : bool) (issued : Z)
  (st st1 : ChatState) (pending : Pending)
  (before after : list ChatEvent) (reset_at settled_at : Z)
  (outcome : Outcome) :
  sendPrompt prompt preserveInput issued st = (st1, Some pending) ->
  let st2 := run (before ++ Reset reset_at :: after) st1 in
  settle pending outcome settled_at st2 = st2
  /\ messages (settle pending outcome settled_at st2) = messages st2
  /\ calls (settle pending outcome settled_at st2) = calls st2
  /\ isLoading (settle pending outcome settled_at st2) = isLoading st2.
Proof.
  intros Hsend st2.
  destruct (sendPrompt_captures _ _ _ _ Hsend) as [Hcap Hs1].
  assert (Hstale : settle pending outcome settled_at st2 = st2).
  { apply settle_stale. subst st2.
    pose proof (run_with_reset before after reset_at st1). lia. }
  now rewrite Hstale.
Qed.

Lemma stale_response_is_discarded_witness :
  let st1 := fst (sendPrompt "Show the latest floats" false 1700000000000
                    (initial_chat 1699999990000)) in
  let st2 := run [Reset 1700000001000] st1 in
  settle (mkPending 0 "Show the latest floats")
    (Resolved
       (AIResponse.mk (Some "SELECT 1;") (Rows [Obj [("float_id", Str "5905612")]])
          None Undefined None))
    1700000002000 st2
  = st2.
Proof.
  intros st1 st2.
  apply (@stale_response_is_discarded "Show the latest floats" false
           1700000000000 (initial_chat 1699999990000) st1
           (mkPending 0 "Show the latest floats") [] [] 1700000001000
           1700000002000).
  reflexivity.
Defined.

End ChatInterface.


(* ------------------------------------------------------------------ *)
(** * Facts about texts *)

Module Text.
Import Js.

Lemma append_cancel (p a b : string) :
  (p ++ a)%string = (p ++ b)%string -> a = b.
Proof.
  induction p as [|c p IH]; simpl; intros H; auto.
  inversion H. auto.
Qed.

Lemma append_not_empty (p s : string) :
  p <> EmptyString -> (p ++ s)%string <> EmptyString.
Proof. destruct p; simpl; congruence. Qed.

Lemma string_of_nat_inj (n m : nat) :
  string_of_nat n = string_of_nat m -> n = m.
Proof.
  unfold string_of_nat. intros H.
  apply DecimalNat.Unsigned.to_uint_inj.
  assert (Hu : NilEmpty.uint_of_string (NilEmpty.string_of_uint (Nat.to_uint n))
               = NilEmpty.uint_of_string
                   (NilEmpty.string_of_uint (Nat.to_uint m)))
    by now rewrite H.
  rewrite !NilEmpty.usu in Hu. now inversion Hu.
Qed.

End Text.


(* ------------------------------------------------------------------ *)
(** * ChatInterface: scoring, message lists and the session as the
      component wires it *)

Module ChatSession.
Import Js Api ChatInterface.
Local Open Scope string_scope.

(** ** Complexity scoring *)

Lemma evaluateComplexity_range (query : string) :
  (0 <= evaluateComplexity query <= 12)%Z.
Proof.
  unfold evaluateComplexity.
  destruct (test_any advancedKeywords _), (test_any analyticKeywords _),
    (test_any conditionalPatterns _), (test_any geospatialPatterns _),
    (140 <? _)%nat, (4 <? _)%nat; lia.
Qed.

Lemma classifyComplexity_cases (score : Z) :
  (score <= 0 /\ classifyComplexity score = -1
   \/ 1 <= score <= 3 /\ classifyComplexity score = 1
   \/ 4 <= score <= 5 /\ classifyComplexity score = 2
   \/ 6 <= score /\ classifyComplexity score = 3)%Z.
Proof.
  unfold classifyComplexity.
  destruct (6 <=? score)%Z eqn:E6; [apply Z.leb_le in E6; lia|].
  destruct (4 <=? score)%Z eqn:E4; [apply Z.leb_le in E4|];
    apply Z.leb_gt in E6; [lia|].
  destruct (2 <=? score)%Z eqn:E2; [apply Z.leb_le in E2|];
    apply Z.leb_gt in E4; [lia|].
  destruct (1 <=? score)%Z eqn:E1; [apply Z.leb_le in E1|];
    apply Z.leb_gt in E2; [lia|].
  apply Z.leb_gt in E1. lia.
Qed.

(** The delta sent with a prompt lies in {-1, 1, 2, 3}: it is -1 exactly
    when no pattern fires (score 0), it grows with the score, and a prompt
    that holds an advanced keyword always gets at least 2. *)
Theorem complexity_delta_spec (query : string) :
  let score := evaluateComplexity query in
  let delta := classifyComplexity score in
  (0 <= score <= 12)%Z
  /\ (delta = -1 \/ delta = 1 \/ delta = 2 \/ delta = 3)%Z
  /\ (delta = -1 <-> score = 0)%Z
  /\ (delta = 3 <-> 6 <= score)%Z
  /\ (test_any advancedKeywords (toLowerCase query) = true -> 2 <= delta)%Z
  /\ (forall other,
        (score <= evaluateComplexity other)%Z ->
        (delta <= classifyComplexity (evaluateComplexity other))%Z).
Proof.
  intros score delta.
  pose proof (evaluateComplexity_range query) as Hr. fold score in Hr.
  pose proof (classifyComplexity_cases score) as Hc. fold delta in Hc.
  split; [exact Hr|]. split; [lia|]. split; [lia|]. split; [lia|].
  split.
  - intros Hadv.
    assert (4 <= score)%Z.
    { unfold score, evaluateComplexity. rewrite Hadv.
      destruct (test_any analyticKeywords _),
        (test_any conditionalPatterns _), (test_any geospatialPatterns _),
        (140 <? _)%nat, (4 <? _)%nat; lia. }
    lia.
  - intros other Hle.
    pose proof (classifyComplexity_cases (evaluateComplexity other)). lia.
Qed.

Lemma complexity_delta_spec_witness :
  (classifyComplexity
     (evaluateComplexity "Rank floats by salinity variance") = 3)%Z
  /\ (classifyComplexity (evaluateComplexity "Where are the floats?") = -1)%Z.
Proof.
  split.
  - pose proof (complexity_delta_spec "Rank floats by salinity variance")
      as (_ & _ & _ & H & _).
    apply H. vm_compute. discriminate.
  - pose proof (complexity_delta_spec "Where are the floats?")
      as (_ & _ & H & _).
    apply H. reflexivity.
Defined.

(** ** The normalized message list *)

Definition entry_id (timestampSeed : Z) (index : nat) : string :=
  "assistant-" ++ string_of_Z timestampSeed ++ "-" ++ string_of_nat index.

Lemma entry_id_inj (timestampSeed : Z) (i j : nat) :
  entry_id timestampSeed i = entry_id timestampSeed j -> i = j.
Proof.
  unfold entry_id. intros H.
  apply Text.append_cancel in H. apply Text.append_cancel in H.
  apply Text.append_cancel in H. now apply Text.string_of_nat_inj.
Qed.

Lemma map_entries_ids timestampSeed baseMetadata fallbackText start entries :
  map id (map_entries timestampSeed baseMetadata fallbackText start entries)
  = map (entry_id timestampSeed) (seq start (length entries)).
Proof.
  revert start. induction entries as [|entry rest IH]; intros start; simpl.
  - reflexivity.
  - now rewrite IH.
Qed.

Lemma map_entries_nth timestampSeed baseMetadata fallbackText start entries
  (i : nat) (m : Message) :
  nth_error
    (map_entries timestampSeed baseMetadata fallbackText start entries) i
  = Some m ->
  sender m = assistant
  /\ timestamp m = (timestampSeed + Z.of_nat (start + i))%Z
  /\ id m = entry_id timestampSeed (start + i)
  /\ (fallbackText <> EmptyString -> content m <> EmptyString).
Proof.
  revert start i. induction entries as [|entry rest IH]; intros start i H.
  - destruct i; discriminate.
  - destruct i as [|i]; simpl in H.
    + inversion H; subst; clear H. simpl. rewrite Nat.add_0_r.
      repeat split.
      intros Hfb.
      destruct (String.eqb_spec
                  (trim (extractMessageContent
                           (BackendAssistantMessage.content entry)))
                  EmptyString); auto.
    + apply IH in H. now rewrite Nat.add_succ_r.
Qed.

Lemma map_entries_length timestampSeed baseMetadata fallbackText start entries :
  length (map_entries timestampSeed baseMetadata fallbackText start entries)
  = length entries.
Proof.
  revert start. induction entries as [|entry rest IH]; intros start; simpl;
    auto.
Qed.

Lemma fallbackContent_of_not_empty (payload : AIResponse.t)
  (fallbackText : string) :
  fallbackContent_of payload fallbackText <> EmptyString.
Proof.
  unfold fallbackContent_of.
  destruct (String.eqb_spec (trim fallbackText) EmptyString) as [_|Hn];
    simpl; [|exact Hn].
  assert (Herr :
    match AIResponse.error payload with
    | Some e =>
        if String.eqb e EmptyString
        then "I'm still processing that" ++ EM_DASH ++ "please try again."
        else "An error occurred: " ++ e
    | None => "I'm still processing that" ++ EM_DASH ++ "please try again."
    end <> EmptyString).
  { destruct (AIResponse.error payload) as [e|]; [|discriminate].
    destruct (String.eqb e EmptyString); discriminate. }
  destruct (AIResponse.result_data payload) as [rows|text|]; auto.
  destruct (String.eqb_spec (trim text) EmptyString); simpl; auto.
Qed.

(** The messages made from one response carry pairwise distinct ids, all
    have sender assistant, and the i-th is stamped [timestampSeed + i].
    With structured messages there is one message per assistant entry;
    without, there is exactly one. *)
Theorem normalized_messages_are_distinct
  (payload : AIResponse.t) (fallbackText : string) (timestampSeed : Z) :
  let out := normalizeAssistantMessages payload fallbackText timestampSeed in
  NoDup (map id out)
  /\ (forall i m, nth_error out i = Some m ->
        sender m = assistant
        /\ timestamp m = (timestampSeed + Z.of_nat i)%Z)
  /\ length out =
       match AIResponse.messages payload with
       | Some (entry :: rest) => length (assistant_entries (entry :: rest))
       | _ => 1%nat
       end.
Proof.
  unfold normalizeAssistantMessages.
  destruct (AIResponse.messages payload) as [[|entry rest]|]; simpl.
  - split; [repeat constructor; auto|]. split; [|reflexivity].
    intros [|[|i]] m H; inversion H; subst. simpl. split; auto. lia.
  - split.
    { rewrite map_entries_ids. apply Finite.Injective_map_NoDup.
      - intros i j. apply entry_id_inj.
      - apply seq_NoDup. }
    split.
    + intros i m H. apply map_entries_nth in H. simpl in H. tauto.
    + apply map_entries_length.
  - split; [repeat constructor; auto|]. split; [|reflexivity].
    intros [|[|i]] m H; inversion H; subst. simpl. split; auto. lia.
Qed.

(** ** What the chat shows *)

Definition has_text (m : Message) : Prop := content m <> EmptyString.

Lemma interpret_text_not_empty (response : AIResponse.t) (st : ChatState) :
  fst (interpret response st) <> EmptyString.
Proof.
  unfold interpret.
  destruct (truthy_text (AIResponse.error response)); [simpl; discriminate|].
  destruct (AIResponse.result_data response) as [data|text|].
  - destruct (0 <? length data)%nat; simpl; discriminate.
  - destruct (String.eqb_spec (trim text) EmptyString); simpl; auto.
    discriminate.
  - simpl. discriminate.
Qed.

Lemma normalizeAssistantMessages_has_text (payload : AIResponse.t)
  (fallbackText : string) (timestampSeed : Z) :
  fallbackText <> EmptyString ->
  Forall has_text (normalizeAssistantMessages payload fallbackText timestampSeed).
Proof.
  intros Hfb. unfold normalizeAssistantMessages.
  assert (Hone : Forall has_text
            [mkMessage ("assistant-" ++ string_of_Z timestampSeed)
               (fallbackContent_of payload fallbackText)
               assistant timestampSeed
               (Some (if truthy_text (AIResponse.error payload) then "error"
                      else "text"))
               None (Some (plain_object (AIResponse.metadata payload)))]).
  { constructor; [|constructor]. apply fallbackContent_of_not_empty. }
  destruct (AIResponse.messages payload) as [[|entry rest]|]; simpl;
    try exact Hone.
  apply Forall_forall. intros m Hin.
  apply In_nth_error in Hin. destruct Hin as [i Hi].
  apply map_entries_nth in Hi. now apply Hi.
Qed.

Lemma step_has_text (st : ChatState) (ev : ChatEvent) :
  Forall has_text (messages st) -> Forall has_text (messages (step st ev)).
Proof.
  intros H. destruct ev as [prompt preserveInput now|now|pending outcome now];
    simpl.
  - unfold sendPrompt.
    destruct (String.eqb_spec (trim prompt) EmptyString) as [|Hne]; simpl;
      [exact H|].
    destruct (isLoading st); simpl; [exact H|].
    destruct preserveInput; simpl; apply Forall_app; split; auto;
      repeat constructor; exact Hne.
  - repeat constructor. unfold has_text. simpl. discriminate.
  - unfold settle.
    destruct (negb (sessionIdRef st =? currentSessionId pending)%nat);
      [exact H|].
    destruct outcome as [response|].
    + pose proof (interpret_messages response st) as Hm.
      pose proof (interpret_text_not_empty response st) as Ht.
      destruct (interpret response st) as [fallbackContent st1].
      simpl in *. rewrite Hm. apply Forall_app. split; auto.
      now apply normalizeAssistantMessages_has_text.
    + simpl. apply Forall_app. split; auto.
      repeat constructor. unfold has_text. simpl. discriminate.
Qed.

(** ** The summary effect *)

(** The bullet and the typographic apostrophe, as UTF-8. *)
Definition BULLET : string :=
  String (ascii_of_nat 226) (String (ascii_of_nat 128)
    (String (ascii_of_nat 162) EmptyString)).

Definition APOSTROPHE : string :=
  String (ascii_of_nat 226) (String (ascii_of_nat 128)
    (String (ascii_of_nat 153) EmptyString)).

Definition summary_content (summary : App.DataSynopsis) : string :=
  "Here" ++ APOSTROPHE ++ "s what I" ++ APOSTROPHE ++ "m seeing:"
  ++ NEWLINE ++ NEWLINE
  ++ BULLET ++ " " ++ App.headline summary ++ NEWLINE
  ++ join NEWLINE
       (map (fun line => BULLET ++ " " ++ line) (App.highlights summary))
  ++ NEWLINE ++ NEWLINE
  ++ "Let me know if you" ++ APOSTROPHE
  ++ "d like to dive into any detail further or filter this view.".

(** The effect on [dataSummary]: a summary with a signature not seen
    last is announced by one assistant message. *)
Definition summary_effect (dataSummary : option App.DataSynopsis) (now : Z)
  (st : ChatState) : ChatState :=
  match dataSummary with
  | None => st
  | Some summary =>
      if match summarySignatureRef st with
         | Some seen => String.eqb (App.signature summary) seen
         | None => false
         end
      then st
      else
        mkChat
          (messages st
           ++ [mkMessage (string_of_Z now ++ "-summary")
                 (summary_content summary) assistant now None None None])
          (input st) (isLoading st) (showNewMessagesBadge st)
          (isAtBottom st) (sessionIdRef st) (messageCountRef st)
          (Some (App.signature summary)) (calls st)
  end.

(** What happens to a mounted chat: an event of the conversation, or a
    new [dataSummary] prop. *)
Inductive SessionEvent : Type :=
| Conversation (ev : ChatEvent)
| SummaryChanged (dataSummary : option App.DataSynopsis) (now : Z).

Definition session_step (st : ChatState) (ev : SessionEvent) : ChatState :=
  match ev with
  | Conversation ev' => step st ev'
  | SummaryChanged dataSummary now => summary_effect dataSummary now st
  end.

Definition session_run (events : list SessionEvent) (st : ChatState)
  : ChatState :=
  fold_left session_step events st.

Lemma session_step_has_text (st : ChatState) (ev : SessionEvent) :
  Forall has_text (messages st) ->
  Forall has_text (messages (session_step st ev)).
Proof.
  intros H. destruct ev as [ev|[summary|] now]; cbn [session_step].
  - now apply step_has_text.
  - unfold summary_effect.
    destruct (match summarySignatureRef st with
              | Some seen => String.eqb (App.signature summary) seen
              | None => false
              end); auto.
    cbn [messages]. apply Forall_app. split; auto.
    repeat constructor. unfold has_text. simpl. discriminate.
  - exact H.
Qed.

(** Whatever is sent, reset, answered or summarized, and whatever the
    backend replies, every message in the conversation has non-empty
    text: a prompt is only accepted when its trimmed text is non-empty,
    and an answer without text of its own gets the fallback text, which
    is never empty. *)
Theorem conversation_has_no_empty_message (events : list SessionEvent)
  (now : Z) :
  Forall has_text (messages (session_run events (initial_chat now))).
Proof.
  assert (Hgen : forall st, Forall has_text (messages st) ->
                            Forall has_text (messages (session_run events st))).
  { induction events as [|ev events IH]; intros st H; simpl; auto.
    apply IH. now apply session_step_has_text. }
  apply Hgen. repeat constructor. unfold has_text. simpl. discriminate.
Qed.

(** ** The counters of the header *)

(** [messages.filter((message) => message.sender === 'assistant'
    && !message.id.startsWith('welcome'))]. *)
Definition assistantMessages (shown : list Message) : list Message :=
  filter (fun message =>
            match sender message with
            | assistant => negb (String.prefix "welcome" (id message))
            | user => false
            end) shown.

(** [messages.reduce((count, message) => ..., 0)]. *)
Definition userMessageCount (shown : list Message) : nat :=
  fold_left (fun count message =>
               match sender message with
               | user => S count
               | assistant => count
               end) shown 0%nat.

Definition assistantMessageCount (shown : list Message) : nat :=
  length (assistantMessages shown).

(** A message that the two counters count once between them. *)
Definition counted (message : Message) : Prop :=
  String.prefix "welcome" (id message) = false.

Lemma string_of_nat_first (n : nat) :
  exists c rest, string_of_nat n = String c rest /\ c <> "w"%char.
Proof.
  unfold string_of_nat.
  assert (Hnil : Nat.to_uint n <> Decimal.Nil).
  { rewrite <- (DecimalNat.Unsigned.of_to n) at 1.
    rewrite DecimalNat.Unsigned.to_of. unfold Decimal.unorm.
    destruct (Decimal.nzhead (Nat.to_uint n)); discriminate. }
  destruct (Nat.to_uint n); try contradiction;
    eexists _, _; (split; [reflexivity|discriminate]).
Qed.

Lemma string_of_Z_first (now : Z) :
  exists c rest, string_of_Z now = String c rest /\ c <> "w"%char.
Proof.
  destruct now as [|p|p]; simpl.
  - eexists _, _. split; [reflexivity|discriminate].
  - apply string_of_nat_first.
  - eexists _, _. split; [reflexivity|discriminate].
Qed.

Lemma first_char_counted (c : ascii) (rest : string) :
  c <> "w"%char -> String.prefix "welcome" (String c rest) = false.
Proof.
  intros Hc. cbn [String.prefix].
  destruct (Ascii.ascii_dec "w" c) as [E|_]; [congruence|reflexivity].
Qed.

Lemma stamp_counted (now : Z) :
  String.prefix "welcome" (string_of_Z now) = false.
Proof.
  destruct (string_of_Z_first now) as (c & rest & -> & Hc).
  now apply first_char_counted.
Qed.

Lemma stamped_id_counted (now : Z) (suffix : string) :
  String.prefix "welcome" (string_of_Z now ++ suffix) = false.
Proof.
  destruct (string_of_Z_first now) as (c & rest & -> & Hc).
  change (String c rest ++ suffix) with (String c (rest ++ suffix)).
  now apply first_char_counted.
Qed.

Lemma map_entries_counted timestampSeed baseMetadata fallbackText start entries :
  Forall counted
    (map_entries timestampSeed baseMetadata fallbackText start entries).
Proof.
  revert start. induction entries as [|entry rest IH]; intros start; simpl;
    constructor; auto.
  reflexivity.
Qed.

Lemma normalizeAssistantMessages_counted (payload : AIResponse.t)
  (fallbackText : string) (timestampSeed : Z) :
  Forall counted (normalizeAssistantMessages payload fallbackText timestampSeed).
Proof.
  unfold normalizeAssistantMessages.
  destruct (AIResponse.messages payload) as [[|entry rest]|]; simpl;
    try (repeat constructor; reflexivity).
  apply map_entries_counted.
Qed.

(** The conversation is a welcome message followed by counted ones. *)
Definition well_formed (shown : list Message) : Prop :=
  exists opened rest,
    shown = buildWelcomeMessage opened :: rest /\ Forall counted rest.

Lemma well_formed_app (shown new : list Message) :
  well_formed shown -> Forall counted new -> well_formed (shown ++ new).
Proof.
  intros (opened & rest & -> & Hrest) Hnew.
  exists opened, (rest ++ new)%list. split; auto.
  apply Forall_app. auto.
Qed.

Lemma session_step_well_formed (st : ChatState) (ev : SessionEvent) :
  well_formed (messages st) -> well_formed (messages (session_step st ev)).
Proof.
  intros H.
  destruct ev as [[prompt preserveInput now|now|pending outcome now]
                 |[summary|] now]; cbn [session_step step].
  - unfold sendPrompt.
    destruct (String.eqb (trim prompt) EmptyString || isLoading st);
      [exact H|].
    destruct preserveInput; cbn [fst messages setIsLoading call setInput
                                   appendMessages];
      apply well_formed_app; auto; repeat constructor;
      apply stamp_counted.
  - exists now, []. split; auto.
  - unfold settle.
    destruct (negb (sessionIdRef st =? currentSessionId pending)%nat);
      [exact H|].
    destruct outcome as [response|].
    + pose proof (interpret_messages response st) as Hm.
      destruct (interpret response st) as [fallbackContent st1].
      simpl in *. rewrite Hm. apply well_formed_app; auto.
      apply normalizeAssistantMessages_counted.
    + simpl. apply well_formed_app; auto. repeat constructor.
      apply stamped_id_counted.
  - unfold summary_effect.
    destruct (match summarySignatureRef st with
              | Some seen => String.eqb (App.signature summary) seen
              | None => false
              end); auto.
    cbn [messages]. apply well_formed_app; auto. repeat constructor.
    apply stamped_id_counted.
  - exact H.
Qed.

Lemma userMessageCount_fold (shown : list Message) (start : nat) :
  fold_left (fun count message =>
               match sender message with
               | user => S count
               | assistant => count
               end) shown start
  = (start + length (filter (fun message =>
                               match sender message with
                               | user => true
                               | assistant => false
                               end) shown))%nat.
Proof.
  revert start. induction shown as [|m shown IH]; intros start; simpl;
    [lia|].
  rewrite IH. destruct (sender m); simpl; lia.
Qed.

Lemma counted_split (rest : list Message) :
  Forall counted rest ->
  (userMessageCount rest + assistantMessageCount rest)%nat = length rest.
Proof.
  intros H. unfold userMessageCount, assistantMessageCount, assistantMessages.
  rewrite userMessageCount_fold. simpl.
  induction H as [|m rest Hm Hrest IH]; simpl; auto.
  unfold counted in Hm. rewrite Hm.
  destruct (sender m); simpl; lia.
Qed.

(** Whatever is sent, reset, answered or summarized, the conversation
    starts with a welcome message, and the two counters of the header
    count every other message exactly once: prompts plus insights plus
    one is the number of messages, and the welcome message is never
    counted as an insight. *)
Theorem header_counters_add_up (events : list SessionEvent) (now : Z) :
  let shown := messages (session_run events (initial_chat now)) in
  (exists opened rest,
     shown = buildWelcomeMessage opened :: rest
     /\ userMessageCount shown = userMessageCount rest
     /\ assistantMessageCount shown = assistantMessageCount rest)
  /\ (userMessageCount shown + assistantMessageCount shown + 1)%nat
     = length shown.
Proof.
  intros shown.
  assert (H : well_formed shown).
  { subst shown. unfold session_run.
    assert (Hgen : forall st, well_formed (messages st) ->
              well_formed (messages (fold_left session_step events st))).
    { induction events as [|ev events IH]; intros st H; simpl; auto.
      apply IH. now apply session_step_well_formed. }
    apply Hgen. exists now, []. split; auto. }
  destruct H as (opened & rest & E & Hrest).
  assert (Hu : userMessageCount shown = userMessageCount rest)
    by (rewrite E; reflexivity).
  assert (Ha : assistantMessageCount shown = assistantMessageCount rest)
    by (rewrite E; reflexivity).
  split.
  - exists opened, rest. auto.
  - rewrite Hu, Ha, (counted_split Hrest), E. simpl. lia.
Qed.

(** ** The session as the controls drive it *)

(** The component with the request it is waiting for, if any. *)
Record Ui : Type := mkUi {
  chat : ChatState;
  inflight : option Pending
}.

(** What the user and the network can do: edit the composer ([onChange],
    the text area being disabled while loading), receive a palette prefill,
    submit the composer ([handleSend]), click Reset (the button being
    disabled while loading), and the awaited call settling. *)
Inductive UiEvent : Type :=
| Change (text : string)
| Prefill (text : string)
| Submit (now : Z)
| ClickReset (now : Z)
| Arrive (outcome : Outcome) (now : Z).

Definition ui_step (u : Ui) (ev : UiEvent) : Ui :=
  match ev with
  | Change text =>
      if isLoading (chat u) then u
      else mkUi (setInput text (chat u)) (inflight u)
  | Prefill text => mkUi (setInput text (chat u)) (inflight u)
  | Submit now =>
      match sendPrompt (input (chat u)) false now (chat u) with
      | (st, Some pending) => mkUi st (Some pending)
      | (st, None) => mkUi st (inflight u)
      end
  | ClickReset now =>
      if isLoading (chat u) then u
      else mkUi (handleResetConversation now (chat u)) (inflight u)
  | Arrive outcome now =>
      match inflight u with
      | Some pending => mkUi (settle pending outcome now (chat u)) None
      | None => u
      end
  end.

Definition ui_run (events : list UiEvent) (u : Ui) : Ui :=
  fold_left ui_step events u.

Definition ui_initial (now : Z) : Ui := mkUi (initial_chat now) None.

(** The loading flag is up exactly while a request is awaited, and that
    request carries the current session counter. *)
Definition ui_consistent (u : Ui) : Prop :=
  match inflight u with
  | Some pending =>
      isLoading (chat u) = true
      /\ currentSessionId pending = sessionIdRef (chat u)
  | None => isLoading (chat u) = false
  end.

Lemma settle_current_clears (pending : Pending) (outcome : Outcome) (now : Z)
  (st : ChatState) :
  currentSessionId pending = sessionIdRef st ->
  isLoading (settle pending outcome now st) = false.
Proof.
  intros H. unfold settle. rewrite H, Nat.eqb_refl. simpl.
  destruct outcome as [response|]; [|reflexivity].
  destruct (interpret response st) as [fallbackContent st1]. reflexivity.
Qed.

Lemma ui_step_consistent (u : Ui) (ev : UiEvent) :
  ui_consistent u -> ui_consistent (ui_step u ev).
Proof.
  unfold ui_consistent. intros H.
  destruct ev as [text|text|now|now|outcome now]; simpl.
  - case_eq (isLoading (chat u)); intros E; [exact H|]. simpl.
    destruct (inflight u); simpl; auto; destruct H; congruence.
  - exact H.
  - unfold sendPrompt.
    destruct (String.eqb (trim (input (chat u))) EmptyString); simpl;
      [exact H|].
    case_eq (isLoading (chat u)); intros E; simpl; [exact H|]. auto.
  - case_eq (isLoading (chat u)); intros E; [exact H|]. simpl.
    destruct (inflight u); simpl; auto; destruct H; congruence.
  - case_eq (inflight u); [intros pending Hp|intros Hp]; rewrite Hp in H;
      simpl.
    + apply settle_current_clears. apply H.
    + now rewrite Hp.
Qed.

Lemma ui_run_consistent (events : list UiEvent) (u : Ui) :
  ui_consistent u -> ui_consistent (ui_run events u).
Proof.
  revert u. induction events as [|ev events IH]; intros u H; simpl; auto.
  apply IH. now apply ui_step_consistent.
Qed.

(** Driven through its own controls, the chat awaits at most one request at
    a time: the loading flag is up exactly while a request is awaited, the
    awaited request always carries the current session counter (Reset being
    disabled while loading, its answer is never discarded as stale), and
    when the answer arrives the loading flag is cleared. *)
Theorem ui_request_settles_in_its_session (events : list UiEvent) (now : Z) :
  let u := ui_run events (ui_initial now) in
  (isLoading (chat u) = true <-> inflight u <> None)
  /\ (forall pending, inflight u = Some pending ->
        currentSessionId pending = sessionIdRef (chat u)
        /\ forall outcome arrival,
             settle pending outcome arrival (chat u)
             = chat (ui_step u (Arrive outcome arrival))
             /\ isLoading (settle pending outcome arrival (chat u)) = false)
  /\ (forall prompt preserveInput at_time,
        inflight u <> None ->
        sendPrompt prompt preserveInput at_time (chat u) = (chat u, None)).
Proof.
  intros u.
  assert (H : ui_consistent u)
    by (apply ui_run_consistent; reflexivity).
  unfold ui_consistent in H.
  split; [|split].
  - destruct (inflight u) as [pending|].
    + split; [discriminate|]. intros _. apply H.
    + rewrite H. split; [discriminate|congruence].
  - intros pending Hp. rewrite Hp in H. destruct H as [_ Hs].
    split; [exact Hs|]. intros outcome arrival. split.
    + simpl. now rewrite Hp.
    + now apply settle_current_clears.
  - intros prompt preserveInput at_time Hp.
    destruct (inflight u) as [pending|]; [|congruence].
    destruct H as [Hl _]. unfold sendPrompt. rewrite Hl.
    now rewrite orb_true_r.
Qed.

(** ** What the parent is told *)




(** With the backend unreachable (network error, a status outside 2xx or
    a body that does not parse), [askAI] resolves with its error payload,
    so the chat shows one error message naming the connection problem,
    clears the dashboard data, and reports the backend as 'degraded': the
    'offline' report of the catch block is not reached. *)
Theorem unreachable_backend_is_reported_degraded
  (reply : FetchOutcome AIResponse.t) (pending : Pending) (now : Z)
  (st : ChatState) :
  failing reply = true ->
  currentSessionId pending = sessionIdRef st ->
  let st' := settle pending (Resolved (askAI reply)) now st in
  messages st'
  = (messages st
     ++ [mkMessage ("assistant-" ++ string_of_Z now)%string
           "An error occurred: Could not connect to the AI server. Is it running?"
           assistant now (Some "error") None (Some [])])%list
  /\ calls st'
     = (calls st
        ++ [DataReceived [] "Error connecting to backend.";
            BackendStatusChange degraded
              "Could not connect to the AI server. Is it running?"])%list
  /\ isLoading st' = false.
Proof.
  intros Hfail Hs.
  assert (Hask : askAI reply
                 = AIResponse.mk (Some "Error connecting to backend.") NoData
                     None Undefined
                     (Some "Could not connect to the AI server. Is it running?")).
  { unfold askAI.
      destruct (proj1 (FetchClient.failing_throws reply) Hfail) as [e He].
    now rewrite He. }
  rewrite Hask. unfold settle. rewrite Hs, Nat.eqb_refl.
  repeat split. simpl. now rewrite <- app_assoc.
Qed.

Lemma unreachable_backend_is_reported_degraded_witness :
  calls (settle (mkPending 0 "Show the latest floats")
           (Resolved (askAI (HttpResponse 503 None))) 1700000002000
           (fst (sendPrompt "Show the latest floats" false 1700000000000
                   (initial_chat 1699999990000))))
  = [ComplexitySignal (-1) "Show the latest floats";
     DataReceived [] "Error connecting to backend.";
     BackendStatusChange degraded
       "Could not connect to the AI server. Is it running?"].
Proof.
  apply (@unreachable_backend_is_reported_degraded (HttpResponse 503 None)
           (mkPending 0 "Show the latest floats") 1700000002000
           (fst (sendPrompt "Show the latest floats" false 1700000000000
                   (initial_chat 1699999990000)))).
  - reflexivity.
  - reflexivity.
Defined.

End ChatSession.


(* ------------------------------------------------------------------ *)
(** * App: persona mode, complexity score, recent queries and the
      command palette *)

Module AppControls.
Import Js DataVisualization.
Local Open Scope string_scope.

Definition COMPLEXITY_THRESHOLD : Z := 4.

(** The part of the component's state that the persona handlers and the
    palette work on.  [focusMetric] holds whatever string the palette
    passed: the code casts the payload without a check. *)
Record Controls : Type := mkControls {
  mode : PersonaMode;
  complexityScore : Z;
  recentQueries : list string;
  hasAutoOpenedPaletteRef : bool;
  showCommandPalette : bool;
  activeTab : string;
  focusMetric : string;
  floatId : option string;
  depthRange : option (option number * option number);
  palettePrefill : option string
}.

Definition initial_controls : Controls :=
  mkControls guided 0 [] false false "analysis" "temperature" None None None.

Definition setMode (m : PersonaMode) (c : Controls) : Controls :=
  mkControls m (complexityScore c) (recentQueries c)
    (hasAutoOpenedPaletteRef c) (showCommandPalette c) (activeTab c)
    (focusMetric c) (floatId c) (depthRange c) (palettePrefill c).

Definition setComplexityScore (score : Z) (c : Controls) : Controls :=
  mkControls (mode c) score (recentQueries c)
    (hasAutoOpenedPaletteRef c) (showCommandPalette c) (activeTab c)
    (focusMetric c) (floatId c) (depthRange c) (palettePrefill c).

Definition setRecentQueries (queries : list string) (c : Controls)
  : Controls :=
  mkControls (mode c) (complexityScore c) queries
    (hasAutoOpenedPaletteRef c) (showCommandPalette c) (activeTab c)
    (focusMetric c) (floatId c) (depthRange c) (palettePrefill c).

Definition setHasAutoOpened (flag : bool) (c : Controls) : Controls :=
  mkControls (mode c) (complexityScore c) (recentQueries c)
    flag (showCommandPalette c) (activeTab c)
    (focusMetric c) (floatId c) (depthRange c) (palettePrefill c).

Definition setShowCommandPalette (shown : bool) (c : Controls) : Controls :=
  mkControls (mode c) (complexityScore c) (recentQueries c)
    (hasAutoOpenedPaletteRef c) shown (activeTab c)
    (focusMetric c) (floatId c) (depthRange c) (palettePrefill c).

Definition setActiveTab (tab : string) (c : Controls) : Controls :=
  mkControls (mode c) (complexityScore c) (recentQueries c)
    (hasAutoOpenedPaletteRef c) (showCommandPalette c) tab
    (focusMetric c) (floatId c) (depthRange c) (palettePrefill c).

(** [setExpertFilters({ focusMetric: "temperature" })]. *)
Definition resetExpertFilters (c : Controls) : Controls :=
  mkControls (mode c) (complexityScore c) (recentQueries c)
    (hasAutoOpenedPaletteRef c) (showCommandPalette c) (activeTab c)
    "temperature" None None (palettePrefill c).

Definition setFocusMetric (metric : string) (c : Controls) : Controls :=
  mkControls (mode c) (complexityScore c) (recentQueries c)
    (hasAutoOpenedPaletteRef c) (showCommandPalette c) (activeTab c)
    metric (floatId c) (depthRange c) (palettePrefill c).

Definition setPalettePrefill (text : option string) (c : Controls)
  : Controls :=
  mkControls (mode c) (complexityScore c) (recentQueries c)
    (hasAutoOpenedPaletteRef c) (showCommandPalette c) (activeTab c)
    (focusMetric c) (floatId c) (depthRange c) text.

(** [handleModeChange(nextMode)]. *)
Definition handleModeChange (nextMode : PersonaMode) (c : Controls)
  : Controls :=
  match nextMode with
  | guided =>
      resetExpertFilters
        (setHasAutoOpened false (setComplexityScore 0 (setMode guided c)))
  | expert => setMode expert c
  end.

(** The updater of [setRecentQueries] in [handleComplexitySignal]. *)
Definition remember_query (query : string) (prev : list string)
  : list string :=
  firstn 8
    (trim query
     :: filter (fun entry => negb (String.eqb entry (trim query))) prev).

(** [handleComplexitySignal(delta, query)]. *)
Definition handleComplexitySignal (delta : Z) (query : string) (c : Controls)
  : Controls :=
  let c1 :=
    if String.eqb query EmptyString then c
    else if String.eqb (trim query) EmptyString then c
    else setRecentQueries (remember_query query (recentQueries c)) c in
  let next := Z.max 0 (complexityScore c1 + delta) in
  let c2 :=
    match mode c with
    | guided => if (COMPLEXITY_THRESHOLD <=? next)%Z then setMode expert c1
                else c1
    | expert => c1
    end in
  setComplexityScore next c2.

(** [handleCommandAction(action, payload)]. *)
Definition handleCommandAction (action : string) (payload : option string)
  (c : Controls) : Controls :=
  let c1 :=
    if String.eqb action "switch-guided" then handleModeChange guided c
    else if String.eqb action "switch-expert" then setMode expert c
    else if String.eqb action "open-analysis" then setActiveTab "analysis" c
    else if String.eqb action "open-map" then setActiveTab "map" c
    else if String.eqb action "open-profiles" then setActiveTab "profiles" c
    else if String.eqb action "open-sql" then setActiveTab "sql" c
    else if String.eqb action "focus-temperature"
            || String.eqb action "focus-salinity"
            || String.eqb action "focus-pressure"
            || String.eqb action "focus-oxygen"
            || String.eqb action "focus-density"
    then setFocusMetric
           (match payload with
            | Some metric =>
                if String.eqb metric EmptyString then "temperature"
                else metric
            | None => "temperature"
            end) c
    else if String.eqb action "clear-filters" then resetExpertFilters c
    else if String.eqb action "prefill-query" then
      match payload with
      | Some text =>
          if String.eqb text EmptyString then c
          else setPalettePrefill (Some text) c
      | None => c
      end
    else c in
  setShowCommandPalette false c1.

(** [handlePrefillConsumed()]. *)
Definition handlePrefillConsumed (c : Controls) : Controls :=
  setPalettePrefill None c.

(** What [handleChatHardReset()] does to these fields. *)
Definition handleChatHardReset (c : Controls) : Controls :=
  mkControls guided 0 [] false false "analysis" "temperature" None None None.

(** The effect on [mode, complexityScore]: the palette opens by itself
    once, when expert mode is on with the score at the threshold. *)
Definition auto_open (c : Controls) : Controls :=
  match mode c with
  | expert =>
      if (COMPLEXITY_THRESHOLD <=? complexityScore c)%Z
         && negb (hasAutoOpenedPaletteRef c)
      then setShowCommandPalette true (setHasAutoOpened true c)
      else c
  | guided => c
  end.

Definition same_mode (a b : PersonaMode) : bool :=
  match a, b with
  | guided, guided | expert, expert => true
  | _, _ => false
  end.

(** An effect runs after a render in which one of its dependencies has
    changed. *)
Definition after_render (before after : Controls) : Controls :=
  if same_mode (mode before) (mode after)
     && (complexityScore before =? complexityScore after)%Z
  then after
  else auto_open after.

Inductive ControlEvent : Type :=
| ModeChange (nextMode : PersonaMode)
| Signal (delta : Z) (query : string)
| Command (action : string) (payload : option string)
| PrefillConsumed
| OpenChange (shown : bool)
| HardReset.

Definition handle (c : Controls) (ev : ControlEvent) : Controls :=
  match ev with
  | ModeChange nextMode => handleModeChange nextMode c
  | Signal delta query => handleComplexitySignal delta query c
  | Command action payload => handleCommandAction action payload c
  | PrefillConsumed => handlePrefillConsumed c
  | OpenChange shown => setShowCommandPalette shown c
  | HardReset => handleChatHardReset c
  end.

Definition control_step (c : Controls) (ev : ControlEvent) : Controls :=
  after_render c (handle c ev).

Definition control_run (events : list ControlEvent) (c : Controls)
  : Controls :=
  fold_left control_step events c.

(** ** Recent queries *)

Lemma firstn_In (A : Type) (n : nat) (l : list A) (x : A) :
  In x (firstn n l) -> In x l.
Proof.
  revert l. induction n as [|n IH]; intros [|y l]; simpl; try tauto.
  intros [H|H]; auto.
Qed.

Lemma firstn_NoDup (A : Type) (n : nat) (l : list A) :
  NoDup l -> NoDup (firstn n l).
Proof.
  revert l. induction n as [|n IH]; intros [|y l] H; simpl;
    try constructor.
  - inversion H; subst. intros Hin. apply firstn_In in Hin. contradiction.
  - inversion H; subst. now apply IH.
Qed.

Definition queries_ok (queries : list string) : Prop :=
  NoDup queries
  /\ (length queries <= 8)%nat
  /\ Forall (fun entry => entry <> EmptyString) queries.

Lemma remember_query_ok (query : string) (prev : list string) :
  trim query <> EmptyString ->
  queries_ok prev -> queries_ok (remember_query query prev).
Proof.
  intros Hq (Hnd & _ & Hne). unfold remember_query, queries_ok.
  split; [|split].
  - apply firstn_NoDup. constructor.
    + intros Hin. apply filter_In in Hin. destruct Hin as [_ Hneq].
      now rewrite String.eqb_refl in Hneq.
    + now apply NoDup_filter.
  - apply firstn_le_length.
  - apply Forall_forall. intros entry Hin. apply firstn_In in Hin.
    destruct Hin as [<-|Hin]; auto.
    apply filter_In in Hin. destruct Hin as [Hin _].
    rewrite Forall_forall in Hne. now apply Hne.
Qed.

Lemma after_render_queries (before after : Controls) :
  recentQueries (after_render before after) = recentQueries after.
Proof.
  unfold after_render, auto_open.
  destruct (same_mode _ _ && _); auto.
  destruct (mode after); auto.
  destruct (_ && _); auto.
Qed.

Lemma handleComplexitySignal_queries (delta : Z) (query : string)
  (c : Controls) :
  recentQueries (handleComplexitySignal delta query c)
  = if String.eqb (trim query) EmptyString then recentQueries c
    else remember_query query (recentQueries c).
Proof.
  unfold handleComplexitySignal.
  destruct (String.eqb_spec query EmptyString) as [->|Hq].
  - change (trim EmptyString) with EmptyString. simpl.
    destruct (mode c); auto.
    destruct (COMPLEXITY_THRESHOLD <=? _)%Z; auto.
  - destruct (String.eqb (trim query) EmptyString); simpl;
      destruct (mode c); auto;
      destruct (COMPLEXITY_THRESHOLD <=? _)%Z; auto.
Qed.

Lemma handleCommandAction_queries (action : string) (payload : option string)
  (c : Controls) :
  recentQueries (handleCommandAction action payload c) = recentQueries c.
Proof.
  unfold handleCommandAction.
  repeat match goal with
         | |- context [if ?b then _ else _] => destruct b; simpl; auto
         | |- context [match ?p with Some _ => _ | None => _ end] =>
             destruct p; simpl; auto
         end.
Qed.

Lemma control_step_queries_ok (c : Controls) (ev : ControlEvent) :
  queries_ok (recentQueries c) ->
  queries_ok (recentQueries (control_step c ev)).
Proof.
  intros H. unfold control_step. rewrite after_render_queries.
  destruct ev as [[|]|delta query|action payload| |shown|]; cbn [handle];
    auto.
  - rewrite handleComplexitySignal_queries.
    destruct (String.eqb_spec (trim query) EmptyString); auto.
    now apply remember_query_ok.
  - now rewrite handleCommandAction_queries.
  - repeat split; [constructor|simpl; lia|constructor].
Qed.

(** Whatever happens in the session, the recent queries offered by the
    command palette are pairwise distinct (they serve as list keys), at
    most eight, and never empty; a prompt with visible text goes to the
    front, trimmed, and a blank one leaves the list alone. *)
Theorem recent_queries_are_distinct (events : list ControlEvent)
  (delta : Z) (query : string) :
  let c := control_run events initial_controls in
  let c' := control_step c (Signal delta query) in
  NoDup (recentQueries c)
  /\ (length (recentQueries c) <= 8)%nat
  /\ Forall (fun entry => entry <> EmptyString) (recentQueries c)
  /\ (trim query <> EmptyString ->
      hd_error (recentQueries c') = Some (trim query)
      /\ forall entry, In entry (recentQueries c') ->
           entry = trim query \/ In entry (recentQueries c))
  /\ (trim query = EmptyString -> recentQueries c' = recentQueries c).
Proof.
  intros c c'.
  assert (Hok : queries_ok (recentQueries c)).
  { subst c. unfold control_run.
    assert (Hgen : forall c0, queries_ok (recentQueries c0) ->
              queries_ok (recentQueries (fold_left control_step events c0))).
    { induction events as [|ev events IH]; intros c0 H0; simpl; auto.
      apply IH. now apply control_step_queries_ok. }
    apply Hgen. repeat split; [constructor|simpl; lia|constructor]. }
  destruct Hok as (Hnd & Hlen & Hne).
  repeat split; auto.
  - subst c'. unfold control_step. rewrite after_render_queries.
    cbn [handle]. rewrite handleComplexitySignal_queries.
    destruct (String.eqb_spec (trim query) EmptyString); [contradiction|].
    reflexivity.
  - subst c'. unfold control_step. rewrite after_render_queries.
    cbn [handle]. rewrite handleComplexitySignal_queries.
    destruct (String.eqb_spec (trim query) EmptyString); [contradiction|].
    intros entry Hin. unfold remember_query in Hin.
    apply firstn_In in Hin. destruct Hin as [<-|Hin]; auto.
    apply filter_In in Hin. tauto.
  - intros Hblank. subst c'. unfold control_step.
    rewrite after_render_queries. cbn [handle].
    rewrite handleComplexitySignal_queries, Hblank. reflexivity.
Qed.

(** ** Persona mode and complexity score *)

Definition persona (c : Controls) : PersonaMode * Z * bool :=
  (mode c, complexityScore c, hasAutoOpenedPaletteRef c).

Definition persona_ok (p : PersonaMode * Z * bool) : Prop :=
  let '(m, score, opened) := p in
  (0 <= score)%Z
  /\ (m = guided -> score < COMPLEXITY_THRESHOLD)%Z
  /\ (m = expert -> (COMPLEXITY_THRESHOLD <= score)%Z -> opened = true).

(** The effect, on the three fields it reads and writes. *)
Definition rendered (before after : PersonaMode * Z * bool)
  : PersonaMode * Z * bool :=
  let '(m0, score0, _) := before in
  let '(m, score, opened) := after in
  if same_mode m0 m && (score0 =? score)%Z then after
  else match m with
       | expert =>
           if (COMPLEXITY_THRESHOLD <=? score)%Z && negb opened
           then (m, score, true)
           else after
       | guided => after
       end.

Lemma after_render_persona (before after : Controls) :
  persona (after_render before after)
  = rendered (persona before) (persona after).
Proof.
  unfold persona, rendered, after_render, auto_open.
  destruct (same_mode (mode before) (mode after)
            && (complexityScore before =? complexityScore after)%Z);
    [reflexivity|].
  destruct (mode after) eqn:Em; [now rewrite Em|].
  destruct ((COMPLEXITY_THRESHOLD <=? complexityScore after)%Z
            && negb (hasAutoOpenedPaletteRef after)); simpl;
    now rewrite ?Em.
Qed.

Lemma handleComplexitySignal_persona (delta : Z) (query : string)
  (c : Controls) :
  persona (handleComplexitySignal delta query c)
  = let next := Z.max 0 (complexityScore c + delta) in
    (match mode c with
     | guided => if (COMPLEXITY_THRESHOLD <=? next)%Z then expert else guided
     | expert => expert
     end, next, hasAutoOpenedPaletteRef c).
Proof.
  unfold handleComplexitySignal, persona.
  destruct (String.eqb query EmptyString);
    [|destruct (String.eqb (trim query) EmptyString)];
    cbn [complexityScore mode setRecentQueries];
    destruct (mode c) eqn:Em; cbn; rewrite ?Em; auto;
    destruct (COMPLEXITY_THRESHOLD <=? Z.max 0 (complexityScore c + delta))%Z;
    cbn; rewrite ?Em; reflexivity.
Qed.

Lemma handleCommandAction_persona (action : string) (payload : option string)
  (c : Controls) :
  persona (handleCommandAction action payload c) = persona c
  \/ persona (handleCommandAction action payload c) = (guided, 0%Z, false)
  \/ persona (handleCommandAction action payload c)
     = (expert, complexityScore c, hasAutoOpenedPaletteRef c).
Proof.
  unfold handleCommandAction, persona.
  repeat match goal with
         | |- context [if ?b then _ else _] => destruct b; simpl; auto
         | |- context [match ?p with Some _ => _ | None => _ end] =>
             destruct p; simpl; auto
         end.
Qed.

Lemma rendered_ok_same (p : PersonaMode * Z * bool) :
  persona_ok p -> persona_ok (rendered p p).
Proof.
  destruct p as [[m score] opened]. unfold rendered.
  assert (E : same_mode m m && (score =? score)%Z = true)
    by (rewrite Z.eqb_refl; destruct m; reflexivity).
  now rewrite E.
Qed.

Lemma rendered_ok_reset (p : PersonaMode * Z * bool) :
  persona_ok (rendered p (guided, 0%Z, false)).
Proof.
  destruct p as [[m score] opened]. unfold rendered.
  destruct (same_mode m guided && (score =? 0)%Z); unfold persona_ok;
    unfold COMPLEXITY_THRESHOLD; repeat split; try lia; try discriminate.
Qed.

Lemma rendered_ok_expert (m : PersonaMode) (score : Z) (opened : bool) :
  persona_ok (m, score, opened) ->
  persona_ok (rendered (m, score, opened) (expert, score, opened)).
Proof.
  unfold persona_ok, rendered, COMPLEXITY_THRESHOLD.
  intros (H0 & Hg & He).
  destruct m; simpl.
  - destruct (4 <=? score)%Z eqn:E; simpl.
    + apply Z.leb_le in E. specialize (Hg eq_refl). lia.
    + apply Z.leb_gt in E.
      repeat split; auto; try discriminate; try (intros; lia).
  - rewrite Z.eqb_refl. repeat split; auto; try discriminate.
Qed.

Lemma rendered_ok_signal (m : PersonaMode) (score delta : Z) (opened : bool) :
  persona_ok (m, score, opened) ->
  persona_ok
    (rendered (m, score, opened)
       (match m with
        | guided =>
            if (COMPLEXITY_THRESHOLD <=? Z.max 0 (score + delta))%Z
            then expert else guided
        | expert => expert
        end, Z.max 0 (score + delta), opened)).
Proof.
  unfold persona_ok, rendered, COMPLEXITY_THRESHOLD.
  intros (H0 & Hg & He).
  set (next := Z.max 0 (score + delta)).
  assert (Hnext : (0 <= next)%Z) by (subst next; lia).
  destruct m.
  - destruct (4 <=? next)%Z eqn:E; simpl.
    + destruct opened; simpl; repeat split; auto; try discriminate.
    + apply Z.leb_gt in E.
      destruct (score =? next)%Z; simpl; repeat split; auto;
        try discriminate; try (intros; lia).
  - simpl. destruct (score =? next)%Z eqn:Es.
    + apply Z.eqb_eq in Es. rewrite <- Es.
      repeat split; auto; try discriminate.
    + destruct (4 <=? next)%Z eqn:E; simpl.
      * destruct opened; simpl; repeat split; auto; try discriminate.
      * apply Z.leb_gt in E.
        repeat split; auto; try discriminate; try (intros; lia).
Qed.

Lemma control_step_persona_ok (c : Controls) (ev : ControlEvent) :
  persona_ok (persona c) -> persona_ok (persona (control_step c ev)).
Proof.
  intros H. unfold control_step. rewrite after_render_persona.
  destruct ev as [[|]|delta query|action payload| |shown|]; cbn [handle].
  - apply rendered_ok_reset.
  - apply (@rendered_ok_expert (mode c) (complexityScore c)
             (hasAutoOpenedPaletteRef c) H).
  - rewrite handleComplexitySignal_persona.
    apply (@rendered_ok_signal (mode c) (complexityScore c) delta
             (hasAutoOpenedPaletteRef c) H).
  - destruct (handleCommandAction_persona action payload c) as [E|[E|E]];
      rewrite E.
    + now apply rendered_ok_same.
    + apply rendered_ok_reset.
    + apply (@rendered_ok_expert (mode c) (complexityScore c)
               (hasAutoOpenedPaletteRef c) H).
  - now apply rendered_ok_same.
  - now apply rendered_ok_same.
  - apply rendered_ok_reset.
Qed.

Lemma control_run_persona_ok (events : list ControlEvent) :
  persona_ok (persona (control_run events initial_controls)).
Proof.
  assert (Hgen : forall c0, persona_ok (persona c0) ->
            persona_ok (persona (control_run events c0))).
  { unfold control_run.
    induction events as [|ev events IH]; intros c0 H0; simpl; auto.
    apply IH. now apply control_step_persona_ok. }
  apply (Hgen initial_controls).
  unfold persona_ok, COMPLEXITY_THRESHOLD. simpl.
  repeat split; try lia; try discriminate.
Qed.

(** Whatever the sequence of mode changes, complexity signals, palette
    commands and resets, the complexity score is never negative; while
    the persona is guided the score is below the threshold (reaching it
    switches to expert in the same step); and in expert mode at or above
    the threshold the palette has already opened by itself. *)
Theorem guided_mode_is_below_threshold (events : list ControlEvent) :
  let c := control_run events initial_controls in
  (0 <= complexityScore c)%Z
  /\ (mode c = guided -> complexityScore c < COMPLEXITY_THRESHOLD)%Z
  /\ (mode c = expert -> (COMPLEXITY_THRESHOLD <= complexityScore c)%Z ->
      hasAutoOpenedPaletteRef c = true).
Proof.
  intros c. apply (control_run_persona_ok events).
Qed.

End AppControls.


(* ------------------------------------------------------------------ *)
(** * The chat wired to the App: complexity signals *)

Module AppWiring.
Import Js Api DataVisualization.
Import AppControls.
Local Open Scope string_scope.

(** The [onComplexitySignal] call of [sendPrompt], as the App receives
    it. *)
Definition prompt_signal (prompt : string) : ControlEvent :=
  Signal
    (ChatInterface.classifyComplexity
       (ChatInterface.evaluateComplexity (trim prompt)))
    (trim prompt).

Lemma sendPrompt_signal (prompt : string) (preserveInput : bool) (now : Z)
  (st st1 : ChatInterface.ChatState) (pending : ChatInterface.Pending) :
  ChatInterface.sendPrompt prompt preserveInput now st = (st1, Some pending) ->
  ChatInterface.calls st1
  = (ChatInterface.calls st
     ++ [ChatInterface.ComplexitySignal
           (ChatInterface.classifyComplexity
              (ChatInterface.evaluateComplexity (trim prompt)))
           (trim prompt)])%list.
Proof.
  unfold ChatInterface.sendPrompt.
  destruct (String.eqb (trim prompt) EmptyString
            || ChatInterface.isLoading st); [discriminate|].
  intros H. inversion H. destruct preserveInput; reflexivity.
Qed.

Lemma prompt_delta_le (prompt : string) :
  (ChatInterface.classifyComplexity
     (ChatInterface.evaluateComplexity (trim prompt)) <= 3)%Z.
Proof.
  destruct (ChatSession.classifyComplexity_cases
              (ChatInterface.evaluateComplexity (trim prompt)))
    as [[_ E]|[[_ E]|[[_ E]|[_ E]]]]; rewrite E; lia.
Qed.

Lemma control_step_mode (c : Controls) (ev : ControlEvent) :
  mode (control_step c ev) = fst (fst (persona (control_step c ev))).
Proof. reflexivity. Qed.

Lemma signal_persona (c : Controls) (delta : Z) (query : string) :
  persona (control_step c (Signal delta query))
  = rendered (persona c)
      (let next := Z.max 0 (complexityScore c + delta) in
       (match mode c with
        | guided =>
            if (COMPLEXITY_THRESHOLD <=? next)%Z then expert else guided
        | expert => expert
        end, next, hasAutoOpenedPaletteRef c)).
Proof.
  unfold control_step. rewrite after_render_persona. cbn [handle].
  now rewrite handleComplexitySignal_persona.
Qed.

Lemma guided_zero_one_prompt (c : Controls) (prompt : string) :
  mode c = guided -> complexityScore c = 0%Z ->
  mode (control_step c (prompt_signal prompt)) = guided.
Proof.
  intros Hm Hs. rewrite control_step_mode. unfold prompt_signal.
  rewrite signal_persona. unfold persona. rewrite Hm, Hs.
  pose proof (prompt_delta_le prompt) as Hd.
  set (delta := ChatInterface.classifyComplexity _) in *.
  cbv zeta. unfold COMPLEXITY_THRESHOLD.
  destruct (4 <=? Z.max 0 (0 + delta))%Z eqn:E;
    [apply Z.leb_le in E; lia|].
  unfold rendered. cbn [same_mode andb].
  destruct (0 =? Z.max 0 (0 + delta))%Z; reflexivity.
Qed.

(** A prompt accepted by the chat reaches the App as one complexity
    signal.  In a fresh session, and right after any switch back to
    guided mode, a single prompt never switches the persona to expert,
    whatever its text: the largest step is 3 and the threshold is 4. *)
Theorem one_prompt_never_promotes (events : list ControlEvent)
  (prompt : string) :
  mode (control_step initial_controls (prompt_signal prompt)) = guided
  /\ mode (control_step
             (control_step (control_run events initial_controls)
                (ModeChange guided))
             (prompt_signal prompt)) = guided
  /\ mode (control_step
             (control_step (control_run events initial_controls) HardReset)
             (prompt_signal prompt)) = guided.
Proof.
  split; [|split].
  - now apply guided_zero_one_prompt.
  - apply guided_zero_one_prompt.
    + rewrite control_step_mode. unfold control_step.
      rewrite after_render_persona. cbn [handle].
      destruct (persona (control_run events initial_controls))
        as [[m score] opened].
      unfold rendered. cbn.
      destruct (same_mode m guided && (score =? 0)%Z); reflexivity.
    + unfold control_step, after_render.
      destruct (same_mode _ _ && _); reflexivity.
  - apply guided_zero_one_prompt.
    + unfold control_step, after_render.
      destruct (same_mode _ _ && _); reflexivity.
    + unfold control_step, after_render.
      destruct (same_mode _ _ && _); reflexivity.
Qed.

Lemma advanced_delta (query : string) :
  test_any ChatInterface.advancedKeywords (toLowerCase query) = true ->
  (2 <= ChatInterface.classifyComplexity
          (ChatInterface.evaluateComplexity query))%Z.
Proof.
  intros H. unfold ChatInterface.evaluateComplexity. rewrite H.
  destruct (test_any ChatInterface.analyticKeywords _),
    (test_any ChatInterface.conditionalPatterns _),
    (test_any ChatInterface.geospatialPatterns _),
    (140 <? _)%nat, (4 <? _)%nat; vm_compute; discriminate.
Qed.

Lemma signal_mode_score (c : Controls) (delta : Z) (query : string) :
  let next := Z.max 0 (complexityScore c + delta) in
  complexityScore (control_step c (Signal delta query)) = next
  /\ mode (control_step c (Signal delta query))
     = match mode c with
       | guided =>
           if (COMPLEXITY_THRESHOLD <=? next)%Z then expert else guided
       | expert => expert
       end.
Proof.
  intros next.
  pose proof (signal_persona c delta query) as H.
  fold next in H. cbv zeta in H.
  set (m := match mode c with
            | guided =>
                if (COMPLEXITY_THRESHOLD <=? next)%Z then expert else guided
            | expert => expert
            end) in *.
  unfold persona in H. unfold rendered in H.
  destruct (same_mode (mode c) m && (complexityScore c =? next)%Z);
    [inversion H; auto|].
  destruct m; [inversion H; auto|].
  destruct ((COMPLEXITY_THRESHOLD <=? next)%Z
            && negb (hasAutoOpenedPaletteRef c)); inversion H; auto.
Qed.

(** After any history, two consecutive prompts that each name an advanced
    technique (join, rank, regression, predict, ...) leave the persona in
    expert mode with the score at or above the threshold, and the command
    palette has opened by itself. *)
Theorem two_advanced_prompts_promote (events : list ControlEvent)
  (first second : string) :
  test_any ChatInterface.advancedKeywords (toLowerCase (trim first)) = true ->
  test_any ChatInterface.advancedKeywords (toLowerCase (trim second)) = true ->
  let c :=
    control_run (events ++ [prompt_signal first; prompt_signal second])
      initial_controls in
  mode c = expert
  /\ (COMPLEXITY_THRESHOLD <= complexityScore c)%Z
  /\ hasAutoOpenedPaletteRef c = true.
Proof.
  intros H1 H2 c.
  pose proof (control_run_persona_ok events) as H0.
  pose proof (control_run_persona_ok
                (events ++ [prompt_signal first; prompt_signal second]))
    as Hc.
  fold c in Hc.
  assert (Ec : c = control_step
                     (control_step (control_run events initial_controls)
                        (prompt_signal first))
                     (prompt_signal second)).
  { subst c. unfold control_run. now rewrite fold_left_app. }
  set (c0 := control_run events initial_controls) in *.
  apply advanced_delta in H1. apply advanced_delta in H2.
  unfold prompt_signal in Ec.
  set (d1 := ChatInterface.classifyComplexity _) in H1, Ec.
  set (d2 := ChatInterface.classifyComplexity _) in H2, Ec.
  destruct (signal_mode_score c0 d1 (trim first)) as [Hs1 Hm1].
  set (c1 := control_step c0 (Signal d1 (trim first))) in *.
  destruct (signal_mode_score c1 d2 (trim second)) as [Hs2 Hm2].
  rewrite <- Ec in Hs2, Hm2.
  unfold persona_ok, persona in H0, Hc.
  destruct H0 as (Hpos & _). destruct Hc as (_ & _ & Hopen).
  unfold COMPLEXITY_THRESHOLD in *.
  assert (Hscore : (4 <= complexityScore c)%Z) by lia.
  assert (Hmode : mode c = expert).
  { rewrite Hm2. destruct (mode c1); auto.
    rewrite <- Hs2.
    destruct (4 <=? complexityScore c)%Z eqn:E; auto.
    apply Z.leb_gt in E. lia. }
  auto.
Qed.

Lemma two_advanced_prompts_promote_witness :
  let c :=
    control_run
      ([Command "open-map" None]
       ++ [prompt_signal "Rank the floats by mean salinity";
           prompt_signal "  Predict next month's temperature "])
      initial_controls in
  mode c = expert
  /\ (COMPLEXITY_THRESHOLD <= complexityScore c)%Z
  /\ hasAutoOpenedPaletteRef c = true.
Proof.
  apply two_advanced_prompts_promote; reflexivity.
Defined.

End AppWiring.


(* ------------------------------------------------------------------ *)
(** * App: the data and status handlers *)

Module AppDeck.
Import Js Api App.
Local Open Scope string_scope.

Section Deck.
Variable Number_toString : number -> string.
Variable Date_new : value -> option Z.
Variable toLocaleString : nat -> string.
Variable toLocaleDateString : Z -> string.
Variable JSON_stringify : AppData -> string.
Variable JSON_parse : string -> completion value.

Definition describe : list value -> completion (option DataSynopsis) :=
  synopsis_of Number_toString Date_new toLocaleString toLocaleDateString.

(** [handleDataReceived(data, sqlQuery)], on the data, the synopsis and
    the loading flag.  A throw of [createDataSynopsis] ends the handler
    after [setAppData]. *)
Definition handleDataReceived (rows : list value) (sql : string) (st : State)
  : State * completion unit :=
  let st1 := setAppData (mkAppData rows sql) st in
  match describe rows with
  | Normal synopsis =>
      let st2 := setDataSynopsis synopsis st1 in
      (if (0 <? length rows)%nat then setIsLoading false st2 else st2,
       Normal tt)
  | Throw e => (st1, Throw e)
  end.

(** [handleBackendStatusChange(status, detail)]. *)
Definition handleBackendStatusChange (status : BackendStatus)
  (detail : option string) (st : State) : State :=
  updateBackendStatus status detail st.

(** [handleChatHardReset()], on the data, the synopsis and the status, up
    to the first request of the welcome load it starts. *)
Definition handleChatHardReset (st : State) : State :=
  welcome_start
    (updateBackendStatus operational
       (Some "Interface reset. Requesting fresh telemetry...")
       (setDataSynopsis None (setAppData (mkAppData [] "") st))).

(** The [description] of [missionStatusDescriptor]. *)
Definition missionStatusDescriptor (st : State) : string :=
  if String.eqb (backendStatusDetail st) EmptyString
  then status_description (backendStatus st)
  else if String.eqb (trim (backendStatusDetail st)) EmptyString
       then status_description (backendStatus st)
       else backendStatusDetail st.

(** What runs between two awaits: a handler called by the chat, or a
    stretch of the welcome load (its opening, the [try] block of an
    attempt on the response received, the fallback branch, its end).
    Stretches of different calls may follow one another in any order. *)
Inductive DeckEvent : Type :=
| Received (rows : list value) (sql : string)
| StatusChange (status : BackendStatus) (detail : option string)
| WelcomeStart
| WelcomeAnswer (response : AIResponse.t)
| WelcomeFallback
| WelcomeEnd
| ChatHardReset
| Logged (event : Event).

Definition deck_step (st : State) (ev : DeckEvent) : State :=
  match ev with
  | Received rows sql => fst (handleDataReceived rows sql st)
  | StatusChange status detail => handleBackendStatusChange status detail st
  | WelcomeStart => welcome_start st
  | WelcomeAnswer response =>
      fst (attempt_once Number_toString Date_new toLocaleString
             toLocaleDateString JSON_stringify response st)
  | WelcomeFallback =>
      fst (welcome_fallback Number_toString Date_new toLocaleString
             toLocaleDateString JSON_parse st)
  | WelcomeEnd => setIsLoading false st
  | ChatHardReset => handleChatHardReset st
  | Logged event => emit event st
  end.

Definition deck_run (events : list DeckEvent) (st : State) : State :=
  fold_left deck_step events st.

Lemma deck_run_app (first second : list DeckEvent) (st : State) :
  deck_run (first ++ second) st = deck_run second (deck_run first st).
Proof. apply fold_left_app. Qed.

(** ** The welcome load is such a run *)

Lemma attempt_loop_is_a_run (network : nat -> FetchOutcome AIResponse.t)
  (remaining attempt : nat) (st : State) :
  exists events,
    fst (attempt_loop Number_toString Date_new toLocaleString
           toLocaleDateString JSON_stringify network remaining attempt st)
    = deck_run events st.
Proof.
  revert attempt st. induction remaining as [|remaining IH];
    intros attempt st.
  - exists []. reflexivity.
  - cbn [attempt_loop].
    destruct (attempt_once _ _ _ _ _ (askAI (network attempt))
                (emit (Attempt attempt) st)) as [st1 success] eqn:E.
    assert (Hst1 : st1 = deck_run [Logged (Attempt attempt);
                                   WelcomeAnswer (askAI (network attempt))]
                           st).
    { simpl. now rewrite E. }
    destruct success.
    + eexists. exact Hst1.
    + destruct (attempt <? maxAttempts - 1)%nat.
      * destruct (IH (S attempt) (emit (Sleep (backoff attempt)) st1))
          as [events ->].
        exists ([Logged (Attempt attempt);
                 WelcomeAnswer (askAI (network attempt));
                 Logged (Sleep (backoff attempt))] ++ events)%list.
        rewrite deck_run_app. f_equal. rewrite Hst1. reflexivity.
      * destruct (IH (S attempt) st1) as [events ->].
        exists ([Logged (Attempt attempt);
                 WelcomeAnswer (askAI (network attempt))] ++ events)%list.
        rewrite deck_run_app. now rewrite Hst1.
Qed.

(** The state a welcome load leaves is the state of a run of its
    stretches. *)
Lemma fetchInitialData_is_a_run (network : nat -> FetchOutcome AIResponse.t)
  (st : State) :
  exists events,
    fst (fetchInitialData Number_toString Date_new toLocaleString
           toLocaleDateString JSON_stringify JSON_parse network st)
    = deck_run (WelcomeStart :: events) st.
Proof.
  unfold fetchInitialData.
  destruct (attempt_loop_is_a_run network maxAttempts 0 (welcome_start st))
    as [events Hrun].
  destruct (attempt_loop _ _ _ _ _ _ _ _ _) as [st1 success].
  cbn [fst] in Hrun.
  destruct success.
  - exists (events ++ [WelcomeEnd])%list.
    cbn [fst deck_run fold_left deck_step].
    change (fold_left deck_step (events ++ [WelcomeEnd])%list
              (welcome_start st))
      with (deck_run (events ++ [WelcomeEnd])%list (welcome_start st)).
    rewrite deck_run_app, <- Hrun. reflexivity.
  - destruct (welcome_fallback _ _ _ _ _ st1) as [st2 outcome] eqn:E.
    assert (Hst2 : st2 = deck_run (events ++ [WelcomeFallback])%list
                           (welcome_start st)).
    { rewrite deck_run_app, <- Hrun. simpl. now rewrite E. }
    destruct outcome as [[]|e].
    + exists (events ++ [WelcomeFallback; WelcomeEnd])%list.
      cbn [fst].
      change (deck_run (WelcomeStart
                        :: (events ++ [WelcomeFallback; WelcomeEnd])%list) st)
        with (deck_run (events ++ [WelcomeFallback; WelcomeEnd])%list
                (welcome_start st)).
      replace (events ++ [WelcomeFallback; WelcomeEnd])%list
        with ((events ++ [WelcomeFallback]) ++ [WelcomeEnd])%list
        by (now rewrite <- app_assoc).
      rewrite deck_run_app, <- Hst2. reflexivity.
    + exists (events ++ [WelcomeFallback])%list. exact Hst2.
Qed.

(** ** The status line *)

Definition visible (text : string) : Prop := trim text <> EmptyString.

Lemma status_description_visible (status : BackendStatus) :
  visible (status_description status).
Proof. destruct status; vm_compute; discriminate. Qed.

Lemma updateBackendStatus_visible (status : BackendStatus)
  (detail : option string) (st : State) :
  visible (backendStatusDetail (updateBackendStatus status detail st)).
Proof.
  unfold updateBackendStatus. cbn [backendStatusDetail].
  destruct detail as [d|]; [|apply status_description_visible].
  destruct (String.eqb d EmptyString); [apply status_description_visible|].
  destruct (String.eqb_spec (trim d) EmptyString);
    [apply status_description_visible|assumption].
Qed.

Lemma deck_step_visible (st : State) (ev : DeckEvent) :
  visible (backendStatusDetail st) ->
  visible (backendStatusDetail (deck_step st ev)).
Proof.
  intros H.
  destruct ev as [rows sql|status detail| |response| | | |event];
    cbn [deck_step].
  - unfold handleDataReceived.
    destruct (describe rows); [destruct (0 <? length rows)%nat|]; exact H.
  - apply updateBackendStatus_visible.
  - apply updateBackendStatus_visible.
  - unfold attempt_once, attempt_body, accept.
    destruct (welcome_payload response) as [payload|]; [|exact H].
    destruct (synopsis_of _ _ _ _ (data payload)); [|exact H].
    apply updateBackendStatus_visible.
  - unfold welcome_fallback.
    destruct (loadCachedWelcomeData JSON_parse (localStorage st))
      as [cached|]; [|apply updateBackendStatus_visible].
    destruct (synopsis_of _ _ _ _ (data cached)); [|exact H].
    apply updateBackendStatus_visible.
  - exact H.
  - apply updateBackendStatus_visible.
  - exact H.
Qed.

(** Whatever data, status reports, stretches of welcome loads and resets
    follow one another, the status line under the title is never blank: a
    missing or blank detail is replaced by the description of the status.
    The second fallback, in [missionStatusDescriptor], therefore never
    applies: what is shown is the stored detail. *)
Theorem status_line_is_never_blank (events : list DeckEvent)
  (storage : Storage) :
  let st := deck_run events (initial_state storage) in
  trim (backendStatusDetail st) <> EmptyString
  /\ missionStatusDescriptor st = backendStatusDetail st
  /\ forall status,
       backendStatusDetail (handleBackendStatusChange status None st)
       = status_description status
       /\ backendStatusDetail
            (handleBackendStatusChange status (Some "   ") st)
          = status_description status.
Proof.
  intros st.
  assert (H : visible (backendStatusDetail st)).
  { subst st. unfold deck_run.
    assert (Hgen : forall st0, visible (backendStatusDetail st0) ->
              visible (backendStatusDetail (fold_left deck_step events st0))).
    { induction events as [|ev events IH]; intros st0 H0; simpl; auto.
      apply IH. now apply deck_step_visible. }
    apply Hgen. vm_compute. discriminate. }
  split; [exact H|]. split.
  - unfold missionStatusDescriptor. unfold visible in H.
    destruct (String.eqb_spec (backendStatusDetail st) EmptyString) as [E|_].
    + rewrite E in H. exfalso. apply H. reflexivity.
    + destruct (String.eqb_spec (trim (backendStatusDetail st)) EmptyString);
        [contradiction|reflexivity].
  - intros status. split; reflexivity.
Qed.

(** ** The synopsis *)






End Deck.


End AppDeck.


(* ------------------------------------------------------------------ *)
(** * [Math.min] and [Math.max] *)

Module JsMath.
Import Js.
Local Open Scope float_scope.

(** [Math.min(a, b)]: NaN when either argument is NaN; of the two zeros,
    the negative one. *)
Definition min (a b : number) : number :=
  if PrimFloat.is_nan a || PrimFloat.is_nan b then PrimFloat.nan
  else if a <? b then a
  else if b <? a then b
  else if PrimFloat.get_sign a then a else b.

(** [Math.max(a, b)]: NaN when either argument is NaN; of the two zeros,
    the positive one. *)
Definition max (a b : number) : number :=
  if PrimFloat.is_nan a || PrimFloat.is_nan b then PrimFloat.nan
  else if a <? b then b
  else if b <? a then a
  else if PrimFloat.get_sign a then b else a.

Lemma ltb_asym (a b : number) : (a <? b) = true -> (b <? a) = false.
Proof.
  rewrite !FloatAxioms.ltb_spec. unfold SFltb.
  rewrite (Num64.SFcompare_antisym (Prim2SF a) (Prim2SF b)).
  destruct (SFcompare (Prim2SF a) (Prim2SF b)) as [[]|]; simpl; auto;
    discriminate.
Qed.

Lemma min_cases (a b : number) :
  PrimFloat.is_nan a = false -> PrimFloat.is_nan b = false ->
  (min a b = a /\ (b <? a) = false) \/ (min a b = b /\ (a <? b) = false).
Proof.
  intros Ha Hb. unfold min. rewrite Ha, Hb. simpl.
  destruct (a <? b) eqn:Eab.
  - left. split; auto. now apply ltb_asym.
  - destruct (b <? a) eqn:Eba; [right; auto|].
    destruct (PrimFloat.get_sign a); auto.
Qed.

Lemma max_cases (a b : number) :
  PrimFloat.is_nan a = false -> PrimFloat.is_nan b = false ->
  (max a b = a /\ (a <? b) = false) \/ (max a b = b /\ (b <? a) = false).
Proof.
  intros Ha Hb. unfold max. rewrite Ha, Hb. simpl.
  destruct (a <? b) eqn:Eab.
  - right. split; auto. now apply ltb_asym.
  - destruct (b <? a) eqn:Eba; [left; auto|].
    destruct (PrimFloat.get_sign a); auto.
Qed.

End JsMath.


(* ------------------------------------------------------------------ *)
(** * The fleet: [RealTimeOceanMap] and the App's fleet overview *)

Module Fleet.
Import Js Api.
Local Open Scope string_scope.

(** ** [RealTimeOceanMap]: loading the floats *)

Definition mockFloats : list ArgoFloat.t := [
  ArgoFloat.mk "mock_1" 40.7%float (-74.0)%float "2024-01-15"
    (Some 18.5%float) (Some 35.2%float)
    (Some [(40.7, -74.0); (40.8, -73.9)]%float) "active";
  ArgoFloat.mk "mock_2" 35.6%float 139.7%float "2024-01-14"
    (Some 22.1%float) (Some 34.8%float)
    (Some [(35.6, 139.7); (35.7, 139.8)]%float) "active";
  ArgoFloat.mk "mock_3" (-33.9)%float 18.4%float "2024-01-13"
    (Some 16.3%float) (Some 35.0%float)
    (Some [(-33.9, 18.4); (-33.8, 18.5)]%float) "delayed"
].

(** The component's [floats] and [loading]. *)
Record MapState : Type := mkMapState {
  floats : list ArgoFloat.t;
  loading : bool
}.

(** [loadFloats()], given what the catalog request comes to. *)
Definition loadFloats (reply : FetchOutcome (list ArgoFloat.t))
  (st : MapState) : MapState :=
  let st1 := mkMapState (floats st) true in
  let st2 :=
    match
      try_catch
        (bind (getArgoFloats reply) (fun result =>
           Normal (mkMapState (ArgoFloatsResult.data result) (loading st1))))
        (fun _ => Normal (mkMapState mockFloats (loading st1)))
    with
    | Normal st' => st'
    | Throw _ => st1
    end in
  mkMapState (floats st2) false.

(** ** [RealTimeOceanMap]: placing a marker *)

(** [((float.lon + 180) / 360) * 100] and [((90 - float.lat) / 180) * 100]. *)
Definition marker_x (float : ArgoFloat.t) : number :=
  (((ArgoFloat.lon float + 180) / 360) * 100)%float.

Definition marker_y (float : ArgoFloat.t) : number :=
  (((90 - ArgoFloat.lat float) / 180) * 100)%float.

(** [Math.max(5, Math.min(95, x))]. *)
Definition clamp (x : number) : number :=
  JsMath.max 5%float (JsMath.min 95%float x).

Definition marker_left (float : ArgoFloat.t) : number := clamp (marker_x float).
Definition marker_top (float : ArgoFloat.t) : number := clamp (marker_y float).

(** ** App: the fleet overview *)

Record FleetOverview : Type := mkFleetOverview {
  totalFloats : option number;
  activeFloats : option nat;
  lastUpdated : option string
}.

(** [floats.data.filter((item) => item.status?.toLowerCase() === "active")
    .length]. *)
Definition active_count (items : list ArgoFloat.t) : nat :=
  length (filter (fun item =>
                    String.eqb (toLowerCase (ArgoFloat.status item)) "active")
            items).

(** The body of [loadFleetSnapshot] after the two calls have resolved,
    [stats] and [floats] being of their declared types. *)
Definition fleet_overview (stats : DatabaseStats.t)
  (floats : ArgoFloatsResult.t) : FleetOverview :=
  mkFleetOverview
    (Some (DatabaseStats.total_floats stats))
    (Some (active_count (ArgoFloatsResult.data floats)))
    (match DatabaseStats.last_updated stats with
     | Some text => Some text
     | None =>
         match ArgoFloatsResult.data floats with
         | first :: _ => Some (ArgoFloat.last_contact first)
         | [] => None
         end
     end).

(** [loadFleetSnapshot()], given what the two calls come to; a rejected
    call or an unmounted component leaves the overview as it was. *)
Definition loadFleetSnapshot (stats : completion DatabaseStats.t)
  (floats : completion ArgoFloatsResult.t) (isMounted : bool)
  (fleetOverview : option FleetOverview) : option FleetOverview :=
  match stats, floats with
  | Normal s, Normal f =>
      if isMounted then Some (fleet_overview s f) else fleetOverview
  | _, _ => fleetOverview
  end.

(** ** Facts *)

Lemma getArgoFloats_normal (reply : FetchOutcome (list ArgoFloat.t)) :
  getArgoFloats reply
  = Normal match fetchJson reply with
           | Normal body => ArgoFloatsResult.mk body live
           | Throw _ => ArgoFloatsResult.mk SAMPLE_FLOATS sample
           end.
Proof. unfold getArgoFloats. destruct (fetchJson reply); reflexivity. Qed.

(** The catalog method of this copy of the client never rejects, so the
    map never falls back to its three mock floats: it shows the floats the
    backend sent, or, when the request fails, the six sample floats of the
    client; in both cases the loading flag ends cleared. *)
Theorem loadFloats_never_shows_mock_floats
  (reply : FetchOutcome (list ArgoFloat.t)) (st : MapState) :
  let st' := loadFloats reply st in
  loading st' = false
  /\ floats st' = match fetchJson reply with
                  | Normal body => body
                  | Throw _ => SAMPLE_FLOATS
                  end
  /\ (failing reply = true ->
      floats st' = SAMPLE_FLOATS
      /\ length (floats st') = 6%nat
      /\ floats st' <> mockFloats).
Proof.
  intros st'. subst st'. unfold loadFloats. rewrite getArgoFloats_normal.
  split; [reflexivity|]. split.
  - destruct (fetchJson reply); reflexivity.
  - intros Hf. apply FetchClient.failing_throws in Hf.
    destruct Hf as [e He]. rewrite He. simpl.
    repeat split. discriminate.
Qed.

Lemma five_le_95 : (5 <=? 95)%float = true.
Proof. reflexivity. Qed.

(** A marker is always placed inside the frame: for a position that is a
    number, the clamped percentage lies between 5 and 95, and a position
    strictly inside that band is left as it is. *)
Theorem marker_stays_inside_frame (float : ArgoFloat.t) :
  PrimFloat.is_nan (marker_x float) = false ->
  PrimFloat.is_nan (marker_y float) = false ->
  ((5 <=? marker_left float) = true /\ (marker_left float <=? 95) = true
   /\ ((5 <? marker_x float) = true -> (marker_x float <? 95) = true ->
       marker_left float = marker_x float))%float
  /\ ((5 <=? marker_top float) = true /\ (marker_top float <=? 95) = true
      /\ ((5 <? marker_y float) = true -> (marker_y float <? 95) = true ->
          marker_top float = marker_y float))%float.
Proof.
  assert (Hclamp : forall x, PrimFloat.is_nan x = false ->
            ((5 <=? clamp x) = true /\ (clamp x <=? 95) = true
             /\ ((5 <? x) = true -> (x <? 95) = true -> clamp x = x))%float).
  { intros x Hx. unfold clamp.
    assert (H95 : PrimFloat.is_nan 95%float = false) by reflexivity.
    assert (H5 : PrimFloat.is_nan 5%float = false) by reflexivity.
    destruct (JsMath.min_cases 95%float x H95 Hx) as [[Em Hm]|[Em Hm]];
      rewrite Em.
    - (* the position is at or beyond 95 *)
      split; [|split].
      + reflexivity.
      + reflexivity.
      + intros _ Hlt. rewrite Hlt in Hm. discriminate.
    - destruct (JsMath.max_cases 5%float x H5 Hx) as [[Ex Hl]|[Ex Hl]];
        rewrite Ex.
      + split; [reflexivity|]. split; [reflexivity|].
        intros Hgt _. rewrite Hgt in Hl. discriminate.
      + split; [|split]; auto.
        * now apply Num64.ltb_false_leb.
        * now apply Num64.ltb_false_leb. }
  intros Hx Hy. split.
  - apply (Hclamp (marker_x float) Hx).
  - apply (Hclamp (marker_y float) Hy).
Qed.

Lemma marker_stays_inside_frame_witness :
  ((5 <=? marker_left (ArgoFloat.mk "5905612" (-33.5) 151.3
                         "2025-11-20T12:00:00Z" None None None "active"))
   = true
   /\ (marker_left (ArgoFloat.mk "5905612" (-33.5) 151.3
                      "2025-11-20T12:00:00Z" None None None "active")
       <=? 95) = true)%float
  /\ ((marker_left (ArgoFloat.mk "far-east" 0 1000
                      "2025-11-20T12:00:00Z" None None None "active")
       =? 95) = true)%float.
Proof.
  split.
  - pose proof (@marker_stays_inside_frame
                  (ArgoFloat.mk "5905612" (-33.5)%float 151.3%float
                     "2025-11-20T12:00:00Z" None None None "active")
                  eq_refl eq_refl) as H.
    split; apply H.
  - reflexivity.
Defined.

(** The two methods the fleet overview calls never reject, so a mounted
    App always gets an overview, and an unmounted one keeps what it had.
    The overview counts the floats whose status is 'active' in any
    letter case; its date is the one of the statistics or, without one,
    the last contact of the first float.  When both requests fail it is
    the sample fleet's: 6 floats, 4 of them active, dated by the first
    sample float. *)
Theorem fleet_overview_of_failing_backend
  (stats_reply : FetchOutcome DatabaseStats.t)
  (catalog_reply : FetchOutcome (list ArgoFloat.t))
  (fleetOverview : option FleetOverview) :
  let load :=
    loadFleetSnapshot (getDatabaseStats stats_reply)
      (getArgoFloats catalog_reply) in
  let items :=
    match fetchJson catalog_reply with
    | Normal body => body
    | Throw _ => SAMPLE_FLOATS
    end in
  load false fleetOverview = fleetOverview
  /\ (exists overview,
        load true fleetOverview = Some overview
        /\ activeFloats overview = Some (active_count items)
        /\ (active_count items <= length items)%nat
        /\ (forall stats, fetchJson stats_reply = Normal stats ->
              totalFloats overview = Some (DatabaseStats.total_floats stats)
              /\ lastUpdated overview
                 = match DatabaseStats.last_updated stats, items with
                   | Some text, _ => Some text
                   | None, first :: _ => Some (ArgoFloat.last_contact first)
                   | None, [] => None
                   end)
        /\ (failing stats_reply = true ->
            totalFloats overview = Some 6%float
            /\ lastUpdated overview
               = match items with
                 | first :: _ => Some (ArgoFloat.last_contact first)
                 | [] => None
                 end)
        /\ (failing stats_reply = true -> failing catalog_reply = true ->
            overview = mkFleetOverview (Some 6%float) (Some 4%nat)
                         (Some "2025-11-20T12:00:00Z"))).
Proof.
  intros load items. subst load items.
  rewrite getArgoFloats_normal. unfold getDatabaseStats, loadFleetSnapshot.
  split; [destruct (fetchJson stats_reply); reflexivity|].
  destruct (fetchJson stats_reply) as [stats|e] eqn:Es; cbn [try_catch].
  - eexists. split; [reflexivity|]. cbn [fleet_overview activeFloats
      totalFloats lastUpdated].
    split; [destruct (fetchJson catalog_reply); reflexivity|].
    split; [apply filter_length_le|].
    split.
    { intros stats' E. inversion E; subst. split; [reflexivity|].
      destruct (DatabaseStats.last_updated stats');
        destruct (fetchJson catalog_reply); reflexivity. }
    split; intros Hf; apply FetchClient.failing_throws in Hf;
      destruct Hf as [e He]; congruence.
  - eexists. split; [reflexivity|]. cbn [fleet_overview activeFloats
      totalFloats lastUpdated].
    split; [destruct (fetchJson catalog_reply); reflexivity|].
    split; [apply filter_length_le|].
    split; [intros stats E; discriminate|].
    split.
    { intros _. split; [reflexivity|].
      destruct (fetchJson catalog_reply); reflexivity. }
    intros _ Hf. apply FetchClient.failing_throws in Hf.
    destruct Hf as [e' He']. rewrite He'. vm_compute. reflexivity.
Qed.

Lemma fleet_overview_of_failing_backend_witness :
  loadFleetSnapshot (getDatabaseStats (HttpResponse 503 None))
    (getArgoFloats NetworkFailure) true None
  = Some (mkFleetOverview (Some 6%float) (Some 4%nat)
            (Some "2025-11-20T12:00:00Z")).
Proof.
  destruct (@fleet_overview_of_failing_backend (HttpResponse 503 None)
              NetworkFailure None)
    as (_ & overview & Hload & _ & _ & _ & _ & Hsample).
  rewrite Hload, Hsample; reflexivity.
Defined.

End Fleet.


(* ------------------------------------------------------------------ *)
(** * InteractiveOceanMap: status filters, visible floats, float details *)

Module OceanMap.
Import Js Api.
Local Open Scope string_scope.

Inductive StatusKey : Type := active | delayed | inactive.

Definition key_text (key : StatusKey) : string :=
  match key with
  | active => "active"
  | delayed => "delayed"
  | inactive => "inactive"
  end.

Definition same_key (a b : StatusKey) : bool :=
  match a, b with
  | active, active | delayed, delayed | inactive, inactive => true
  | _, _ => false
  end.

(** [STATUS_OPTIONS.map((option) => option.key)]. *)
Definition DEFAULT_STATUS_FILTERS : list StatusKey :=
  [active; delayed; inactive].

(** The click handler of a status button: the key is removed when it is
    selected and appended when it is not. *)
Definition toggle (key : StatusKey) (prev : list StatusKey)
  : list StatusKey :=
  if existsb (same_key key) prev
  then filter (fun value => negb (same_key value key)) prev
  else prev ++ [key].

(** [statusFilters.includes(item.status?.toLowerCase())]. *)
Definition matchesStatus (statusFilters : list StatusKey)
  (item : ArgoFloat.t) : bool :=
  existsb
    (fun key => String.eqb (key_text key) (toLowerCase (ArgoFloat.status item)))
    statusFilters.

Definition matchesSearch (searchTerm : string) (item : ArgoFloat.t) : bool :=
  let lowercaseSearch := toLowerCase (trim searchTerm) in
  if String.eqb lowercaseSearch EmptyString then true
  else includes lowercaseSearch (toLowerCase (ArgoFloat.id item)).

(** [filteredFloats]. *)
Definition filteredFloats (floats : list ArgoFloat.t)
  (statusFilters : list StatusKey) (searchTerm : string)
  : list ArgoFloat.t :=
  filter (fun item => matchesStatus statusFilters item
                      && matchesSearch searchTerm item) floats.

(** The [status] entry of the request that [refreshFloats] sends, given
    the one of the [filters] prop. *)
Definition request_status (props_status : option (list string))
  (statusFilters : list StatusKey) : option (list string) :=
  let normalizedStatus :=
    match statusFilters with
    | [] => DEFAULT_STATUS_FILTERS
    | _ :: _ => statusFilters
    end in
  if (0 <? length normalizedStatus)%nat
     && negb (length normalizedStatus =? length DEFAULT_STATUS_FILTERS)%nat
  then Some (map key_text normalizedStatus)
  else props_status.

(** The two numbers of [visibleBadgeLabel]. *)
Definition totalVisible (visible : list ArgoFloat.t) : nat := length visible.

Definition activeVisible (visible : list ArgoFloat.t) : nat :=
  length (filter (fun item => String.eqb (ArgoFloat.status item) "active")
            visible).

(** ** Float details *)

Section Details.
Variable Math_sin : number -> number.
Variable setDate_plus : Z -> Z -> Z.

Inductive OceanVariable : Type := temperature | salinity | pressure.

Record FloatDetailState : Type := mkDetails {
  trajectory : list TrajectoryPoint.t;
  quality : list DataQualityReport.t;
  profile : option ArgoProfile.t;
  timeSeries : list (OceanVariable * TimeSeriesResponse.t)
}.

(** What the four requests of [loadFloatDetails] come to. *)
Record Replies : Type := mkReplies {
  trajectory_reply : FetchOutcome (list TrajectoryPoint.t);
  quality_reply : FetchOutcome (list DataQualityReport.t);
  profile_reply : FetchOutcome ArgoProfile.t;
  series_reply : FetchOutcome TimeSeriesResponse.t
}.

Definition empty_details : FloatDetailState := mkDetails [] [] None [].

(** [loadFloatDetails(floatId, variableToLoad)], [now] being the clock
    reading of a trajectory fallback: the details and [detailsLoading]
    after the call. *)
Definition loadFloatDetails (replies : Replies) (now : Z)
  (variableToLoad : OceanVariable) : FloatDetailState * bool :=
  let body :=
    bind (getFloatTrajectory (trajectory_reply replies) now 60)
      (fun trajectory =>
    bind (getDataQuality (quality_reply replies)) (fun quality =>
    bind (getFloatProfile (profile_reply replies)) (fun profile =>
    bind (getTimeSeriesData Math_sin setDate_plus (series_reply replies))
      (fun series =>
    Normal (mkDetails trajectory quality (Some profile)
              [(variableToLoad, series)]))))) in
  match try_catch body (fun _ => Normal empty_details) with
  | Normal details => (details, false)
  | Throw _ => (empty_details, false)
  end.

Lemma not_failing_normal (T : Type) (reply : FetchOutcome T) :
  failing reply = false -> exists body, fetchJson reply = Normal body.
Proof.
  destruct reply as [|status [body|]]; simpl; try discriminate.
  - destruct (ok status); simpl; [eauto|discriminate].
  - destruct (ok status); discriminate.
Qed.

Lemma getFloatTrajectory_normal
  (reply : FetchOutcome (list TrajectoryPoint.t)) (now : Z) :
  (0 <= now <= max_time_value)%Z ->
  exists points, getFloatTrajectory reply now 60 = Normal points.
Proof.
  intros Hnow. destruct (failing reply) eqn:Ef.
  - eexists. apply FetchClient.getFloatTrajectory_fallback; auto. lia.
  - destruct (not_failing_normal reply Ef) as [body Hb].
    exists body. unfold getFloatTrajectory. now rewrite Hb.
Qed.

(** With a clock reading in the valid date range, loading the details of
    a float never ends in the blank state of the catch block, whatever
    the four requests come to: the details are what the four methods of
    the client resolve with, each the body of its response or the
    client's fallback, and the loading flag ends cleared.  When all four
    requests fail, the panel shows the fallbacks: a synthetic trajectory
    of 10 points and the sample quality report, profile and series. *)
Theorem loadFloatDetails_is_never_blank (replies : Replies) (now : Z)
  (variableToLoad : OceanVariable) :
  (0 <= now <= max_time_value)%Z ->
  let details := fst (loadFloatDetails replies now variableToLoad) in
  snd (loadFloatDetails replies now variableToLoad) = false
  /\ (exists trajectory,
        getFloatTrajectory (trajectory_reply replies) now 60
        = Normal trajectory
        /\ details
           = mkDetails trajectory
               (match fetchJson (quality_reply replies) with
                | Normal body => body
                | Throw _ => SAMPLE_QUALITY
                end)
               (Some match fetchJson (profile_reply replies) with
                     | Normal body => body
                     | Throw _ => SAMPLE_PROFILE
                     end)
               [(variableToLoad,
                 match fetchJson (series_reply replies) with
                 | Normal body => body
                 | Throw _ => SAMPLE_TIME_SERIES Math_sin setDate_plus
                 end)])
  /\ (failing (trajectory_reply replies) = true ->
      failing (quality_reply replies) = true ->
      failing (profile_reply replies) = true ->
      failing (series_reply replies) = true ->
      details
      = mkDetails
          (map (FetchClient.expected_point now 60) (seq 0 10))
          SAMPLE_QUALITY (Some SAMPLE_PROFILE)
          [(variableToLoad, SAMPLE_TIME_SERIES Math_sin setDate_plus)]).
Proof.
  intros Hnow details. subst details. unfold loadFloatDetails.
  destruct (getFloatTrajectory_normal (trajectory_reply replies) Hnow)
    as [points Hp].
  rewrite Hp.
  unfold getDataQuality, getFloatProfile, getTimeSeriesData.
  split; [|split].
  - destruct (fetchJson (quality_reply replies)),
      (fetchJson (profile_reply replies)),
      (fetchJson (series_reply replies)); reflexivity.
  - exists points. split; [reflexivity|].
    destruct (fetchJson (quality_reply replies)),
      (fetchJson (profile_reply replies)),
      (fetchJson (series_reply replies)); reflexivity.
  - intros Ht Hq Hpr Hs.
    rewrite FetchClient.getFloatTrajectory_fallback in Hp by (auto; lia).
    inversion Hp; subst; clear Hp.
    destruct (proj1 (FetchClient.failing_throws _) Hq) as [e1 ->].
    destruct (proj1 (FetchClient.failing_throws _) Hpr) as [e2 ->].
    destruct (proj1 (FetchClient.failing_throws _) Hs) as [e3 ->].
    reflexivity.
Qed.

End Details.

Lemma loadFloatDetails_is_never_blank_witness :
  profile
    (fst (loadFloatDetails (fun x => x) (fun t days => (t + days * 86400000)%Z)
            (mkReplies NetworkFailure (HttpResponse 500 None)
               (HttpResponse 200 None) NetworkFailure)
            1700000000000 salinity))
  = Some SAMPLE_PROFILE.
Proof.
  pose proof (@loadFloatDetails_is_never_blank (fun x => x)
                (fun t days => (t + days * 86400000)%Z)
                (mkReplies NetworkFailure (HttpResponse 500 None)
                   (HttpResponse 200 None) NetworkFailure)
                1700000000000%Z salinity) as H.
  assert (Hnow : (0 <= 1700000000000 <= max_time_value)%Z)
    by (unfold max_time_value; lia).
  specialize (H Hnow). cbv zeta in H.
  destruct H as (_ & _ & H).
  rewrite H by reflexivity. reflexivity.
Defined.

(** With the clock outside the date range the fallback of the trajectory
    method throws, and the panel ends in the blank state. *)
Lemma loadFloatDetails_blank_on_invalid_clock :
  loadFloatDetails (fun x => x) (fun t days => (t + days * 86400000)%Z)
    (mkReplies NetworkFailure NetworkFailure NetworkFailure NetworkFailure)
    (max_time_value + 61 * 86400000) temperature
  = (empty_details, false).
Proof. vm_compute. reflexivity. Qed.

(** ** Status filters *)

Definition toggles (keys : list StatusKey) : list StatusKey :=
  fold_left (fun prev key => toggle key prev) keys DEFAULT_STATUS_FILTERS.

Lemma same_key_eq (a b : StatusKey) : same_key a b = true <-> a = b.
Proof. destruct a, b; simpl; split; congruence. Qed.

Lemma existsb_same_key (key : StatusKey) (l : list StatusKey) :
  existsb (same_key key) l = true <-> In key l.
Proof.
  rewrite existsb_exists. split.
  - intros (x & Hx & E). apply same_key_eq in E. now subst.
  - intros H. exists key. split; auto. now apply same_key_eq.
Qed.

Lemma toggle_NoDup (key : StatusKey) (prev : list StatusKey) :
  NoDup prev -> NoDup (toggle key prev).
Proof.
  intros H. unfold toggle.
  destruct (existsb (same_key key) prev) eqn:E.
  - now apply NoDup_filter.
  - apply NoDup_app; auto.
    + repeat constructor. simpl. tauto.
    + intros x Hx [<-|[]].
      apply existsb_same_key in Hx. congruence.
Qed.

Lemma toggles_NoDup (keys : list StatusKey) : NoDup (toggles keys).
Proof.
  unfold toggles.
  assert (Hgen : forall start, NoDup start ->
            NoDup (fold_left (fun prev key => toggle key prev) keys start)).
  { induction keys as [|key keys IH]; intros start H; simpl; auto.
    apply IH. now apply toggle_NoDup. }
  apply Hgen. repeat constructor; simpl; intuition discriminate.
Qed.

Lemma all_keys (key : StatusKey) : In key DEFAULT_STATUS_FILTERS.
Proof. destruct key; simpl; auto. Qed.

Lemma NoDup_keys_length (l : list StatusKey) :
  NoDup l -> (length l <= 3)%nat.
Proof.
  intros H.
  apply (NoDup_incl_length H (l' := DEFAULT_STATUS_FILTERS)).
  intros key _. apply all_keys.
Qed.

Lemma full_selection (l : list StatusKey) (key : StatusKey) :
  NoDup l -> length l = 3%nat -> In key l.
Proof.
  intros H Hlen.
  assert (Hincl : incl DEFAULT_STATUS_FILTERS l).
  { apply NoDup_length_incl; auto.
    - simpl. lia.
    - intros k _. apply all_keys. }
  apply Hincl, all_keys.
Qed.

Lemma matchesStatus_In (statusFilters : list StatusKey) (item : ArgoFloat.t) :
  matchesStatus statusFilters item = true <->
  exists key, In key statusFilters
              /\ toLowerCase (ArgoFloat.status item) = key_text key.
Proof.
  unfold matchesStatus. rewrite existsb_exists. split.
  - intros (key & Hin & E). apply String.eqb_eq in E. eauto.
  - intros (key & Hin & E). exists key. split; auto.
    apply String.eqb_eq. auto.
Qed.

(** Whatever status buttons are clicked, the selected statuses are
    pairwise distinct and at most three.  The request for the catalog
    names them only when one or two are selected.  With none selected the
    request is the one for the whole fleet, yet no float is visible; with
    all three selected and no search text, the visible floats are exactly
    those whose status, in lower case, is one of the three.  The badge
    never counts more active floats than visible ones, nor more visible
    ones than the catalog holds. *)
Theorem status_filters_and_visible_floats (keys : list StatusKey)
  (props_status : option (list string)) (floats : list ArgoFloat.t)
  (searchTerm : string) :
  let statusFilters := toggles keys in
  let visible := filteredFloats floats statusFilters searchTerm in
  NoDup statusFilters
  /\ (length statusFilters <= 3)%nat
  /\ (request_status props_status statusFilters
      = if ((1 <=? length statusFilters) && (length statusFilters <=? 2))%nat
        then Some (map key_text statusFilters)
        else props_status)
  /\ (statusFilters = [] -> visible = [])
  /\ (length statusFilters = 3%nat ->
      filteredFloats floats statusFilters EmptyString
      = filter (matchesStatus DEFAULT_STATUS_FILTERS) floats)
  /\ (activeVisible visible <= totalVisible visible <= length floats)%nat.
Proof.
  intros statusFilters visible.
  pose proof (toggles_NoDup keys) as Hnd. fold statusFilters in Hnd.
  pose proof (NoDup_keys_length Hnd) as Hlen.
  split; [exact Hnd|]. split; [exact Hlen|]. split; [|split; [|split]].
  - unfold request_status.
    destruct statusFilters as [|a [|b [|c [|d rest]]]]; simpl in *;
      try reflexivity; lia.
  - intros E. subst visible. rewrite E. unfold filteredFloats.
    induction floats as [|item floats IH]; simpl; auto.
  - intros H3. unfold filteredFloats. apply filter_ext. intros item.
    unfold matchesSearch. change (trim EmptyString) with EmptyString.
    change (toLowerCase EmptyString) with EmptyString.
    rewrite String.eqb_refl, andb_true_r.
    apply eq_true_iff_eq. rewrite !matchesStatus_In.
    split; intros (key & _ & E); exists key; split; auto.
    + apply all_keys.
    + now apply full_selection.
  - unfold activeVisible, totalVisible. split.
    + apply filter_length_le.
    + subst visible. unfold filteredFloats. apply filter_length_le.
Qed.

End OceanMap.


(* ------------------------------------------------------------------ *)
(** * The order of numbers *)

Module Order64.
Import Js Num64.
Local Open Scope float_scope.

Lemma min_not_nan (a b : number) :
  PrimFloat.is_nan a = false -> PrimFloat.is_nan b = false ->
  PrimFloat.is_nan (JsMath.min a b) = false.
Proof.
  intros Ha Hb.
  destruct (JsMath.min_cases a b Ha Hb) as [[-> _]|[-> _]]; auto.
Qed.

Lemma max_not_nan (a b : number) :
  PrimFloat.is_nan a = false -> PrimFloat.is_nan b = false ->
  PrimFloat.is_nan (JsMath.max a b) = false.
Proof.
  intros Ha Hb.
  destruct (JsMath.max_cases a b Ha Hb) as [[-> _]|[-> _]]; auto.
Qed.

Lemma min_le (a b : number) :
  PrimFloat.is_nan a = false -> PrimFloat.is_nan b = false ->
  (JsMath.min a b <=? a) = true /\ (JsMath.min a b <=? b) = true.
Proof.
  intros Ha Hb.
  destruct (JsMath.min_cases a b Ha Hb) as [[-> H]|[-> H]]; split;
    auto using leb_refl, Num64.ltb_false_leb.
Qed.

Lemma max_ge (a b : number) :
  PrimFloat.is_nan a = false -> PrimFloat.is_nan b = false ->
  (a <=? JsMath.max a b) = true /\ (b <=? JsMath.max a b) = true.
Proof.
  intros Ha Hb.
  destruct (JsMath.max_cases a b Ha Hb) as [[-> H]|[-> H]]; split;
    auto using leb_refl, Num64.ltb_false_leb.
Qed.

(** [Math.min(...values)] and [Math.max(...values)], for an array within
    the engine's limit on the number of arguments. *)
Definition min_of (values : list number) : number :=
  fold_left JsMath.min values infinity.

Definition max_of (values : list number) : number :=
  fold_left JsMath.max values neg_infinity.

Definition numbers (values : list number) : Prop :=
  Forall (fun v => PrimFloat.is_nan v = false) values.

Lemma fold_min_below (values : list number) (start : number) :
  numbers values -> PrimFloat.is_nan start = false ->
  PrimFloat.is_nan (fold_left JsMath.min values start) = false
  /\ (fold_left JsMath.min values start <=? start) = true
  /\ forall v, In v values ->
       (fold_left JsMath.min values start <=? v) = true.
Proof.
  revert start. induction values as [|x values IH]; intros start Hn Hs; simpl.
  - repeat split; auto using leb_refl; intros v [].
  - inversion Hn as [|? ? Hx Hrest]; subst.
    pose proof (min_not_nan start x Hs Hx) as Hm.
    destruct (min_le start x Hs Hx) as [Hle1 Hle2].
    destruct (IH (JsMath.min start x) Hrest Hm) as (Hnan & Hle & Hall).
    repeat split; auto.
    + eapply leb_trans; eauto.
    + intros v [<-|Hin]; auto. eapply leb_trans; eauto.
Qed.

Lemma fold_max_above (values : list number) (start : number) :
  numbers values -> PrimFloat.is_nan start = false ->
  PrimFloat.is_nan (fold_left JsMath.max values start) = false
  /\ (start <=? fold_left JsMath.max values start) = true
  /\ forall v, In v values ->
       (v <=? fold_left JsMath.max values start) = true.
Proof.
  revert start. induction values as [|x values IH]; intros start Hn Hs; simpl.
  - repeat split; auto using leb_refl; intros v [].
  - inversion Hn as [|? ? Hx Hrest]; subst.
    pose proof (max_not_nan start x Hs Hx) as Hm.
    destruct (max_ge start x Hs Hx) as [Hle1 Hle2].
    destruct (IH (JsMath.max start x) Hrest Hm) as (Hnan & Hle & Hall).
    repeat split; auto.
    + eapply leb_trans; eauto.
    + intros v [<-|Hin]; auto. eapply leb_trans; eauto.
Qed.

Lemma fold_min_in (values : list number) (start : number) :
  numbers values -> PrimFloat.is_nan start = false ->
  fold_left JsMath.min values start = start
  \/ In (fold_left JsMath.min values start) values.
Proof.
  revert start. induction values as [|x values IH]; intros start Hn Hs; simpl;
    auto.
  inversion Hn as [|? ? Hx Hrest]; subst.
  destruct (IH (JsMath.min start x) Hrest (min_not_nan start x Hs Hx))
    as [E|Hin]; auto.
  rewrite E.
  destruct (JsMath.min_cases start x Hs Hx) as [[-> _]|[-> _]]; auto.
Qed.

Lemma fold_max_in (values : list number) (start : number) :
  numbers values -> PrimFloat.is_nan start = false ->
  fold_left JsMath.max values start = start
  \/ In (fold_left JsMath.max values start) values.
Proof.
  revert start. induction values as [|x values IH]; intros start Hn Hs; simpl;
    auto.
  inversion Hn as [|? ? Hx Hrest]; subst.
  destruct (IH (JsMath.max start x) Hrest (max_not_nan start x Hs Hx))
    as [E|Hin]; auto.
  rewrite E.
  destruct (JsMath.max_cases start x Hs Hx) as [[-> _]|[-> _]]; auto.
Qed.

End Order64.


(* ------------------------------------------------------------------ *)
(** * DataVisualization: the filter controls *)

Module Dashboard.
Import Js DataVisualization.
Local Open Scope string_scope.

Section Controls.
Variable Number_toString : number -> string.
(** The number of arguments the engine accepts in one call: spreading a
    longer array into [Math.min] or [Math.max] throws a [RangeError]. *)
Variable argument_limit : nat.

(** The ids a row set offers, [String(row.float_id)] for every row that
    has one, in order of first appearance. *)
Definition float_ids (data : list record) : list string :=
  flat_map (fun row =>
              match get row "float_id" with
              | Undefined | Null => []
              | v => [to_string Number_toString v]
              end) data.

(** [floatOptions]. *)
Definition floatOptions (data : list record) : list string :=
  firstn 24 (App.dedupe (float_ids data)).

(** The pressure column of [depthBounds]. *)
Definition depths (data : list record) : list number :=
  extractNumericValues data "pressure".

(** [depthBounds]: [(min, max)], null without a pressure value. *)
Definition depthBounds (data : list record)
  : completion (option (number * number)) :=
  match depths data with
  | [] => Normal None
  | _ :: _ =>
      if (length (depths data) <=? argument_limit)%nat
      then Normal (Some (Order64.min_of (depths data),
                         Order64.max_of (depths data)))
      else Throw RangeError
  end.

(** [isDepthFiltered]. *)
Definition isDepthFiltered (bounds : option (number * number))
  (filters : ExpertFilters) : bool :=
  match bounds, depthRange filters with
  | Some (lowest, highest), Some (min, max) =>
      match min with
      | Some lower => (lowest <? lower)%float
      | None => false
      end
      || match max with
         | Some upper => (upper <? highest)%float
         | None => false
         end
  | _, _ => false
  end.

(** [depthSliderValue]. *)
Definition depthSliderValue (bounds : option (number * number))
  (filters : ExpertFilters) : number * number :=
  match depthRange filters with
  | Some (min, max) =>
      (match min, bounds with
       | None, Some (lowest, _) => lowest
       | None, None => 0%float
       | Some lower, _ => lower
       end,
       match max, bounds with
       | None, Some (_, highest) => highest
       | None, None => 0%float
       | Some upper, _ => upper
       end)
  | None =>
      match bounds with
      | Some (lowest, highest) => (lowest, highest)
      | None => (0%float, 0%float)
      end
  end.

(** A row that has a pressure value: a number other than NaN. *)
Definition has_pressure (row : record) : bool :=
  is_number_not_nan (get row "pressure").

(** ** The float selector *)

Lemma firstn_incl (A : Type) (n : nat) (l : list A) (x : A) :
  In x (firstn n l) -> In x l.
Proof.
  revert l. induction n as [|n IH]; intros [|y l]; simpl; try tauto.
  intros [H|H]; auto.
Qed.

Lemma firstn_nodup (A : Type) (n : nat) (l : list A) :
  NoDup l -> NoDup (firstn n l).
Proof.
  revert l. induction n as [|n IH]; intros [|y l] H; simpl;
    try constructor.
  - inversion H; subst. intros Hin. apply firstn_incl in Hin. contradiction.
  - inversion H; subst. now apply IH.
Qed.

Lemma float_ids_in (data : list record) (id : string) :
  In id (float_ids data) ->
  exists row, In row data /\ is_float Number_toString id row = true.
Proof.
  unfold float_ids. rewrite in_flat_map. intros (row & Hin & Hid).
  exists row. split; auto. unfold is_float. apply String.eqb_eq.
  destruct (get row "float_id"); simpl in Hid; try tauto;
    destruct Hid as [<-|[]]; reflexivity.
Qed.

(** The float selector offers at most 24 pairwise distinct ids.  Choosing
    an offered id, with no depth window set, never leaves the table
    empty: the rows shown are exactly the rows of that float, and for
    the ids 'all' and the empty text, which the filter reads as no
    choice, all the rows. *)
Theorem offered_float_has_rows (h : store record) (data : ref)
  (focus : FocusMetric) (previous : option string) (id : string) :
  In id (floatOptions (read h data)) ->
  let filters := handleFloatChange id (mkFilters focus previous None) in
  let rows := filtered_rows Number_toString h expert data filters in
  NoDup (floatOptions (read h data))
  /\ (length (floatOptions (read h data)) <= 24)%nat
  /\ rows <> []
  /\ (id <> "all" -> id <> EmptyString ->
      rows = filter (is_float Number_toString id) (read h data))
  /\ (id = "all" \/ id = EmptyString -> rows = read h data).
Proof.
  intros Hin filters rows.
  assert (Hrows : rows = code_pipeline Number_toString (read h data) filters)
    by apply filtered_rows_expert.
  assert (Hrow : exists row, In row (read h data)
                             /\ is_float Number_toString id row = true).
  { apply float_ids_in. apply App.dedupe_In.
    unfold floatOptions in Hin. now apply firstn_incl in Hin. }
  destruct Hrow as (row & Hdata & Hid).
  split; [apply firstn_nodup, App.dedupe_NoDup|].
  split; [apply firstn_le_length|].
  assert (Hall : id = "all" \/ id = EmptyString -> rows = read h data).
  { intros [->| ->]; rewrite Hrows; reflexivity. }
  assert (Hsome : id <> "all" -> id <> EmptyString ->
                  rows = filter (is_float Number_toString id) (read h data)).
  { intros Hn1 Hn2. rewrite Hrows. unfold code_pipeline, filters.
    unfold handleFloatChange. cbn [floatId depthRange focusMetric].
    apply String.eqb_neq in Hn1. rewrite Hn1. cbn [floatId truthy].
    apply String.eqb_neq in Hn2. rewrite Hn2. reflexivity. }
  split; [|split; assumption].
  destruct (String.eqb_spec id "all") as [E1|N1];
    [|destruct (String.eqb_spec id EmptyString) as [E2|N2]].
  - rewrite Hall by auto. intros E. rewrite E in Hdata. destruct Hdata.
  - rewrite Hall by auto. intros E. rewrite E in Hdata. destruct Hdata.
  - rewrite Hsome by auto. intros E.
    assert (Hf : In row (filter (is_float Number_toString id) (read h data)))
      by (apply filter_In; auto).
    rewrite E in Hf. destruct Hf.
Qed.

(** ** The depth window *)

Lemma depths_numbers (data : list record) : Order64.numbers (depths data).
Proof.
  unfold depths, Order64.numbers.
  rewrite extractNumericValues_not_nan_column.
  apply Forall_forall. intros x Hx. apply not_nan_column_in in Hx.
  destruct Hx as (_ & _ & _ & H). exact H.
Qed.

Lemma depth_within_bounds (data : list record) (d : number) :
  In d (depths data) ->
  (Order64.min_of (depths data) <=? d)%float = true
  /\ (d <=? Order64.max_of (depths data))%float = true.
Proof.
  intros Hin. pose proof (depths_numbers data) as Hn.
  split.
  - apply (@Order64.fold_min_below (depths data) infinity Hn eq_refl). exact Hin.
  - apply (@Order64.fold_max_above (depths data) neg_infinity Hn eq_refl).
    exact Hin.
Qed.

Lemma in_full_range (data : list record) (row : record) :
  In row data ->
  in_depth_range (Some (Order64.min_of (depths data)))
    (Some (Order64.max_of (depths data))) row
  = has_pressure row.
Proof.
  intros Hin. unfold in_depth_range, has_pressure, is_number_not_nan.
  destruct (get row "pressure") as [| | |d| | |] eqn:Eg; auto.
  destruct (PrimFloat.is_nan d) eqn:En; auto.
  assert (Hd : In d (depths data)).
  { unfold depths. rewrite extractNumericValues_not_nan_column.
    apply not_nan_column_in. eauto. }
  destruct (@depth_within_bounds data d Hd) as [Hlo Hhi].
  rewrite (Num64.leb_not_ltb Hlo), (Num64.leb_not_ltb Hhi). reflexivity.
Qed.

(** The Reset button of the depth window sets the window to the bounds
    of the data; it does not remove it.  After a reset the filter is
    reported as inactive and the slider shows the full range, yet the rows
    shown are only those that have a pressure value: rows without one
    stay hidden.  Moving the slider to the full range does the same.
    Without any pressure value there are no bounds, and with more
    pressure values than a call takes arguments computing the bounds
    throws. *)
Theorem depth_reset_keeps_only_rows_with_pressure (h : store record)
  (data : ref) (previous : ExpertFilters) :
  match depthBounds (read h data) with
  | Throw _ =>
      (argument_limit < length (filter has_pressure (read h data)))%nat
  | Normal None => filter has_pressure (read h data) = []
  | Normal (Some bounds) =>
      let filters := resetDepth bounds previous in
      filtered_rows Number_toString h expert data filters
      = filter has_pressure
          (filtered_rows Number_toString h expert data
             (mkFilters (focusMetric previous) (floatId previous) None))
      /\ isDepthFiltered (Some bounds) filters = false
      /\ depthSliderValue (Some bounds) filters = bounds
      /\ (fst bounds <=? snd bounds)%float = true
      /\ handleDepthChange (Some bounds) [fst bounds; snd bounds] previous
         = filters
  end.
Proof.
  assert (Hcount : length (depths (read h data))
                   = length (filter has_pressure (read h data))).
  { unfold depths, has_pressure, is_number_not_nan.
    rewrite extractNumericValues_not_nan_column. unfold not_nan_column.
    induction (read h data) as [|row rows IH]; simpl; auto.
    rewrite length_app, IH.
    destruct (get row "pressure") as [| | |x| | |]; simpl; auto.
    destruct (PrimFloat.is_nan x); simpl; auto. }
  unfold depthBounds.
  destruct (depths (read h data)) as [|d rest] eqn:Ed.
  - (* no pressure value at all *)
    apply length_zero_iff_nil. simpl in Hcount. now symmetry.
  - rewrite <- Ed.
    destruct (length (depths (read h data)) <=? argument_limit)%nat eqn:El;
      [|apply Nat.leb_gt in El; rewrite Ed in El; lia].
    set (lowest := Order64.min_of (depths (read h data))).
    set (highest := Order64.max_of (depths (read h data))).
    assert (Hd : In d (depths (read h data))) by (rewrite Ed; simpl; auto).
    destruct (@depth_within_bounds (read h data) d Hd) as [Hlo Hhi].
    fold lowest in Hlo. fold highest in Hhi.
    cbv zeta. unfold resetDepth. cbn [fst snd].
    split; [|split; [|split; [|split]]].
    + rewrite !filtered_rows_expert. unfold code_pipeline.
      cbn [floatId depthRange].
      apply filter_ext_in. intros row Hrow.
      apply in_full_range.
      destruct (floatId previous) as [id|]; auto.
      destruct (truthy (Str id)); auto.
      apply filter_In in Hrow. tauto.
    + unfold isDepthFiltered. cbn [depthRange].
      now rewrite !Num64.ltb_irrefl.
    + reflexivity.
    + eapply Num64.leb_trans; eauto.
    + reflexivity.
Qed.

(** Rows without a pressure value are shown before any depth window is
    set and are hidden after the window is reset. *)
Lemma depth_reset_hides_row_without_pressure :
  let h := [[[("float_id", Str "5905612"); ("pressure", Num 10%float)];
             [("float_id", Str "5905612"); ("temperature", Num 4%float)]]] in
  length (filtered_rows Number_toString h expert 0%nat
            (mkFilters temperature None None)) = 2%nat
  /\ length (filtered_rows Number_toString h expert 0%nat
               (resetDepth (10%float, 10%float)
                  (mkFilters temperature None None))) = 1%nat
  /\ ((1 <= argument_limit)%nat ->
      depthBounds (read h 0%nat) = Normal (Some (10%float, 10%float))).
Proof.
  repeat split. intros H. unfold depthBounds.
  change (depths (read _ 0%nat)) with [10%float].
  cbn [length]. apply Nat.leb_le in H. rewrite H. reflexivity.
Qed.

(** ** The highlighted floats *)

(** [ids.add(x)] on a set held in insertion order. *)
Definition add (x : string) (ids : list string) : list string :=
  if existsb (String.eqb x) ids then ids else ids ++ [x].

(** The id a row contributes, if any. *)
Definition candidate_id (row : record) : option string :=
  match nullish (nullish (get row "float_id") (get row "float"))
          (get row "id") with
  | Str text =>
      if String.eqb (trim text) EmptyString then None else Some (trim text)
  | Num x => if PrimFloat.is_finite x then Some (Number_toString x) else None
  | _ => None
  end.

(** The loop over the rows, left at 12 ids. *)
Fixpoint collect (ids : list string) (rows : list record) : list string :=
  match rows with
  | [] => ids
  | row :: rest =>
      let ids1 :=
        match candidate_id row with
        | Some id => add id ids
        | None => ids
        end in
      if (12 <=? length ids1)%nat then ids1 else collect ids1 rest
  end.

(** [highlightedFloatIds]. *)
Definition highlightedFloatIds (filters : ExpertFilters)
  (workingData : list record) : list string :=
  match floatId filters with
  | Some id =>
      if String.eqb id EmptyString then collect [] workingData else [id]
  | None => collect [] workingData
  end.

Lemma add_spec (x : string) (ids : list string) :
  NoDup ids ->
  NoDup (add x ids)
  /\ (length (add x ids) <= S (length ids))%nat
  /\ forall y, In y (add x ids) <-> In y ids \/ y = x.
Proof.
  intros H. unfold add.
  destruct (existsb (String.eqb x) ids) eqn:E.
  - split; auto. split; [lia|]. intros y. split; auto.
    intros [Hy| ->]; auto. now apply App.existsb_eqb_In.
  - split; [|split].
    + apply NoDup_app; auto.
      * repeat constructor. simpl. tauto.
      * intros y Hy [<-|[]].
        apply App.existsb_eqb_In in Hy. congruence.
    + rewrite length_app. simpl. lia.
    + intros y. rewrite in_app_iff. simpl. intuition.
Qed.

Lemma collect_spec (rows : list record) (ids : list string) :
  NoDup ids -> (length ids < 12)%nat ->
  NoDup (collect ids rows)
  /\ (length (collect ids rows) <= 12)%nat
  /\ (forall id, In id (collect ids rows) ->
        In id ids
        \/ exists row, In row rows /\ candidate_id row = Some id)
  /\ (forall id, In id ids -> In id (collect ids rows)).
Proof.
  revert ids. induction rows as [|row rows IH]; intros ids Hnd Hlen;
    cbn [collect].
  - repeat split; auto. lia.
  - set (ids1 := match candidate_id row with
                 | Some id => add id ids
                 | None => ids
                 end).
    assert (H1 : NoDup ids1
                 /\ (length ids1 <= S (length ids))%nat
                 /\ (forall y, In y ids1 ->
                       In y ids \/ candidate_id row = Some y)
                 /\ (forall y, In y ids -> In y ids1)).
    { subst ids1. destruct (candidate_id row) as [id|].
      - destruct (add_spec id Hnd) as (Ha & Hb & Hc).
        repeat split; auto.
        + intros y Hy. apply Hc in Hy. destruct Hy as [Hy| ->]; auto.
        + intros y Hy. apply Hc. auto.
      - repeat split; auto. }
    destruct H1 as (Hnd1 & Hlen1 & Hfrom & Hkeep).
    destruct (12 <=? length ids1)%nat eqn:E.
    + apply Nat.leb_le in E.
      split; [exact Hnd1|]. split; [lia|]. split; [|exact Hkeep].
      intros id Hid. destruct (Hfrom id Hid) as [Hy|Hy]; eauto.
      right. exists row. simpl. auto.
    + apply Nat.leb_gt in E.
      destruct (IH ids1 Hnd1) as (Ha & Hb & Hc & Hd); [lia|].
      repeat split; auto.
      intros id Hid. destruct (Hc id Hid) as [Hy|(r & Hr & Hy)].
      * destruct (Hfrom id Hy) as [Hz|Hz]; auto.
        right. exists row. simpl. auto.
      * right. exists r. simpl. auto.
Qed.

(** At most 12 floats are highlighted on the map and no id is listed
    twice.  With a float chosen in the selector, that float alone is
    highlighted; otherwise every highlighted id is the trimmed,
    non-empty text or the finite number that some row shown carries as
    its float id. *)
Theorem highlighted_floats_are_few_and_distinct (filters : ExpertFilters)
  (workingData : list record) :
  let ids := highlightedFloatIds filters workingData in
  NoDup ids
  /\ (length ids <= 12)%nat
  /\ (forall id, floatId filters = Some id -> id <> EmptyString ->
        ids = [id])
  /\ (floatId filters = None \/ floatId filters = Some EmptyString ->
      forall id, In id ids ->
        exists row, In row workingData /\ candidate_id row = Some id).
Proof.
  intros ids. subst ids. unfold highlightedFloatIds.
  assert (Hnil : NoDup (@nil string)) by constructor.
  assert (Hlen : (length (@nil string) < 12)%nat) by (simpl; lia).
  destruct (collect_spec workingData Hnil Hlen) as (Ha & Hb & Hc & _).
  assert (Hfrom : forall id, In id (collect [] workingData) ->
            exists row, In row workingData /\ candidate_id row = Some id).
  { intros id Hid. destruct (Hc id Hid) as [[]|H]. exact H. }
  destruct (floatId filters) as [id|].
  - destruct (String.eqb_spec id EmptyString) as [->|Hne].
    + repeat split; auto. intros id' E. inversion E. congruence.
    + repeat split.
      * repeat constructor. simpl. tauto.
      * simpl. lia.
      * intros id' E _. inversion E. reflexivity.
      * intros [E|E]; [discriminate|]. inversion E. congruence.
  - repeat split; auto. intros id E. discriminate.
Qed.

End Controls.

Lemma offered_float_has_rows_witness :
  filtered_rows (fun _ => "5905612")
    [[[("float_id", Str "5905612"); ("pressure", Num 10%float)];
      [("float_id", Str "5905613"); ("pressure", Num 20%float)]]] expert 0%nat
    (handleFloatChange "5905613" (mkFilters temperature None None))
  <> [].
Proof.
  apply (@offered_float_has_rows (fun _ => "5905612")
           [[[("float_id", Str "5905612"); ("pressure", Num 10%float)];
             [("float_id", Str "5905613"); ("pressure", Num 20%float)]]]
           0%nat temperature None "5905613").
  vm_compute. auto.
Defined.

End Dashboard.


(* ------------------------------------------------------------------ *)
(** * services/api.ts: the URLs of the requests *)

Module ApiUrl.
Import Js.
Local Open Scope string_scope.



(** The text before [suffix] when [s] ends with it. *)
Fixpoint strip_suffix (suffix s : string) : option string :=
  if String.eqb s suffix then Some EmptyString
  else match s with
       | EmptyString => None
       | String c rest => option_map (String c) (strip_suffix suffix rest)
       end.

(** [API_URL.replace(/\/?ask$/, "")]: the leftmost match is the one that
    takes the slash in. *)
Definition API_BASE_URL (API_URL : string) : string :=
  match strip_suffix "/ask" API_URL with
  | Some before => before
  | None =>
      match strip_suffix "ask" API_URL with
      | Some before => before
      | None => API_URL
      end
  end.



(** [path.startsWith("/") ? path.slice(1) : path]. *)
Definition normalized (path : string) : string :=
  match path with
  | String "/" rest => rest
  | _ => path
  end.




(** ** Facts about texts *)












(** The pattern is not anchored at a path segment: a configured URL that
    merely ends in the letters "ask" loses them. *)
Lemma API_BASE_URL_cuts_inside_a_segment :
  API_BASE_URL "https://example.org/v1/task" = "https://example.org/v1/t".
Proof. reflexivity. Qed.

End ApiUrl.


(* ------------------------------------------------------------------ *)
(** * App: the quick queries of the command palette *)

Module AppPalette.
Import Js.
Local Open Scope string_scope.

Definition DEGREE : string :=
  String (ascii_of_nat 194) (String (ascii_of_nat 176) EmptyString).

Definition GUIDED_EXAMPLES : list string := [
  "Where are the newest floats deployed this month?";
  "Compare temperature and salinity for float 2902273 at 1000 dbar.";
  "Summarize oxygen levels for floats in the North Atlantic.";
  "Explain the recent trends in mixed layer depth near 45" ++ DEGREE
  ++ "N, 30" ++ DEGREE ++ "W."
].

Record Suggestion : Type := mkSuggestion {
  label : string;
  prompt : string
}.

Section QuickQueries.
Variable Number_toString : number -> string.
(** [new Date(text).getTime()], [None] standing for NaN, and
    [date.toLocaleDateString()]. *)
Variable Date_parse : string -> option Z.
Variable toLocaleDateString : Z -> string.

(** The float ids of the rows: trimmed, non-empty, distinct, the first
    six. *)
Definition floatIds (data : list record) : list string :=
  firstn 6
    (App.dedupe
       (filter (fun text => (0 <? utf16_length text)%nat)
          (map (fun raw => trim (to_string Number_toString raw))
             (filter (fun raw => match raw with
                                 | Undefined | Null => false
                                 | _ => true
                                 end)
                (map (fun row =>
                        nullish (nullish (get row "float_id")
                                   (get row "float")) (get row "id"))
                   data))))).

Definition float_suggestion (floatId : string) : Suggestion :=
  mkSuggestion ("Latest profile for float " ++ floatId)
    ("Show me the most recent profile for float " ++ floatId ++ ".").

(** The suggestion for the date window of the synopsis, if it has one
    with two dates that parse. *)
Definition range_suggestion (dataSynopsis : option App.DataSynopsis)
  : list Suggestion :=
  match dataSynopsis with
  | Some synopsis =>
      match App.start (App.dateWindow synopsis),
            App.end_ (App.dateWindow synopsis) with
      | Some first, Some last =>
          if String.eqb first EmptyString || String.eqb last EmptyString
          then []
          else
            match Date_parse first, Date_parse last with
            | Some t0, Some t1 =>
                let rangeLabel :=
                  toLocaleDateString t0 ++ " " ++ App.ARROW ++ " "
                  ++ toLocaleDateString t1 in
                [mkSuggestion ("Summarize metrics for " ++ rangeLabel)
                   ("Summarize the key ocean metrics for floats observed between "
                    ++ rangeLabel ++ ".")]
            | _, _ => []
            end
      | _, _ => []
      end
  | None => []
  end.

(** One step of the loop over the guided examples. *)
Definition add_example (suggestions : list Suggestion) (example : string)
  : list Suggestion :=
  if existsb (fun suggestion => String.eqb (prompt suggestion) example)
       suggestions
  then suggestions
  else (suggestions ++ [mkSuggestion example example])%list.

(** The suggestions before the final [slice]. *)
Definition suggestions_of (data : list record)
  (dataSynopsis : option App.DataSynopsis) : list Suggestion :=
  fold_left add_example (firstn 3 GUIDED_EXAMPLES)
    (map float_suggestion (floatIds data) ++ range_suggestion dataSynopsis)%list.

(** [quickQueries] once the rows are read. *)
Definition offered_for (rows : list record)
  (dataSynopsis : option App.DataSynopsis) : list Suggestion :=
  firstn 10 (suggestions_of rows dataSynopsis).

(** [quickQueries], on the rows the App holds: reading the float id of a
    null row throws. *)
Definition quickQueries (data : list value)
  (dataSynopsis : option App.DataSynopsis) : completion (list Suggestion) :=
  bind (App.readable_rows data) (fun rows =>
  Normal (offered_for rows dataSynopsis)).

Lemma floatIds_NoDup (data : list record) : NoDup (floatIds data).
Proof. apply AppControls.firstn_NoDup, App.dedupe_NoDup. Qed.

Lemma dot_cancel (a b : string) : a ++ "." = b ++ "." -> a = b.
Proof.
  revert b. induction a as [|x a IH]; intros [|y b] H; simpl in H; auto.
  - inversion H as [[Hc Hr]]. destruct b; discriminate.
  - inversion H as [[Hc Hr]]. destruct a; discriminate.
  - inversion H. f_equal. auto.
Qed.

Lemma float_prompt_inj (a b : string) :
  prompt (float_suggestion a) = prompt (float_suggestion b) -> a = b.
Proof.
  unfold float_suggestion. cbn [prompt]. intros H.
  apply Text.append_cancel in H. now apply dot_cancel.
Qed.

Lemma add_example_spec (suggestions : list Suggestion) (example : string) :
  NoDup (map prompt suggestions) ->
  NoDup (map prompt (add_example suggestions example))
  /\ (length (add_example suggestions example) <= S (length suggestions))%nat
  /\ (forall q, In q suggestions -> In q (add_example suggestions example)).
Proof.
  intros H. unfold add_example.
  destruct (existsb (fun suggestion => String.eqb (prompt suggestion) example)
              suggestions) eqn:E.
  - repeat split; auto.
  - split; [|split].
    + rewrite map_app. apply NoDup_app; auto.
      * repeat constructor. simpl. tauto.
      * intros text Hin [<-|[]]. cbn [prompt] in *.
        apply in_map_iff in Hin. destruct Hin as (q & Hq & Hin).
        assert (Ht : existsb (fun suggestion =>
                                String.eqb (prompt suggestion) example)
                       suggestions = true).
        { apply existsb_exists. exists q. split; auto.
          now apply String.eqb_eq. }
        congruence.
    + rewrite length_app. simpl. lia.
    + intros q Hq. apply in_or_app. auto.
Qed.

Lemma fold_examples_spec (examples : list string)
  (suggestions : list Suggestion) :
  NoDup (map prompt suggestions) ->
  NoDup (map prompt (fold_left add_example examples suggestions))
  /\ (length (fold_left add_example examples suggestions)
      <= length suggestions + length examples)%nat
  /\ (forall q, In q suggestions ->
        In q (fold_left add_example examples suggestions)).
Proof.
  revert suggestions.
  induction examples as [|example examples IH]; intros suggestions H; simpl.
  - repeat split; auto. lia.
  - destruct (@add_example_spec suggestions example H) as (Ha & Hb & Hc).
    destruct (IH _ Ha) as (Hd & He & Hf).
    repeat split; auto. lia.
Qed.

Lemma range_suggestion_spec (dataSynopsis : option App.DataSynopsis) :
  range_suggestion dataSynopsis = []
  \/ exists rangeLabel,
       range_suggestion dataSynopsis
       = [mkSuggestion ("Summarize metrics for " ++ rangeLabel)
            ("Summarize the key ocean metrics for floats observed between "
             ++ rangeLabel ++ ".")].
Proof.
  unfold range_suggestion.
  destruct dataSynopsis as [synopsis|]; auto.
  destruct (App.start (App.dateWindow synopsis)) as [first|]; auto.
  destruct (App.end_ (App.dateWindow synopsis)) as [last|]; auto.
  destruct (String.eqb first EmptyString || String.eqb last EmptyString); auto.
  destruct (Date_parse first) as [t0|]; auto.
  destruct (Date_parse last) as [t1|]; auto.
  right. eexists. reflexivity.
Qed.

Lemma offered_for_spec (rows : list record)
  (dataSynopsis : option App.DataSynopsis) :
  let offered := offered_for rows dataSynopsis in
  offered = suggestions_of rows dataSynopsis
  /\ (length offered <= 10)%nat
  /\ NoDup (map prompt offered)
  /\ NoDup (floatIds rows)
  /\ (length (floatIds rows) <= 6)%nat
  /\ (forall floatId, In floatId (floatIds rows) ->
        In (float_suggestion floatId) offered).
Proof.
  intros offered.
  set (base := (map float_suggestion (floatIds rows)
                ++ range_suggestion dataSynopsis)%list).
  pose proof (floatIds_NoDup rows) as Hids.
  assert (Hsix : (length (floatIds rows) <= 6)%nat)
    by apply firstn_le_length.
  assert (Hbase : NoDup (map prompt base)).
  { subst base. rewrite map_app. apply NoDup_app.
    - rewrite map_map. apply Finite.Injective_map_NoDup; auto.
      intros a b. apply float_prompt_inj.
    - destruct (range_suggestion_spec dataSynopsis) as [->|[text ->]];
        simpl; repeat constructor. simpl. tauto.
    - intros text Hin Hrange.
      rewrite map_map in Hin. apply in_map_iff in Hin.
      destruct Hin as (floatId & <- & _).
      destruct (range_suggestion_spec dataSynopsis) as [E|[label E]];
        rewrite E in Hrange; simpl in Hrange; [tauto|].
      destruct Hrange as [Hr|[]]. discriminate. }
  assert (Hlen : (length base <= 7)%nat).
  { subst base. rewrite length_app, length_map.
    destruct (range_suggestion_spec dataSynopsis) as [->|[text ->]];
      simpl; lia. }
  destruct (@fold_examples_spec (firstn 3 GUIDED_EXAMPLES) base Hbase)
    as (Hnd & Hle & Hkeep).
  assert (Hten : (length (suggestions_of rows dataSynopsis) <= 10)%nat).
  { unfold suggestions_of. fold base. simpl in Hle. simpl. lia. }
  assert (Hcut : offered = suggestions_of rows dataSynopsis).
  { subst offered. unfold offered_for. now apply firstn_all2. }
  rewrite Hcut. repeat split; auto.
  intros floatId Hin. unfold suggestions_of. fold base. apply Hkeep.
  subst base. apply in_or_app. left. now apply in_map.
Qed.

(** On rows none of which is null, the palette offers at most ten quick
    queries, so the final cut never drops one: at most six for the floats
    of the data, one for the date window, and up to three guided
    examples.  No prompt is offered twice, and each of the first six
    distinct float ids of the data has its query.  A null row makes the
    computation throw. *)
Theorem quick_queries_are_distinct (data : list value)
  (dataSynopsis : option App.DataSynopsis) :
  match quickQueries data dataSynopsis with
  | Normal offered =>
      existsb App.is_nullish data = false
      /\ exists rows,
           App.readable_rows data = Normal rows
           /\ offered = suggestions_of rows dataSynopsis
           /\ (length offered <= 10)%nat
           /\ NoDup (map prompt offered)
           /\ NoDup (floatIds rows)
           /\ (length (floatIds rows) <= 6)%nat
           /\ (forall floatId, In floatId (floatIds rows) ->
                 In (float_suggestion floatId) offered)
  | Throw _ => existsb App.is_nullish data = true
  end.
Proof.
  unfold quickQueries.
  pose proof (App.readable_rows_normal data) as Hn.
  destruct (App.readable_rows data) as [rows|e]; cbn [bind].
  - split; [apply Hn; eauto|].
    exists rows. split; [reflexivity|]. apply offered_for_spec.
  - destruct (existsb App.is_nullish data); auto.
    destruct (proj2 Hn eq_refl). discriminate.
Qed.

End QuickQueries.

End AppPalette.
